(** * Schema inference engine of metadata-mgmt: a shallow embedding

    The development follows the Python sources

    - [schema_generation/common/data_infer.py]      ([infer_types]),
    - [schema_generation/csv/csv_schema_generator.py],
    - [schema_generation/jsonl/jsonl_schema_generator.py],
    - [schema_generation/schema_generator.py],

    and states the properties of the specification against them.

    Conventions.  A Python [str] is a list of Unicode code points.  A call
    that may raise returns a [result]; [try]/[except] is a match on it.
    Python dictionaries are insertion-ordered association lists, Python
    sets are [gset]s (their iteration order is left to [elements]).
    Library calls ([re], [json], [float], [int], [Decimal],
    [datetime.strptime]) are modelled after CPython 3.11 on a 64-bit
    POSIX platform, Unicode 14. *)

From Stdlib Require Import ZArith NArith List String Ascii Bool Lia DecimalString.
From stdpp Require Import gmap.
Import ListNotations.

Set Warnings "-register-all".
Local Open Scope N_scope.

(** ** Python text *)

Module Py.

(** [str]: a sequence of code points. *)
Definition str := list N.

Definition ch (a : ascii) : N := N_of_ascii a.
Arguments ch a%_char.

(** An ASCII literal of the source, as a [str]. *)
Definition u (s : string) : str := map N_of_ascii (list_ascii_of_string s).
Arguments u s%_string.

(** The double quote character. *)
Definition dquote : N := 34.

Fixpoint str_eqb (a b : str) : bool :=
  match a, b with
  | [], [] => true
  | x :: a', y :: b' => (x =? y) && str_eqb a' b'
  | _, _ => false
  end.

(** [x in (...)] for a tuple of literals. *)
Definition str_in (x : str) (l : list str) : bool := existsb (str_eqb x) l.

(** [c in s] for a one-character [c]. *)
Definition has_char (c : N) (s : str) : bool := existsb (N.eqb c) s.

Definition in_range (lo hi c : N) : bool := (lo <=? c) && (c <=? hi).

(** [str.isspace] on one code point; also the class [\s] of [re] and the
    characters removed by [str.strip()]. *)
Definition isspace (c : N) : bool :=
  in_range 9 13 c || in_range 28 32 c || (c =? 133) || (c =? 160)
  || (c =? 5760) || in_range 8192 8202 c || (c =? 8232) || (c =? 8233)
  || (c =? 8239) || (c =? 8287) || (c =? 12288).

(** The decimal digits (general category Nd): first code point and length
    of each block; the digit value is the offset modulo 10. *)
Definition decimal_blocks : list (N * N) :=
  [ (48, 10); (1632, 10); (1776, 10); (1984, 10); (2406, 10); (2534, 10);
    (2662, 10); (2790, 10); (2918, 10); (3046, 10); (3174, 10); (3302, 10);
    (3430, 10); (3558, 10); (3664, 10); (3792, 10); (3872, 10); (4160, 10);
    (4240, 10); (6112, 10); (6160, 10); (6470, 10); (6608, 10); (6784, 10);
    (6800, 10); (6992, 10); (7088, 10); (7232, 10); (7248, 10); (42528, 10);
    (43216, 10); (43264, 10); (43472, 10); (43504, 10); (43600, 10);
    (44016, 10); (65296, 10); (66720, 10); (68912, 10); (69734, 10);
    (69872, 10); (69942, 10); (70096, 10); (70384, 10); (70736, 10);
    (70864, 10); (71248, 10); (71360, 10); (71472, 10); (71904, 10);
    (72016, 10); (72784, 10); (73040, 10); (73120, 10); (92768, 10);
    (92864, 10); (93008, 10); (120782, 50); (123200, 10); (123632, 10);
    (125264, 10); (130032, 10) ].

(** [Py_UNICODE_TODECIMAL]: the value of a decimal digit. *)
Definition decimal_value (c : N) : option N :=
  match find (fun b => (fst b <=? c) && (c <? fst b + snd b)) decimal_blocks with
  | Some b => Some ((c - fst b) mod 10)
  | None => None
  end.

(** The class [\d] of [re] on [str] patterns. *)
Definition isdecimal (c : N) : bool :=
  match decimal_value c with Some _ => true | None => false end.

(** The classes [[0-9]], [[a-z]], ... of the patterns. *)
Definition is_09 (c : N) : bool := in_range (ch "0") (ch "9") c.
Definition is_az (c : N) : bool := in_range (ch "a") (ch "z") c.
Definition is_AZ (c : N) : bool := in_range (ch "A") (ch "Z") c.
Definition is_alpha (c : N) : bool := is_az c || is_AZ c.
Definition is_hex (c : N) : bool :=
  is_09 c || in_range (ch "a") (ch "f") c || in_range (ch "A") (ch "F") c.

(** [str.lower()].  Only ASCII letters, U+0130 and U+212A are mapped: every
    other cased letter lowers to code points outside ASCII, and the sources
    compare lowered text with ASCII literals only. *)
Definition lower_char (c : N) : str :=
  if is_AZ c then [c + 32]
  else if c =? 304 then [105; 775]
  else if c =? 8490 then [107]
  else [c].

Definition lower (s : str) : str := flat_map lower_char s.

(** [str.strip()]. *)
Fixpoint lstrip (s : str) : str :=
  match s with
  | c :: s' => if isspace c then lstrip s' else s
  | [] => []
  end.

Definition rstrip (s : str) : str := rev (lstrip (rev s)).

Definition strip (s : str) : str := rstrip (lstrip s).

(** [s.startswith(c)], [s.endswith(c)] for a one-character literal. *)
Definition startswith (c : N) (s : str) : bool :=
  match s with x :: _ => x =? c | [] => false end.

Definition endswith (c : N) (s : str) : bool :=
  match rev s with x :: _ => x =? c | [] => false end.

(** [s.split(sep)] for a one-character separator. *)
Fixpoint split (sep : N) (s : str) : list str :=
  match s with
  | [] => [[]]
  | c :: s' =>
      if c =? sep then [] :: split sep s'
      else match split sep s' with
           | p :: ps => (c :: p) :: ps
           | [] => [[c]]
           end
  end.

(** [s[:-1]]. *)
Definition drop_last (s : str) : str := removelast s.

(** ** Exceptions *)

Inductive exn :=
| ValueError
| JSONDecodeError      (* a subclass of ValueError *)
| InvalidOperation     (* decimal.InvalidOperation *)
| RecursionError
| FileNotFoundError
| ImportError.

Inductive result (A : Type) :=
| Ok (a : A)
| Raise (e : exn).
Arguments Ok {A} a.
Arguments Raise {A} e.

(** Sequencing: an exception of the first call propagates. *)
#[export] Instance result_bind : MBind result := fun A B k r =>
  match r with Ok a => k a | Raise e => Raise e end.

#[export] Instance result_ret : MRet result := fun A a => Ok a.

(** [except ValueError]: catches the class and its subclasses. *)
Definition is_ValueError (e : exn) : bool :=
  match e with ValueError | JSONDecodeError => true | _ => false end.

End Py.
Export Py.


(** ** Numbers from text: [int()], [float()], [Decimal()] *)

Module Num.

(** [_PyUnicode_TransformDecimalAndSpaceToASCII]: an ASCII string is kept;
    otherwise spaces become [' '], decimal digits become ASCII digits and
    the text is cut after the first other non-ASCII character, replaced by
    ['?']. *)
Fixpoint transform (s : str) : str :=
  match s with
  | [] => []
  | c :: s' =>
      if c <? 127 then c :: transform s'
      else if isspace c then ch " " :: transform s'
      else match decimal_value c with
           | Some v => (ch "0" + v) :: transform s'
           | None => [ch "?"]
           end
  end.

Definition to_ascii (s : str) : str :=
  if forallb (fun c => c <? 128) s then s else transform s.

(** [Py_ISSPACE] and the stripping done by the C parsers. *)
Definition c_isspace (c : N) : bool := in_range 9 13 c || (c =? 32).

Fixpoint c_lstrip (s : str) : str :=
  match s with
  | c :: s' => if c_isspace c then c_lstrip s' else s
  | [] => []
  end.

Definition c_strip (s : str) : str := rev (c_lstrip (rev (c_lstrip s))).

(** A maximal run of ASCII digits and what follows it. *)
Fixpoint span_digits (s : str) : str * str :=
  match s with
  | c :: s' =>
      if is_09 c then let (d, r) := span_digits s' in (c :: d, r) else ([], s)
  | [] => ([], [])
  end.

(** The number written by a run of ASCII digits. *)
Definition digits_value (d : str) : Z :=
  fold_left (fun acc c => (10 * acc + Z.of_N (c - ch "0"))%Z) d 0%Z.

(** Digits with single underscores between them: [d(_?d)*]; the digits. *)
Fixpoint grouped_digits (s : str) : option str :=
  match s with
  | [] => None
  | c :: s' =>
      if is_09 c then
        match s' with
        | [] => Some [c]
        | c' :: s'' =>
            if c' =? ch "_" then option_map (cons c) (grouped_digits s'')
            else option_map (cons c) (grouped_digits s')
        end
      else None
  end.

(** An optional sign: [true] for ['-']. *)
Definition take_sign (s : str) : bool * str :=
  match s with
  | c :: s' =>
      if c =? ch "-" then (true, s')
      else if c =? ch "+" then (false, s')
      else (false, s)
  | [] => (false, [])
  end.

(** [sys.get_int_max_str_digits()]. *)
Definition int_max_str_digits : nat := 4300.

(** [int(s)], base 10. *)
Definition py_int (s : str) : result Z :=
  let (neg, body) := take_sign (c_strip (to_ascii s)) in
  match grouped_digits body with
  | Some d =>
      if (int_max_str_digits <? length d)%nat then Raise ValueError
      else Ok (if neg then - digits_value d else digits_value d)%Z
  | None => Raise ValueError
  end.

(** A parsed [float]: the exact decimal that was read, before rounding to
    a double. [FNum neg m e] stands for [(-1)^neg * m * 10^e]. *)
Inductive pyfloat :=
| FNan
| FInf (neg : bool)
| FNum (neg : bool) (m : Z) (e : Z).

(** Every underscore stands between two digits. *)
Fixpoint underscores_ok (prev : N) (s : str) : bool :=
  match s with
  | [] => negb (prev =? ch "_")
  | c :: s' =>
      (if c =? ch "_" then is_09 prev
       else negb (prev =? ch "_") || is_09 c)
      && underscores_ok c s'
  end.

Definition remove_underscores (s : str) : str :=
  List.filter (fun c => negb (c =? ch "_")) s.

(** The exponent part [[eE][+-]?digits] or nothing; [None] if malformed. *)
Definition parse_exponent (s : str) : option Z :=
  match s with
  | [] => Some 0%Z
  | c :: s' =>
      if (c =? ch "e") || (c =? ch "E") then
        let (neg, s'') := take_sign s' in
        let (d, r) := span_digits s'' in
        match d, r with
        | _ :: _, [] => Some (if neg then - digits_value d else digits_value d)%Z
        | _, _ => None
        end
      else None
  end.

(** [digits [. digits] [exponent]] with at least one digit: mantissa and
    decimal exponent. *)
Definition parse_decimal_number (s : str) : option (Z * Z) :=
  let (ip, r) := span_digits s in
  let (fp, r') :=
    match r with
    | c :: r1 => if c =? ch "." then span_digits r1 else ([], r)
    | [] => ([], [])
    end in
  match ip ++ fp with
  | [] => None
  | ds =>
      match parse_exponent r' with
      | Some e => Some (digits_value ds, (e - Z.of_nat (length fp))%Z)
      | None => None
      end
  end.

(** [float(s)]. *)
Definition py_float (s : str) : result pyfloat :=
  let t := to_ascii s in
  if has_char (ch "_") t && negb (underscores_ok 0 t) then Raise ValueError
  else
    let (neg, body) := take_sign (c_strip (remove_underscores t)) in
    let lo := lower body in
    if str_in lo [u "inf"; u "infinity"] then Ok (FInf neg)
    else if str_eqb lo (u "nan") then Ok FNan
    else match parse_decimal_number body with
         | Some (m, e) => Ok (FNum neg m e)
         | None => Raise ValueError
         end.

(** [m * 10^e <= num / den], exactly ([0 < den]). *)
Definition dec_le (m e num den : Z) : bool :=
  if (0 <=? e)%Z then (m * 10 ^ e * den <=? num)%Z
  else (m * den <=? num * 10 ^ (- e))%Z.

(** [0 <= x] on the double nearest to the decimal read: a negative decimal
    rounds to [-0.0] when its magnitude is at most [2^-1075]. *)
Definition float_nonneg (x : pyfloat) : bool :=
  match x with
  | FNan => false
  | FInf neg => negb neg
  | FNum neg m e => negb neg || dec_le m e 1 (2 ^ 1075)
  end.

(** [x <= k] for an integer [k] in [[2^31, 2^32)]: a decimal above [k]
    still rounds to [k] up to half a unit in the last place, [2^-22]. *)
Definition float_le_int32 (x : pyfloat) (k : Z) : bool :=
  match x with
  | FNan => false
  | FInf neg => neg
  | FNum neg m e => neg || dec_le m e (k * 2 ^ 22 + 1) (2 ^ 22)
  end.

(** [Decimal(s)] of the C implementation: the bounds of libmpdec. *)
Definition dec_emax : Z := 999999999999999999.
Definition dec_etiny : Z := -1999999999999999997.

Definition strip_zeros (d : str) : str :=
  (fix go (d : str) : str :=
     match d with
     | c :: d' => if c =? ch "0" then go d' else d
     | [] => []
     end) d.

Definition decimal_number_ok (s : str) : bool :=
  let (ip, r) := span_digits s in
  let (fp, r') :=
    match r with
    | c :: r1 => if c =? ch "." then span_digits r1 else ([], r)
    | [] => ([], [])
    end in
  match ip ++ fp with
  | [] => false
  | ds =>
      match parse_exponent r' with
      | Some e =>
          let exp := (e - Z.of_nat (length fp))%Z in
          let nd := Z.of_nat (length (strip_zeros ds)) in
          ((dec_etiny <=? exp) && (exp + Z.max nd 1 - 1 <=? dec_emax))%Z
      | None => false
      end
  end.

Definition decimal_special_ok (s : str) : bool :=
  let lo := lower s in
  str_in lo [u "inf"; u "infinity"]
  || match lo with
     | 115 :: 110 :: 97 :: 110 :: d => forallb is_09 d   (* snan + digits *)
     | 110 :: 97 :: 110 :: d => forallb is_09 d          (* nan + digits *)
     | _ => false
     end.

Definition py_decimal (s : str) : result unit :=
  let t := to_ascii (remove_underscores (strip s)) in
  let (_, body) := take_sign t in
  if decimal_number_ok body || decimal_special_ok body then Ok tt
  else Raise InvalidOperation.

End Num.

(** ** Regular expressions ([re.match] on anchored patterns) *)

Module Re.

(** Patterns over character classes.  Every pattern of the sources is
    anchored by [^] and [$] and has no back-reference, so [re.match]
    succeeds exactly when the text belongs to the language of the pattern;
    membership is decided by Brzozowski derivatives. *)
Inductive re :=
| Void
| Eps
| Chr (p : N -> bool)
| Cat (r1 r2 : re)
| Alt (r1 r2 : re)
| Star (r : re).

Definition cat (r1 r2 : re) : re :=
  match r1, r2 with
  | Void, _ => Void
  | _, Void => Void
  | Eps, _ => r2
  | _, Eps => r1
  | _, _ => Cat r1 r2
  end.

Definition alt (r1 r2 : re) : re :=
  match r1, r2 with
  | Void, _ => r2
  | _, Void => r1
  | _, _ => Alt r1 r2
  end.

Fixpoint nullable (r : re) : bool :=
  match r with
  | Void => false
  | Eps => true
  | Chr _ => false
  | Cat r1 r2 => nullable r1 && nullable r2
  | Alt r1 r2 => nullable r1 || nullable r2
  | Star _ => true
  end.

Fixpoint deriv (c : N) (r : re) : re :=
  match r with
  | Void => Void
  | Eps => Void
  | Chr p => if p c then Eps else Void
  | Cat r1 r2 =>
      alt (cat (deriv c r1) r2) (if nullable r1 then deriv c r2 else Void)
  | Alt r1 r2 => alt (deriv c r1) (deriv c r2)
  | Star r1 => cat (deriv c r1) (Star r1)
  end.

Fixpoint matches (r : re) (s : str) : bool :=
  match s with
  | [] => nullable r
  | c :: s' => matches (deriv c r) s'
  end.

(** Pattern syntax. *)
Definition lit (c : N) : re := Chr (N.eqb c).
Definition opt (r : re) : re := Alt r Eps.
Definition plus (r : re) : re := Cat r (Star r).

(** [r{n}], [r{n,}] and [r{n,m}] written as [rep n r], [at_least n r] and
    [rep n r] followed by [upto (m - n) r]. *)
Fixpoint rep (n : nat) (r : re) : re :=
  match n with O => Eps | S n' => Cat r (rep n' r) end.

Definition at_least (n : nat) (r : re) : re := Cat (rep n r) (Star r).

Fixpoint upto (n : nat) (r : re) : re :=
  match n with O => Eps | S n' => opt (Cat r (upto n' r)) end.

Definition between (n m : nat) (r : re) : re := Cat (rep n r) (upto (m - n) r).

Fixpoint seq (rs : list re) : re :=
  match rs with
  | [] => Eps
  | [r] => r
  | r :: rs' => Cat r (seq rs')
  end.

Fixpoint word (s : str) : re :=
  match s with [] => Eps | c :: s' => Cat (lit c) (word s') end.

(** [$]: the end of the text, or just before a newline that ends it. *)
Definition dollar : re := opt (lit 10).

(** [re.match(r'^...$', s)]. *)
Definition re_match (r : re) (s : str) : bool := matches (Cat r dollar) s.

(** Character classes. *)
Definition d : re := Chr isdecimal.                       (* \d *)
Definition sp : re := Chr isspace.                        (* \s *)
Definition hex : re := Chr is_hex.                        (* [0-9a-fA-F] *)
Definition any : re := Chr (fun c => negb (c =? 10)).     (* . *)
Definition one_of (s : str) : N -> bool := fun c => has_char c s.

(** A letter of [[A-Z]] under [re.IGNORECASE]: the ASCII letters and the
    four code points whose case folding meets them. *)
Definition is_AZ_ignorecase (c : N) : bool :=
  is_alpha c || (c =? 304) || (c =? 305) || (c =? 383) || (c =? 8490).

(** A literal of the patterns under [re.IGNORECASE] (the letters [h], [t],
    [p], [s], [T] and punctuation): upper and lower case, and U+017F for
    [s]. *)
Definition eq_ignorecase (c x : N) : bool :=
  str_eqb (lower_char x) (lower_char c) || ((c =? ch "s") && (x =? 383)).

Definition lit_ignorecase (c : N) : re := Chr (eq_ignorecase c).

(** The patterns of [infer_types], in source order. *)

(* ^[0-9a-f]{8}-[0-9a-f]{4}-[0-9a-f]{4}-[0-9a-f]{4}-[0-9a-f]{12}$, IGNORECASE *)
Definition uuid_pattern : re :=
  seq [rep 8 hex; lit (ch "-"); rep 4 hex; lit (ch "-"); rep 4 hex;
       lit (ch "-"); rep 4 hex; lit (ch "-"); rep 12 hex].

(* ^[a-zA-Z0-9._%+-]+@[a-zA-Z0-9.-]+\.[a-zA-Z]{2,}$ *)
Definition email_pattern : re :=
  seq [plus (Chr (fun c => is_alpha c || is_09 c || one_of (u "._%+-") c));
       lit (ch "@");
       plus (Chr (fun c => is_alpha c || is_09 c || one_of (u ".-") c));
       lit (ch "."); at_least 2 (Chr is_alpha)].

(* ^https?://[^\s/$.?#].[^\s]*$, IGNORECASE *)
Definition url_pattern : re :=
  seq [lit_ignorecase (ch "h"); lit_ignorecase (ch "t"); lit_ignorecase (ch "t");
       lit_ignorecase (ch "p"); opt (lit_ignorecase (ch "s"));
       word (u "://");
       Chr (fun c => negb (isspace c || one_of (u "/$.?#") c));
       any; Star (Chr (fun c => negb (isspace c)))].

(* ^(\d{1,3}\.){3}\d{1,3}$ *)
Definition ipv4_pattern : re :=
  Cat (rep 3 (Cat (between 1 3 d) (lit (ch ".")))) (between 1 3 d).

(* ^([0-9a-fA-F]{1,4}:){7}[0-9a-fA-F]{1,4}$ *)
Definition ipv6_pattern : re :=
  Cat (rep 7 (Cat (between 1 4 hex) (lit (ch ":")))) (between 1 4 hex).

(* ^([0-9A-Fa-f]{2}[:-]){5}([0-9A-Fa-f]{2})$ *)
Definition mac_pattern : re :=
  Cat (rep 5 (Cat (rep 2 hex) (Chr (one_of (u ":-"))))) (rep 2 hex).

(* ^\d{13,19}$ *)
Definition cc_pattern : re := between 13 19 d.

Definition phone_patterns : list re :=
  [ (* ^\+?[\d\s\-\(\)]{10,}$ *)
    Cat (opt (lit (ch "+")))
        (at_least 10 (Chr (fun c => isdecimal c || isspace c || one_of (u "-()") c)));
    (* ^\d{3}-\d{3}-\d{4}$ *)
    seq [rep 3 d; lit (ch "-"); rep 3 d; lit (ch "-"); rep 4 d];
    (* ^\(\d{3}\)\s?\d{3}-\d{4}$ *)
    seq [lit (ch "("); rep 3 d; lit (ch ")"); opt sp; rep 3 d; lit (ch "-"); rep 4 d];
    (* ^\+\d{1,3}[\s\-]?\d{1,4}[\s\-]?\d{1,4}[\s\-]?\d{1,9}$ *)
    let sep := opt (Chr (fun c => isspace c || (c =? ch "-"))) in
    seq [lit (ch "+"); between 1 3 d; sep; between 1 4 d; sep; between 1 4 d;
         sep; between 1 9 d] ].

(* ^-?\d+\.?\d*,\d+\.?\d*$ *)
Definition pair_pattern : re :=
  seq [opt (lit (ch "-")); plus d; opt (lit (ch ".")); Star d; lit (ch ",");
       plus d; opt (lit (ch ".")); Star d].

(* ^[\$€£¥₹]\s?[\d,]+\.?\d*$ *)
Definition currency_pattern : re :=
  seq [Chr (fun c => (c =? ch "$") || (c =? 8364) || (c =? 163) || (c =? 165)
                     || (c =? 8377));
       opt sp; plus (Chr (fun c => isdecimal c || (c =? ch ",")));
       opt (lit (ch ".")); Star d].

(* IGNORECASE *)
Definition postal_patterns : list re :=
  let L := Chr is_AZ_ignorecase in
  [ (* ^\d{5}(-\d{4})?$ *)
    Cat (rep 5 d) (opt (Cat (lit (ch "-")) (rep 4 d)));
    (* ^[A-Z]\d[A-Z]\s?\d[A-Z]\d$ *)
    seq [L; d; L; opt sp; d; L; d];
    (* ^[A-Z]{1,2}\d{1,2}\s?\d[A-Z]{2}$ *)
    seq [between 1 2 L; between 1 2 d; opt sp; d; rep 2 L] ].

(* ^(ISBN[- ]?)?(\d{10}|\d{13})$ *)
Definition isbn_pattern : re :=
  Cat (opt (Cat (word (u "ISBN")) (opt (Chr (one_of (u "- "))))))
      (Alt (rep 10 d) (rep 13 d)).

(* ^[A-Za-z0-9+/]+=*$ *)
Definition base64_pattern : re :=
  Cat (plus (Chr (fun c => is_alpha c || is_09 c || one_of (u "+/") c)))
      (Star (lit (ch "="))).

(* ^#?[0-9A-Fa-f]{6}$ *)
Definition hex_color_pattern : re := Cat (opt (lit (ch "#"))) (rep 6 hex).

End Re.

(** ** [datetime.strptime] *)

Module Strptime.

(** A format, as [_strptime.TimeRE.pattern] reads it: literal characters,
    runs of whitespace (the regex [\s+]) and directives. *)
Inductive item :=
| Lit (c : N)
| Ws
| Dir (c : N).

Fixpoint items (fmt : str) : option (list item) :=
  match fmt with
  | [] => Some []
  | c :: fmt' =>
      if c =? ch "%" then
        match fmt' with
        | dc :: fmt'' => option_map (cons (Dir dc)) (items fmt'')
        | [] => None                                   (* stray % *)
        end
      else if isspace c then
        match items fmt' with
        | Some (Ws :: its) => Some (Ws :: its)
        | Some its => Some (Ws :: its)
        | None => None
        end
      else option_map (cons (Lit c)) (items fmt')
  end.

(** The text captured by each directive. *)
Record fields := {
  f_Y : option str; f_m : option str; f_d : option str; f_H : option str;
  f_M : option str; f_S : option str; f_f : option str; f_z : option str }.

Definition no_fields : fields :=
  {| f_Y := None; f_m := None; f_d := None; f_H := None;
     f_M := None; f_S := None; f_f := None; f_z := None |}.

Definition set_field (dc : N) (v : str) (fs : fields) : fields :=
  if dc =? ch "Y" then
    {| f_Y := Some v; f_m := f_m fs; f_d := f_d fs; f_H := f_H fs;
       f_M := f_M fs; f_S := f_S fs; f_f := f_f fs; f_z := f_z fs |}
  else if dc =? ch "m" then
    {| f_Y := f_Y fs; f_m := Some v; f_d := f_d fs; f_H := f_H fs;
       f_M := f_M fs; f_S := f_S fs; f_f := f_f fs; f_z := f_z fs |}
  else if dc =? ch "d" then
    {| f_Y := f_Y fs; f_m := f_m fs; f_d := Some v; f_H := f_H fs;
       f_M := f_M fs; f_S := f_S fs; f_f := f_f fs; f_z := f_z fs |}
  else if dc =? ch "H" then
    {| f_Y := f_Y fs; f_m := f_m fs; f_d := f_d fs; f_H := Some v;
       f_M := f_M fs; f_S := f_S fs; f_f := f_f fs; f_z := f_z fs |}
  else if dc =? ch "M" then
    {| f_Y := f_Y fs; f_m := f_m fs; f_d := f_d fs; f_H := f_H fs;
       f_M := Some v; f_S := f_S fs; f_f := f_f fs; f_z := f_z fs |}
  else if dc =? ch "S" then
    {| f_Y := f_Y fs; f_m := f_m fs; f_d := f_d fs; f_H := f_H fs;
       f_M := f_M fs; f_S := Some v; f_f := f_f fs; f_z := f_z fs |}
  else if dc =? ch "f" then
    {| f_Y := f_Y fs; f_m := f_m fs; f_d := f_d fs; f_H := f_H fs;
       f_M := f_M fs; f_S := f_S fs; f_f := Some v; f_z := f_z fs |}
  else
    {| f_Y := f_Y fs; f_m := f_m fs; f_d := f_d fs; f_H := f_H fs;
       f_M := f_M fs; f_S := f_S fs; f_f := f_f fs; f_z := Some v |}.

(** The ways a regex piece can consume a prefix of the text, in the order
    the backtracking matcher tries them: (consumed, rest). *)
Definition alternatives := list (str * str).

(** A sequence of character classes, one character each. *)
Fixpoint classes (ps : list (N -> bool)) (s : str) : alternatives :=
  match ps with
  | [] => [([], s)]
  | p :: ps' =>
      match s with
      | c :: s' =>
          if p c then map (fun a => (c :: fst a, snd a)) (classes ps' s') else []
      | [] => []
      end
  end.

(** [p{1,n}], greedy: the longest run first. *)
Fixpoint greedy (n : nat) (p : N -> bool) (s : str) : alternatives :=
  match n, s with
  | S n', c :: s' =>
      if p c then map (fun a => (c :: fst a, snd a)) (greedy n' p s' ++ [([], s')])
      else []
  | _, _ => []
  end.

(** [a] followed by [b]. *)
Definition then_ (a : str -> alternatives) (b : str -> alternatives) (s : str)
  : alternatives :=
  flat_map (fun x => map (fun y => (fst x ++ fst y, snd y)) (b (snd x))) (a s).

(** [a?], greedy. *)
Definition maybe (a : str -> alternatives) (s : str) : alternatives :=
  a s ++ [([], s)].

Definition r09 (lo hi : ascii) : N -> bool := in_range (N_of_ascii lo) (N_of_ascii hi).
Definition only (c : ascii) : N -> bool := N.eqb (N_of_ascii c).

(* [+-]\d\d:?[0-5]\d(:?[0-5]\d(\.\d{1,6})?)?|(?-i:Z) *)
Definition z_alternatives (s : str) : alternatives :=
  then_ (classes [fun c => only "+" c || only "-" c; isdecimal; isdecimal])
    (then_ (maybe (classes [only ":"]))
      (then_ (classes [r09 "0" "5"; isdecimal])
        (maybe (then_ (maybe (classes [only ":"]))
                 (then_ (classes [r09 "0" "5"; isdecimal])
                    (maybe (then_ (classes [only "."]) (greedy 6 isdecimal)))))))) s
  ++ classes [only "Z"] s.

(** The regex of a directive; [None] for a directive that the formats of
    the sources do not use. *)
Definition directive (dc : N) : option (str -> alternatives) :=
  if dc =? ch "Y" then Some (classes [isdecimal; isdecimal; isdecimal; isdecimal])
  else if dc =? ch "m" then   (* 1[0-2]|0[1-9]|[1-9] *)
    Some (fun s => classes [only "1"; r09 "0" "2"] s ++ classes [only "0"; r09 "1" "9"] s
                   ++ classes [r09 "1" "9"] s)
  else if dc =? ch "d" then   (* 3[0-1]|[1-2]\d|0[1-9]|[1-9]| [1-9] *)
    Some (fun s => classes [only "3"; r09 "0" "1"] s ++ classes [r09 "1" "2"; isdecimal] s
                   ++ classes [only "0"; r09 "1" "9"] s ++ classes [r09 "1" "9"] s
                   ++ classes [only " "; r09 "1" "9"] s)
  else if dc =? ch "H" then   (* 2[0-3]|[0-1]\d|\d *)
    Some (fun s => classes [only "2"; r09 "0" "3"] s ++ classes [r09 "0" "1"; isdecimal] s
                   ++ classes [isdecimal] s)
  else if dc =? ch "M" then   (* [0-5]\d|\d *)
    Some (fun s => classes [r09 "0" "5"; isdecimal] s ++ classes [isdecimal] s)
  else if dc =? ch "S" then   (* 6[0-1]|[0-5]\d|\d *)
    Some (fun s => classes [only "6"; r09 "0" "1"] s ++ classes [r09 "0" "5"; isdecimal] s
                   ++ classes [isdecimal] s)
  else if dc =? ch "f" then   (* [0-9]{1,6} *)
    Some (greedy 6 is_09)
  else if dc =? ch "z" then Some z_alternatives
  else None.

(** [\s+], greedy. *)
Fixpoint ws_alternatives (s : str) : alternatives :=
  match s with
  | c :: s' =>
      if isspace c then map (fun a => (c :: fst a, snd a)) (ws_alternatives s' ++ [([], s')])
      else []
  | [] => []
  end.

(** The first way, in the matcher's order, to read the whole format off a
    prefix of the text: the captured fields and the unread rest. *)
Fixpoint regex_match (its : list item) (fs : fields) (s : str)
  : option (fields * str) :=
  match its with
  | [] => Some (fs, s)
  | it :: its' =>
      let first_of (upd : str -> fields) (alts : alternatives) :=
        fold_right
          (fun a later =>
             match regex_match its' (upd (fst a)) (snd a) with
             | Some found => Some found
             | None => later
             end)
          None alts in
      match it with
      | Lit c => first_of (fun _ => fs) (classes [Re.eq_ignorecase c] s)
      | Ws => first_of (fun _ => fs) (ws_alternatives s)
      | Dir dc =>
          match directive dc with
          | Some alts => first_of (fun v => set_field dc v fs) (alts s)
          | None => None
          end
      end
  end.

(** [TimeRE.compile]: a stray [%] or a directive without a regex is a
    [ValueError]. *)
Definition compile (fmt : str) : option (list item) :=
  match items fmt with
  | Some its =>
      if forallb (fun it => match it with
                            | Dir dc => match directive dc with Some _ => true | None => false end
                            | _ => true
                            end) its
      then Some its else None
  | None => None
  end.

Definition is_leap (y : Z) : bool :=
  ((y mod 4 =? 0) && (negb (y mod 100 =? 0) || (y mod 400 =? 0)))%Z.

Definition days_in_month (y m : Z) : Z :=
  if (m =? 2)%Z then (if is_leap y then 29 else 28)%Z
  else if ((m =? 4) || (m =? 6) || (m =? 9) || (m =? 11))%Z then 30%Z
  else 31%Z.

(** [datetime.date(y, m, d)] is accepted. *)
Definition valid_date (y m d : Z) : bool :=
  ((1 <=? y) && (y <=? 9999) && (1 <=? m) && (m <=? 12) && (1 <=? d)
   && (d <=? days_in_month y m))%Z.

Definition int_or (dflt : Z) (o : option str) : result Z :=
  match o with Some v => Num.py_int v | None => Ok dflt end.

Definition slice (i j : nat) (s : str) : str := firstn (j - i) (skipn i s).

(** The [%z] branch of [_strptime]: the offset in microseconds. *)
Definition utc_offset (z0 : str) : result Z :=
  if str_eqb z0 (u "Z") then Ok 0%Z
  else
    z ← (if nth 3 z0 0 =? ch ":" then
           let z1 := firstn 3 z0 ++ skipn 4 z0 in
           if (5 <? length z1)%nat then
             if negb (nth 5 z1 0 =? ch ":") then Raise ValueError
             else Ok (firstn 5 z1 ++ skipn 6 z1)
           else Ok z1
         else Ok z0);
    hours ← Num.py_int (slice 1 3 z);
    minutes ← Num.py_int (slice 3 5 z);
    seconds ← (match slice 5 7 z with [] => Ok 0%Z | t => Num.py_int t end);
    let rem := skipn 8 z in
    fraction ← Num.py_int (rem ++ repeat (ch "0") (6 - length rem));
    let total := (((hours * 60 * 60) + (minutes * 60) + seconds) * 1000000 + fraction)%Z in
    Ok (if startswith (ch "-") z then - total else total)%Z.

(** [datetime.strptime(value, fmt)], for the directives [%Y %m %d %H %M %S
    %f %z]: the value is not needed, only whether the call raises. *)
Definition strptime (value fmt : str) : result unit :=
  match compile fmt with
  | None => Raise ValueError
  | Some its =>
      match regex_match its no_fields value with
      | None => Raise ValueError                   (* does not match *)
      | Some (fs, rest) =>
          if negb (length rest =? 0)%nat then Raise ValueError   (* unconverted data *)
          else
            year ← int_or 1900 (f_Y fs);
            month ← int_or 1 (f_m fs);
            day ← int_or 1 (f_d fs);
            _ ← int_or 0 (f_H fs);
            _ ← int_or 0 (f_M fs);
            second ← int_or 0 (f_S fs);
            _ ← int_or 0 (option_map (fun t => t ++ repeat (ch "0") (6 - length t)) (f_f fs));
            offset ← (match f_z fs with
                      | Some z => o ← utc_offset z; Ok (Some o)
                      | None => Ok None
                      end);
            let leap_fix :=
              match f_Y fs with None => ((month =? 2) && (day =? 29))%Z | Some _ => false end in
            if negb (valid_date (if leap_fix then 1904 else year) month day) then Raise ValueError
            else if negb (valid_date year month day) then Raise ValueError
            else if (59 <? second)%Z then Raise ValueError
            else match offset with
                 | Some o =>
                     if ((-86400000000 <? o) && (o <? 86400000000))%Z then Ok tt
                     else Raise ValueError
                 | None => Ok tt
                 end
      end
  end.

End Strptime.

(** ** [json.loads] on text *)

Module Json.

(** The decoder reads the text left to right; its position in the grammar
    is a [mode] and the containers it is inside of are a stack of frames.
    Entering a container is a recursive call of the C scanner: it raises
    [RecursionError] when the stack already holds [limit] frames. *)
Inductive frame := FArr | FObj.

Inductive string_state :=
| SChars                 (* inside the quotes *)
| SEscape                (* after a backslash *)
| SHex (n : nat).        (* in \uXXXX, [n] hex digits to come *)

Inductive number_state :=
| NMinus | NZero | NInt | NDot | NFrac | NExp | NExpSign | NExpDigits.

Inductive mode :=
| MValue (close_ok : bool)      (* a value; [close_ok]: just after '[' *)
| MKey (close_ok : bool)        (* a key; [close_ok]: just after '{' *)
| MString (key : bool) (st : string_state)
| MColon
| MNumber (st : number_state) (digits : nat)
| MWord (rest : str)            (* the rest of null, true, false, NaN, Infinity *)
| MAfter.                       (* after a value *)

Definition state := (mode * list frame)%type.

Definition is_ws (c : N) : bool :=
  (c =? 32) || (c =? 9) || (c =? 10) || (c =? 13).

(** The integer literal read so far is converted by [int()]. *)
Definition int_error (digits : nat) : exn :=
  if (Num.int_max_str_digits <? digits)%nat then ValueError else JSONDecodeError.

(** A value is complete. *)
Definition after_value (stack : list frame) : state := (MAfter, stack).

(** A character after a complete value. *)
Definition step_after (stack : list frame) (c : N) : result state :=
  if is_ws c then Ok (MAfter, stack)
  else match stack with
       | FArr :: stack' =>
           if c =? ch "]" then Ok (after_value stack')
           else if c =? ch "," then Ok (MValue false, stack)
           else Raise JSONDecodeError
       | FObj :: stack' =>
           if c =? ch "}" then Ok (after_value stack')
           else if c =? ch "," then Ok (MKey false, stack)
           else Raise JSONDecodeError
       | [] => Raise JSONDecodeError                       (* extra data *)
       end.

(** The first character of a value. *)
Definition step_value (limit : nat) (stack : list frame) (c : N) : result state :=
  if c =? dquote then Ok (MString false SChars, stack)
  else if (c =? ch "{") || (c =? ch "[") then
    if (limit <=? length stack)%nat then Raise RecursionError
    else if c =? ch "{" then Ok (MKey true, FObj :: stack)
    else Ok (MValue true, FArr :: stack)
  else if c =? ch "n" then Ok (MWord (u "ull"), stack)
  else if c =? ch "t" then Ok (MWord (u "rue"), stack)
  else if c =? ch "f" then Ok (MWord (u "alse"), stack)
  else if c =? ch "N" then Ok (MWord (u "aN"), stack)
  else if c =? ch "I" then Ok (MWord (u "nfinity"), stack)
  else if c =? ch "-" then Ok (MNumber NMinus 0, stack)
  else if c =? ch "0" then Ok (MNumber NZero 1, stack)
  else if is_09 c then Ok (MNumber NInt 1, stack)
  else Raise JSONDecodeError.

Definition step_string (key : bool) (st : string_state) (stack : list frame) (c : N)
  : result state :=
  match st with
  | SChars =>
      if c =? dquote then Ok (if key then MColon else MAfter, stack)
      else if c =? ch "\" then Ok (MString key SEscape, stack)
      else if c <=? 31 then Raise JSONDecodeError          (* control character *)
      else Ok (MString key SChars, stack)
  | SEscape =>
      if c =? ch "u" then Ok (MString key (SHex 4), stack)
      else if has_char c ((dquote :: u "\/bfnrt")) then Ok (MString key SChars, stack)
      else Raise JSONDecodeError
  | SHex n =>
      if is_hex c then
        Ok (MString key (match n with S (S n') => SHex (S n') | _ => SChars end), stack)
      else Raise JSONDecodeError
  end.

(** A character while a number is being read.  A number that cannot be
    continued ends before the character, which is then read as what
    follows a value. *)
Definition step_number (st : number_state) (digits : nat) (stack : list frame) (c : N)
  : result state :=
  let finish_int :=
    if (Num.int_max_str_digits <? digits)%nat then Raise ValueError
    else step_after stack c in
  match st with
  | NMinus =>
      if c =? ch "0" then Ok (MNumber NZero 1, stack)
      else if is_09 c then Ok (MNumber NInt 1, stack)
      else if c =? ch "I" then Ok (MWord (u "nfinity"), stack)
      else Raise JSONDecodeError
  | NZero =>
      if c =? ch "." then Ok (MNumber NDot digits, stack)
      else if (c =? ch "e") || (c =? ch "E") then Ok (MNumber NExp digits, stack)
      else finish_int
  | NInt =>
      if is_09 c then Ok (MNumber NInt (S digits), stack)
      else if c =? ch "." then Ok (MNumber NDot digits, stack)
      else if (c =? ch "e") || (c =? ch "E") then Ok (MNumber NExp digits, stack)
      else finish_int
  | NDot =>
      if is_09 c then Ok (MNumber NFrac digits, stack) else Raise (int_error digits)
  | NFrac =>
      if is_09 c then Ok (MNumber NFrac digits, stack)
      else if (c =? ch "e") || (c =? ch "E") then Ok (MNumber NExp 0, stack)
      else step_after stack c
  | NExp =>
      if is_09 c then Ok (MNumber NExpDigits digits, stack)
      else if (c =? ch "+") || (c =? ch "-") then Ok (MNumber NExpSign digits, stack)
      else Raise (int_error digits)
  | NExpSign =>
      if is_09 c then Ok (MNumber NExpDigits digits, stack) else Raise (int_error digits)
  | NExpDigits =>
      if is_09 c then Ok (MNumber NExpDigits digits, stack) else step_after stack c
  end.

Definition step (limit : nat) (st : state) (c : N) : result state :=
  let (m, stack) := st in
  match m with
  | MValue close_ok =>
      if is_ws c then Ok st
      else if close_ok && (c =? ch "]") then
        match stack with _ :: stack' => Ok (after_value stack') | [] => Raise JSONDecodeError end
      else step_value limit stack c
  | MKey close_ok =>
      if is_ws c then Ok st
      else if c =? dquote then Ok (MString true SChars, stack)
      else if close_ok && (c =? ch "}") then
        match stack with _ :: stack' => Ok (after_value stack') | [] => Raise JSONDecodeError end
      else Raise JSONDecodeError
  | MString key ss => step_string key ss stack c
  | MColon =>
      if is_ws c then Ok st
      else if c =? ch ":" then Ok (MValue false, stack)
      else Raise JSONDecodeError
  | MNumber ns digits => step_number ns digits stack c
  | MWord [] => step_after stack c
  | MWord (x :: rest) => if c =? x then Ok (MWord rest, stack) else Raise JSONDecodeError
  | MAfter => step_after stack c
  end.

Fixpoint run (limit : nat) (st : state) (s : str) : result state :=
  match s with
  | [] => Ok st
  | c :: s' => st' ← step limit st c; run limit st' s'
  end.

(** The end of the text. *)
Definition finish (st : state) : result unit :=
  match st with
  | (MAfter, []) | (MWord [], []) => Ok tt
  | (MNumber ns digits, stack) =>
      match ns with
      | NZero | NInt =>
          if (Num.int_max_str_digits <? digits)%nat then Raise ValueError
          else match stack with [] => Ok tt | _ => Raise JSONDecodeError end
      | NFrac | NExpDigits =>
          match stack with [] => Ok tt | _ => Raise JSONDecodeError end
      | NMinus => Raise JSONDecodeError
      | NDot | NExp | NExpSign => Raise (int_error digits)
      end
  | _ => Raise JSONDecodeError
  end.

(** What [json.loads] returned, as far as the sources look at it. *)
Inductive kind := KDict | KOther.

(** [json.loads(s)]. *)
Definition loads (limit : nat) (s : str) : result kind :=
  st ← run limit (MValue false, []) s;
  _ ← finish st;
  Ok (match List.filter (fun c => negb (is_ws c)) s with
      | c :: _ => if c =? ch "{" then KDict else KOther
      | [] => KOther
      end).

End Json.

(** ** [data_infer.py]: the value classifier *)

Module DataInfer.

(** A classification: (business_type, data_type). *)
Definition types := (option str * str)%type.

(** One block of [infer_types]: [Ok (Some t)] returns [t], [Ok None] falls
    through to the next block, [Raise] leaves the function. *)
Definition rule := str -> result (option types).

Definition returns (business_type : option str) (data_type : str) : result (option types) :=
  Ok (Some (business_type, data_type)).

Definition falls_through : result (option types) := Ok None.

(* 1. Boolean *)
Definition check_boolean : rule := fun value =>
  if str_in (lower value)
            [u "true"; u "false"; u "1"; u "0"; u "yes"; u "no"; u "y"; u "n"; u "t"; u "f"]
  then returns None (u "boolean") else falls_through.

(* 2. UUID *)
Definition check_uuid : rule := fun value =>
  if Re.re_match Re.uuid_pattern value then returns (Some (u "uuid")) (u "string")
  else falls_through.

(* 3. Email *)
Definition check_email : rule := fun value =>
  if Re.re_match Re.email_pattern value then returns (Some (u "email")) (u "string")
  else falls_through.

(* 4. URL *)
Definition check_url : rule := fun value =>
  if Re.re_match Re.url_pattern value then returns (Some (u "url")) (u "string")
  else falls_through.

(** [all(0 <= int(p) <= 255 for p in parts)]: [int] is not guarded. *)
Fixpoint all_octets (parts : list str) : result bool :=
  match parts with
  | [] => Ok true
  | p :: parts' =>
      n ← Num.py_int p;
      if ((0 <=? n) && (n <=? 255))%Z then all_octets parts' else Ok false
  end.

(* 5. IPv4 *)
Definition check_ipv4 : rule := fun value =>
  if Re.re_match Re.ipv4_pattern value then
    all_octets (split (ch ".") value) ≫= fun ok : bool =>
    if ok then returns (Some (u "ip_address")) (u "string") else falls_through
  else falls_through.

(* 6. IPv6 *)
Definition check_ipv6 : rule := fun value =>
  if Re.re_match Re.ipv6_pattern value then returns (Some (u "ipv6_address")) (u "string")
  else falls_through.

(* 7. MAC address *)
Definition check_mac : rule := fun value =>
  if Re.re_match Re.mac_pattern value then returns (Some (u "mac_address")) (u "string")
  else falls_through.

(* 8. Credit card: re.sub(r'[\s-]', '', value) *)
Definition check_credit_card : rule := fun value =>
  let cc_cleaned := List.filter (fun c => negb (isspace c || (c =? ch "-"))) value in
  if Re.re_match Re.cc_pattern cc_cleaned then returns (Some (u "credit_card")) (u "string")
  else falls_through.

(* 9. Phone number *)
Definition check_phone : rule := fun value =>
  if existsb (fun pattern => Re.re_match pattern value) Re.phone_patterns
  then returns (Some (u "phone_number")) (u "string") else falls_through.

Section Interpreter.

(** The number of nested containers [json.loads] may still enter before
    the interpreter's recursion limit is reached.  Only [json.loads] is
    followed to the limit: the other calls of [infer_types] are taken to
    have the frames they need. *)
Variable recursion_limit : nat.

(* 10. JSON *)
Definition check_json : rule := fun value =>
  if (startswith (ch "{") value && endswith (ch "}") value)
     || (startswith (ch "[") value && endswith (ch "]") value)
  then
    match Json.loads recursion_limit value with
    | Ok _ => returns (Some (u "json")) (u "string")
    | Raise e => if is_ValueError e then falls_through else Raise e
    end
  else falls_through.

(* 11. Array/List *)
Definition check_array : rule := fun value =>
  if has_char (ch ",") value && negb (Re.re_match Re.pair_pattern value) then
    let parts := map strip (split (ch ",") value) in
    if (1 <? length parts)%nat then returns (Some (u "array")) (u "string")
    else falls_through
  else falls_through.

(* 12. Percentage *)
Definition check_percentage : rule := fun value =>
  if endswith (ch "%") value then
    let num_part := strip (drop_last value) in
    match Num.py_float num_part with
    | Ok _ => returns (Some (u "percentage")) (u "number")
    | Raise e => if is_ValueError e then falls_through else Raise e
    end
  else falls_through.

(* 13. Currency *)
Definition check_currency : rule := fun value =>
  if Re.re_match Re.currency_pattern value then returns (Some (u "currency")) (u "string")
  else falls_through.

(* 14. Date/Time formats *)
Definition date_time_formats : list str :=
  [ u "%Y-%m-%d"; u "%Y-%m-%d %H:%M:%S"; u "%Y-%m-%dT%H:%M:%S";
    u "%Y-%m-%dT%H:%M:%S.%f"; u "%Y-%m-%dT%H:%M:%S%z"; u "%Y-%m-%dT%H:%M:%S.%f%z";
    u "%m/%d/%Y"; u "%m-%d-%Y"; u "%m/%d/%Y %H:%M:%S"; u "%d/%m/%Y"; u "%d-%m-%Y";
    u "%d/%m/%Y %H:%M:%S"; u "%Y/%m/%d"; u "%d.%m.%Y"; u "%Y.%m.%d";
    u "%H:%M:%S"; u "%H:%M" ].

(** [sub in s]. *)
Fixpoint contains (sub s : str) : bool :=
  str_eqb (firstn (length sub) s) sub
  || match s with _ :: s' => contains sub s' | [] => false end.

Fixpoint check_formats (fmts : list str) (value : str) : result (option types) :=
  match fmts with
  | [] => falls_through
  | fmt :: fmts' =>
      match Strptime.strptime value fmt with
      | Ok _ =>
          if has_char (ch "T") fmt || has_char (ch " ") fmt || contains (u "%H") fmt
          then returns (Some (u "datetime")) (u "datetime")
          else returns (Some (u "date")) (u "date")
      | Raise e => if is_ValueError e then check_formats fmts' value else Raise e
      end
  end.

Definition check_datetime : rule := check_formats date_time_formats.

(** Unix timestamp.  [datetime.fromtimestamp] accepts every value of the
    range on a POSIX platform, so only [float] can raise here. *)
Definition check_timestamp : rule := fun value =>
  match Num.py_float value with
  | Ok timestamp =>
      if Num.float_nonneg timestamp && Num.float_le_int32 timestamp 4102444800
      then returns (Some (u "timestamp")) (u "number")
      else falls_through
  | Raise e => if is_ValueError e then falls_through else Raise e
  end.

(* 15. Integer *)
Definition check_integer : rule := fun value =>
  match Num.py_int value with
  | Ok _ => returns None (u "integer")
  | Raise e => if is_ValueError e then falls_through else Raise e
  end.

(* 16. Float/Number *)
Definition check_float : rule := fun value =>
  match Num.py_float value with
  | Ok _ =>
      if has_char (ch "e") (lower value) then returns None (u "number")
      else if has_char (ch ".") value then returns None (u "float")
      else returns None (u "number")
  | Raise e => if is_ValueError e then falls_through else Raise e
  end.

(* 17. Decimal *)
Definition check_decimal : rule := fun value =>
  match Num.py_decimal value with
  | Ok _ => returns None (u "decimal")
  | Raise e =>
      match e with
      | InvalidOperation | ValueError | JSONDecodeError => falls_through
      | _ => Raise e
      end
  end.

(* 18. Postal code *)
Definition check_postal : rule := fun value =>
  if existsb (fun pattern => Re.re_match pattern value) Re.postal_patterns
  then returns (Some (u "postal_code")) (u "string") else falls_through.

(* 19. ISBN *)
Definition check_isbn : rule := fun value =>
  if Re.re_match Re.isbn_pattern value then returns (Some (u "isbn")) (u "string")
  else falls_through.

(* 20. Base64 *)
Definition check_base64 : rule := fun value =>
  if ((length value mod 4 =? 0) && Re.re_match Re.base64_pattern value
      && (20 <? length value))%nat
  then returns (Some (u "base64")) (u "string") else falls_through.

(* 21. Hex color *)
Definition check_hex_color : rule := fun value =>
  if Re.re_match Re.hex_color_pattern value then returns (Some (u "hex_color")) (u "string")
  else falls_through.

(** The blocks of [infer_types] after the null check, in source order. *)
Definition rules : list rule :=
  [ check_boolean; check_uuid; check_email; check_url; check_ipv4; check_ipv6;
    check_mac; check_credit_card; check_phone; check_json; check_array;
    check_percentage; check_currency; check_datetime; check_timestamp;
    check_integer; check_float; check_decimal; check_postal; check_isbn;
    check_base64; check_hex_color ].

(** The first block that returns decides. *)
Fixpoint first_match (rs : list rule) (value : str) : result (option types) :=
  match rs with
  | [] => falls_through
  | r :: rs' =>
      r value ≫= fun t : option types =>
      match t with
      | Some _ => Ok t
      | None => first_match rs' value
      end
  end.

(** [infer_types(value)]; [None] is Python's [None], which the tabular
    reader hands over for a missing cell. *)
Definition infer_types (value : option str) : result types :=
  match value with
  | None => Ok (None, u "null")
  | Some raw =>
      if (length raw =? 0)%nat || str_eqb (strip raw) [] then Ok (None, u "null")
      else
        let value := strip raw in
        first_match rules value ≫= fun t : option types =>
        match t with
        | Some r => Ok r
        | None => Ok (None, u "string")          (* 22. Default to string *)
        end
  end.

End Interpreter.

End DataInfer.

(** ** Schema documents *)

Module Schema.

(** An insertion-ordered Python [dict] with [str] keys. *)
Definition dict (V : Type) := list (str * V).

Fixpoint dict_get {V} (k : str) (d : dict V) : option V :=
  match d with
  | [] => None
  | (k', v) :: d' => if str_eqb k k' then Some v else dict_get k d'
  end.

(** [d[k] = v]: an existing key keeps its place, a new key goes last. *)
Fixpoint dict_set {V} (k : str) (v : V) (d : dict V) : dict V :=
  match d with
  | [] => [(k, v)]
  | (k', v') :: d' =>
      if str_eqb k k' then (k, v) :: d' else (k', v') :: dict_set k v d'
  end.

Definition dict_keys {V} (d : dict V) : list str := map fst d.

(** What the keys ["type"] and ["business_type"] hold: a tag, a list (a
    list appended to a list nests), or [None] as [dict.get] reports a
    missing key. *)
Inductive pyval :=
| VNone
| VStr (s : str)
| VList (l : list pyval).

Fixpoint pyval_eqb (a b : pyval) : bool :=
  match a, b with
  | VNone, VNone => true
  | VStr s, VStr t => str_eqb s t
  | VList l, VList m =>
      (fix all2 (l : list pyval) (m : list pyval) : bool :=
         match l, m with
         | [], [] => true
         | x :: l', y :: m' => pyval_eqb x y && all2 l' m'
         | _, _ => false
         end) l m
  | _, _ => false
  end.

(** [x in l]. *)
Definition pyval_in (x : pyval) (l : list pyval) : bool := existsb (pyval_eqb x) l.

(** Truth value: [None], [''] and [[]] are false. *)
Definition truthy (v : pyval) : bool :=
  match v with
  | VNone => false
  | VStr [] => false
  | VList [] => false
  | _ => true
  end.

(** A property schema: the keys the generators write; [None] is a key
    that is not there.  ["items": {}] is [Some empty_prop]. *)
Inductive prop :=
| Property (type : option pyval) (description : option str)
       (business_type : option pyval) (properties : option (list (str * prop)))
       (items : option prop).

Definition empty_prop : prop := Property None None None None None.

Definition p_type (p : prop) : option pyval := let 'Property t _ _ _ _ := p in t.
Definition p_description (p : prop) : option str := let 'Property _ d _ _ _ := p in d.
Definition p_business_type (p : prop) : option pyval := let 'Property _ _ b _ _ := p in b.
Definition p_properties (p : prop) : option (dict prop) := let 'Property _ _ _ ps _ := p in ps.
Definition p_items (p : prop) : option prop := let 'Property _ _ _ _ i := p in i.

(** [p.get("type")] and [p.get("business_type")]. *)
Definition get (o : option pyval) : pyval :=
  match o with Some v => v | None => VNone end.

(** [p["type"] = v] and the like. *)
Definition set_type (v : pyval) (p : prop) : prop :=
  let 'Property _ d b ps i := p in Property (Some v) d b ps i.
Definition set_business_type (v : pyval) (p : prop) : prop :=
  let 'Property t d _ ps i := p in Property t d (Some v) ps i.
Definition set_properties (ps : dict prop) (p : prop) : prop :=
  let 'Property t d b _ i := p in Property t d b (Some ps) i.
Definition set_items (i : prop) (p : prop) : prop :=
  let 'Property t d b ps _ := p in Property t d b ps (Some i).

(** The ["metadata"] of a line-delimited source. *)
Record metadata := {
  num_rows : Z;
  num_fields : nat;
  file_type : str }.

(** A schema document. *)
Record schema := {
  dollar_schema : str;                 (* "$schema" *)
  type : str;
  properties : dict prop;
  required : list str;
  meta : option metadata }.

Definition draft_07 : str := u "http://json-schema.org/draft-07/schema#".

(** A [set] of tags put in a list: [list(s)]. *)
Definition tags := gset str.

Definition list_of (s : tags) : list str := elements s.

(** [list(s)[0] if len(s) == 1 else list(s)]. *)
Definition one_or_list (s : tags) : pyval :=
  match list_of s with
  | [t] => VStr t
  | l => VList (map VStr l)
  end.

End Schema.

(** ** [csv_schema_generator.py] *)

Module Csv.
Import Schema.

(** What [csv.reader] yields for the file: the fields of each record (an
    empty list for a blank line). *)
Definition reader := list (list str).

(** [DictReader.fieldnames]: the first record. *)
Definition fieldnames (f : reader) : option (list str) :=
  match f with
  | [] => None
  | r :: _ => Some r
  end.

(** A row of [csv.DictReader]: [dict(zip(fieldnames, row))], the missing
    fields set to [restval], which is [None].  (Surplus fields go under
    the key [None], which no header equals.) *)
Definition dict_row (names row : list str) : dict (option str) :=
  let d := fold_left (fun d kv => dict_set (fst kv) (Some (snd kv)) d) (combine names row) [] in
  fold_left (fun d k => dict_set k None d) (skipn (length row) names) d.

(** The rows [DictReader] iterates over: blank records are skipped. *)
Definition rows (f : reader) : list (dict (option str)) :=
  match f with
  | [] => []
  | names :: records =>
      map (dict_row names) (List.filter (fun r => negb (length r =? 0)%nat) records)
  end.

(** [row.get(header, '')]. *)
Definition row_get (header : str) (row : dict (option str)) : option str :=
  match dict_get header row with
  | Some v => v
  | None => Some []
  end.

(** [d[k].add(t)] *)
Definition add_tag (k t : str) (d : dict tags) : dict tags :=
  match dict_get k d with
  | Some s => dict_set k ({[ t ]} ∪ s) d
  | None => d
  end.

Definition tags_of (k : str) (d : dict tags) : tags :=
  match dict_get k d with Some s => s | None => ∅ end.

Section Interpreter.

Variable recursion_limit : nat.

(** The body of [for header in headers] in the sampling loop. *)
Fixpoint scan_row (headers : list str) (row : dict (option str))
  (acc : dict tags * dict tags) : result (dict tags * dict tags) :=
  match headers with
  | [] => Ok acc
  | header :: headers' =>
      let value := row_get header row in
      DataInfer.infer_types recursion_limit value ≫= fun t : DataInfer.types =>
      let (business_type, data_type) := t in
      let column_business_types :=
        match business_type with
        | Some b => if (length b =? 0)%nat then fst acc else add_tag header b (fst acc)
        | None => fst acc
        end in
      let column_data_types := add_tag header data_type (snd acc) in
      scan_row headers' row (column_business_types, column_data_types)
  end.

(** [for row in reader], stopped by [row_count >= sample_rows]. *)
Fixpoint scan_rows (headers : list str) (rs : list (dict (option str)))
  (sample_rows row_count : Z) (acc : dict tags * dict tags)
  : result (dict tags * dict tags) :=
  match rs with
  | [] => Ok acc
  | row :: rs' =>
      if (sample_rows <=? row_count)%Z then Ok acc
      else
        scan_row headers row acc ≫= fun acc' : dict tags * dict tags =>
        scan_rows headers rs' sample_rows (row_count + 1)%Z acc'
  end.

(** ["Column: {header}"] *)
Definition column_description (header : str) : str := u "Column: " ++ header.

(** The property built for one header, and whether the header is
    appended to [required]. *)
Definition build_property (header : str) (business_types data_types : tags)
  : prop * bool :=
  let non_null_data_types := data_types ∖ {[ u "null" ]} in
  let has_null := bool_decide (u "null" ∈ data_types) in
  let '(ty, req) :=
    match list_of non_null_data_types with
    | [] => (VList [VStr (u "string"); VStr (u "null")], false)          (* all nulls *)
    | [data_type] =>
        if has_null then (VList [VStr data_type; VStr (u "null")], false)
        else (VStr data_type, true)
    | type_list =>
        (VList (map VStr (if has_null then type_list ++ [u "null"] else type_list)), false)
    end in
  let p := Property (Some ty) (Some (column_description header)) None None None in
  (if bool_decide (business_types = ∅) then p
   else set_business_type (one_or_list business_types) p, req).

(** [for header in headers] of the build phase: [properties], [required]. *)
Fixpoint build (headers : list str) (cbt cdt : dict tags)
  (acc : dict prop * list str) : dict prop * list str :=
  match headers with
  | [] => acc
  | header :: headers' =>
      let (p, req) := build_property header (tags_of header cbt) (tags_of header cdt) in
      build headers' cbt cdt
            (dict_set header p (fst acc), if req then snd acc ++ [header] else snd acc)
  end.

(** [generate_csv_schema(csv_file_path, sample_rows)]; the file is given
    by what [csv.reader] yields on it, [None] if it does not exist.  A
    file that exists is one that is opened and read without error: what
    [open] and the reader may raise on it is not followed. *)
Definition generate_csv_schema (file : option reader) (sample_rows : Z) : result schema :=
  match file with
  | None => Raise FileNotFoundError
  | Some f =>
      let headers := match fieldnames f with Some names => names | None => [] end in
      let empty := fold_left (fun d header => dict_set header (∅ : tags) d) headers [] in
      scan_rows headers (rows f) sample_rows 0 (empty, empty)
        ≫= fun sets : dict tags * dict tags =>
      let (properties, required) := build headers (fst sets) (snd sets) ([], []) in
      Ok {| dollar_schema := draft_07; type := u "object";
            properties := properties; required := required; meta := None |}
  end.

End Interpreter.

End Csv.

(** ** [jsonl_schema_generator.py] *)

Module Jsonl.
Import Schema.

(** A decoded JSON value.  A [float] is identified by the text
    [repr] gives for it. *)
Inductive json :=
| JNull
| JBool (b : bool)
| JInt (n : Z)
| JFloat (repr : str)
| JStr (s : str)
| JList (l : list json)
| JDict (d : list (str * json)).

Definition _python_type_to_json_schema_type (value : json) : str :=
  match value with
  | JNull => u "null"
  | JBool _ => u "boolean"
  | JInt _ => u "integer"
  | JFloat _ => u "number"
  | JStr _ => u "string"
  | JList _ => u "array"
  | JDict _ => u "object"
  end.

(** [str(n)] for an [int]. *)
Definition str_of_int (n : Z) : str :=
  u (DecimalString.NilZero.string_of_int (Z.to_int n)).

(** [str(value)] for a value that is neither a list nor a dict. *)
Definition py_str (value : json) : str :=
  match value with
  | JNull => u "None"
  | JBool true => u "True"
  | JBool false => u "False"
  | JInt n => str_of_int n
  | JFloat r => r
  | JStr s => s
  | _ => []
  end.

Definition hex_digit (n : N) : N :=
  if n <? 10 then ch "0" + n else ch "a" + (n - 10).

(** [\uXXXX] *)
Definition u_escape (c : N) : str :=
  u "\u" ++ [hex_digit (c / 4096 mod 16); hex_digit (c / 256 mod 16);
             hex_digit (c / 16 mod 16); hex_digit (c mod 16)].

(** One character of a string in [json.dumps], [ensure_ascii=True]. *)
Definition dumps_char (c : N) : str :=
  if c =? dquote then [ch "\"; dquote]
  else if c =? ch "\" then u "\\"
  else if c =? 10 then u "\n"
  else if c =? 13 then u "\r"
  else if c =? 9 then u "\t"
  else if c =? 8 then u "\b"
  else if c =? 12 then u "\f"
  else if in_range 32 126 c then [c]
  else if c <? 65536 then u_escape c
  else u_escape (55296 + (c - 65536) / 1024 mod 1024)
       ++ u_escape (56320 + (c - 65536) mod 1024).

Definition dumps_str (s : str) : str :=
  [dquote] ++ flat_map dumps_char s ++ [dquote].

Definition dumps_float (r : str) : str :=
  if str_eqb r (u "nan") then u "NaN"
  else if str_eqb r (u "inf") then u "Infinity"
  else if str_eqb r (u "-inf") then u "-Infinity"
  else r.

(** [json.dumps(value)] with the default separators. *)
Fixpoint dumps (value : json) : str :=
  match value with
  | JNull => u "null"
  | JBool true => u "true"
  | JBool false => u "false"
  | JInt n => str_of_int n
  | JFloat r => dumps_float r
  | JStr s => dumps_str s
  | JList l =>
      u "[" ++
      (fix items (l : list json) : str :=
         match l with
         | [] => []
         | [x] => dumps x
         | x :: l' => dumps x ++ u ", " ++ items l'
         end) l ++ u "]"
  | JDict d =>
      u "{" ++
      (fix items (d : list (str * json)) : str :=
         match d with
         | [] => []
         | [(k, x)] => dumps_str k ++ u ": " ++ dumps x
         | (k, x) :: d' => dumps_str k ++ u ": " ++ dumps x ++ u ", " ++ items d'
         end) d ++ u "}"
  end.

Definition is_container (value : json) : bool :=
  match value with JList _ | JDict _ => true | _ => false end.

(** [f"{path}.{key}" if path else key] *)
Definition join_path (path key : str) : str :=
  match path with [] => key | _ => path ++ u "." ++ key end.

(** [list(item_types - {'null'})], with ['null'] appended if it was in. *)
Definition null_last (item_types : tags) : list str :=
  let type_list := list_of (item_types ∖ {[ u "null" ]}) in
  if bool_decide (u "null" ∈ item_types) then type_list ++ [u "null"] else type_list.

Section Interpreter.

Variable recursion_limit : nat.

(** The sampling loop over the items of a non-empty array:
    (item_types, item_business_types). *)
Fixpoint scan_items (use_business_types : bool) (l : list json) (acc : tags * tags)
  : result (tags * tags) :=
  match l with
  | [] => Ok acc
  | item :: l' =>
      let item_type := _python_type_to_json_schema_type item in
      let item_types := {[ item_type ]} ∪ fst acc in
      if use_business_types then
        let item_str := if is_container item then dumps item else py_str item in
        DataInfer.infer_types recursion_limit (Some item_str) ≫= fun t : DataInfer.types =>
        let (business_type, inferred_type) := t in
        let item_business_types :=
          match business_type with
          | Some b => if (length b =? 0)%nat then snd acc else {[ b ]} ∪ snd acc
          | None => snd acc
          end in
        scan_items use_business_types l' ({[ inferred_type ]} ∪ item_types, item_business_types)
      else scan_items use_business_types l' (item_types, snd acc)
  end.

(** The body of [_process_nested_object] on a decoded object (another value
    has no fields); [sample_rows] is passed along and never read. *)
Fixpoint process_object (obj : json) (path : str) (use_business_types : bool)
  {struct obj} : result (dict prop) :=
  match obj with
  | JDict kvs =>
  (fix each (kvs : list (str * json)) (properties : dict prop) {struct kvs}
     : result (dict prop) :=
     match kvs with
     | [] => Ok properties
     | (key, value) :: kvs' =>
         let full_path := join_path path key in
         (match value with
          | JNull =>
              Ok (Property (Some (VStr (u "null"))) (Some (u "Field: " ++ full_path))
                           None None None)
          | JDict _ =>
              process_object value full_path use_business_types
                ≫= fun nested_props : dict prop =>
              Ok (Property (Some (VStr (u "object")))
                           (Some (u "Field: " ++ full_path ++ u " (nested object)"))
                           None (Some nested_props) None)
          | JList [] =>
              Ok (Property (Some (VStr (u "array")))
                           (Some (u "Field: " ++ full_path ++ u " (empty array)"))
                           None None (Some empty_prop))
          | JList ((first :: _) as l) =>
              scan_items use_business_types (firstn (Nat.min 10 (length l)) l) (∅, ∅)
                ≫= fun sets : tags * tags =>
              let (item_types, item_business_types) := sets in
              (match list_of item_types with
               | [item_type] =>
                   match first with
                   | JDict _ =>
                       if str_eqb item_type (u "object") then
                         process_object first (full_path ++ u "[]") use_business_types
                           ≫= fun nested_props : dict prop =>
                         Ok (Property (Some (VStr (u "object"))) None None
                                      (Some nested_props) None)
                       else Ok (Property (Some (VStr item_type)) None None None None)
                   | _ => Ok (Property (Some (VStr item_type)) None None None None)
                   end
               | _ =>
                   let type_list := null_last item_types in
                   Ok (Property
                         (Some (match type_list with
                                | _ :: _ :: _ => VList (map VStr type_list)
                                | t :: _ => VStr t
                                | [] => VNone         (* not reached: two tags or more *)
                                end))
                         None None None None)
               end) ≫= fun items_schema : prop =>
              let items_schema :=
                if use_business_types && negb (bool_decide (item_business_types = ∅))
                then set_business_type (one_or_list item_business_types) items_schema
                else items_schema in
              Ok (Property (Some (VStr (u "array")))
                           (Some (u "Field: " ++ full_path ++ u " (array)"))
                           None None (Some items_schema))
          | _ =>
              let json_type := _python_type_to_json_schema_type value in
              let p := Property (Some (VStr json_type)) (Some (u "Field: " ++ full_path))
                                None None None in
              if use_business_types then
                let value_str := py_str value in
                DataInfer.infer_types recursion_limit (Some value_str)
                  ≫= fun t : DataInfer.types =>
                let (business_type, inferred_type) := t in
                let p :=
                  match business_type with
                  | Some b => if (length b =? 0)%nat then p else set_business_type (VStr b) p
                  | None => p
                  end in
                Ok (if negb (str_eqb inferred_type json_type)
                       && negb (str_eqb inferred_type (u "null"))
                    then set_type (VStr inferred_type) p else p)
              else Ok p
          end) ≫= fun p : prop => each kvs' (dict_set key p properties)
     end) kvs []
  | _ => Ok []
  end.

(** [_process_nested_object(obj, path, sample_rows, use_business_types)] *)
Definition _process_nested_object (obj : list (str * json)) (path : str)
  (use_business_types : bool) : result (dict prop) :=
  process_object (JDict obj) path use_business_types.

(** *** [_merge_properties] *)

(** Lines 207-219: the union of two ["type"] values, stored in
    [existing]. *)
Definition union_types (existing : prop) (value_type : pyval) : prop :=
  let existing_type := get (p_type existing) in
  if negb (pyval_eqb existing_type value_type) then
    match existing_type, value_type with
    | VList l, _ =>
        if negb (pyval_in value_type l) then set_type (VList (l ++ [value_type])) existing
        else existing
    | _, VList l =>
        if negb (pyval_in existing_type l)
        then set_type (VList (l ++ [existing_type])) existing
        else existing
    | _, _ => set_type (VList [existing_type; value_type]) existing
    end
  else existing.

(** Lines 184-194: the same on the ["type"] of two ["items"], when both
    are there. *)
Definition union_item_types (existing_items : prop) (value_item_type : pyval) : prop :=
  let existing_item_type := get (p_type existing_items) in
  if truthy existing_item_type && truthy value_item_type
  then union_types existing_items value_item_type
  else existing_items.

(** Lines 223-237: the union of two ["business_type"] values. *)
Definition union_business_types (existing : prop) (value_business_type : pyval) : prop :=
  let existing_business_type := get (p_business_type existing) in
  if negb (pyval_eqb existing_business_type value_business_type) then
    match existing_business_type, value_business_type with
    | VList l, _ =>
        if truthy value_business_type && negb (pyval_in value_business_type l)
        then set_business_type (VList (l ++ [value_business_type])) existing
        else existing
    | _, VList l =>
        if truthy existing_business_type && negb (pyval_in existing_business_type l)
        then set_business_type (VList (l ++ [existing_business_type])) existing
        else existing
    | _, _ =>
        if truthy existing_business_type && truthy value_business_type
        then set_business_type (VList [existing_business_type; value_business_type]) existing
        else if truthy value_business_type
        then set_business_type value_business_type existing
        else existing
    end
  else existing.

Definition is_tag (t : string) (v : pyval) : bool := pyval_eqb v (VStr (u t)).

Definition or_empty (o : option (dict prop)) : dict prop :=
  match o with Some d => d | None => [] end.

Section Merge.

Variable use_business_types : bool.

(** The [else] branch of the loop body: [merged[key]] after [value] is
    merged into [existing].  The recursive calls
    [_merge_properties([existing_props, value_props])] start from an empty
    dict and first re-insert the entries of [existing_props], whose keys
    are distinct: the loop over [value_props] starts from
    [existing_props] itself (see [merge_pair] below). *)
Fixpoint merge_value (existing value : prop) {struct value} : prop :=
  let 'Property value_type _ value_business_type value_props value_items := value in
  let merge_from :=
    fix go (merged : dict prop) (prop_dict : list (str * prop)) {struct prop_dict}
      : dict prop :=
      match prop_dict with
      | [] => merged
      | (key, v) :: rest =>
          go (match dict_get key merged with
              | None => dict_set key v merged
              | Some e => dict_set key (merge_value e v) merged
              end) rest
      end in
  if is_tag "object" (get (p_type existing)) && is_tag "object" (get value_type) then
    (* nested objects *)
    let existing_props := or_empty (p_properties existing) in
    set_properties
      (match value_props with
       | Some value_props => merge_from existing_props value_props
       | None => existing_props
       end) existing
  else if is_tag "array" (get (p_type existing)) && is_tag "array" (get value_type) then
    (* arrays *)
    let existing_items := match p_items existing with Some i => i | None => empty_prop end in
    match value_items with
    | Some (Property value_item_type _ _ value_item_props _) =>
        let existing_items := union_item_types existing_items (get value_item_type) in
        let existing_items :=
          if is_tag "object" (get (p_type existing_items))
             && is_tag "object" (get value_item_type)
          then
            let existing_item_props := or_empty (p_properties existing_items) in
            set_properties
              (match value_item_props with
               | Some value_item_props => merge_from existing_item_props value_item_props
               | None => existing_item_props
               end) existing_items
          else existing_items in
        set_items existing_items existing
    | None => set_items existing_items existing
    end
  else
    (* primitives and mismatches *)
    let existing := union_types existing (get value_type) in
    if use_business_types then union_business_types existing (get value_business_type)
    else existing.

(** The body of [for prop_dict in properties_list]. *)
Definition merge_into (merged prop_dict : dict prop) : dict prop :=
  fold_left
    (fun merged kv =>
       match dict_get (fst kv) merged with
       | None => dict_set (fst kv) (snd kv) merged
       | Some existing => dict_set (fst kv) (merge_value existing (snd kv)) merged
       end)
    prop_dict merged.

(** [_merge_properties(properties_list, use_business_types)] *)
Definition _merge_properties (properties_list : list (dict prop)) : dict prop :=
  fold_left merge_into properties_list [].

End Merge.

(** *** [generate_jsonl_schema] *)

(** A line of the file: it strips to nothing, or [json.loads] returns a
    value or raises on it. *)
Inductive line :=
| Blank
| Text (decoded : result json).

(** [track_fields(d, prefix)], on the dict [all_field_presence]. *)
Fixpoint track_fields (d : json) (prefix : str) (all_field_presence : dict Z)
  {struct d} : dict Z :=
  match d with
  | JDict kvs =>
      (fix each (kvs : list (str * json)) (presence : dict Z) {struct kvs} : dict Z :=
         match kvs with
         | [] => presence
         | (key, value) :: kvs' =>
             let full_key := join_path prefix key in
             let presence :=
               dict_set full_key
                 ((match dict_get full_key presence with Some n => n | None => 0 end) + 1)%Z
                 presence in
             each kvs'
               (match value with
                | JDict _ => track_fields value full_key presence
                | JList ((JDict _ as first) :: _) =>
                    track_fields first (full_key ++ u "[]") presence
                | _ => presence
                end)
         end) kvs all_field_presence
  | _ => all_field_presence
  end.

(** The variables of the reading loop. *)
Record reading := {
  row_count : Z;
  total_rows : Z;
  object_schemas : list (dict prop);
  all_field_presence : dict Z }.

Definition start : reading :=
  {| row_count := 0; total_rows := 0; object_schemas := []; all_field_presence := [] |}.

(** [for line in f] *)
Fixpoint read_lines (lines : list line) (sample_rows : Z) (use_business_types : bool)
  (st : reading) : result reading :=
  match lines with
  | [] => Ok st
  | l :: lines' =>
      if (sample_rows <=? row_count st)%Z then Ok st                     (* break *)
      else
        match l with
        | Blank => read_lines lines' sample_rows use_business_types st   (* continue *)
        | Text (Raise e) =>
            match e with
            | JSONDecodeError => read_lines lines' sample_rows use_business_types st
            | _ => Raise e
            end
        | Text (Ok obj) =>
            let st :=
              {| row_count := row_count st; total_rows := total_rows st + 1;
                 object_schemas := object_schemas st;
                 all_field_presence := all_field_presence st |} in
            match obj with
            | JDict kvs =>
                _process_nested_object kvs [] use_business_types
                  ≫= fun obj_schema : dict prop =>
                read_lines lines' sample_rows use_business_types
                  {| row_count := row_count st + 1; total_rows := total_rows st;
                     object_schemas := object_schemas st ++ [obj_schema];
                     all_field_presence := track_fields obj [] (all_field_presence st) |}
            | _ => read_lines lines' sample_rows use_business_types st   (* not an object *)
            end
        end
  end.

(** The fields of [required]. *)
Definition required_fields (all_field_presence : dict Z) (total_rows : Z) : list str :=
  map fst
    (List.filter (fun fc => (snd fc =? total_rows)%Z && negb (has_char (ch ".") (fst fc)))
            all_field_presence).

(** [generate_jsonl_schema(jsonl_file_path, sample_rows, use_business_types)];
    the file is given by its lines, [None] if it does not exist.  A file
    that exists is one that is opened and read as text without error:
    what [open] and the iteration over the file may raise is not
    followed. *)
Definition generate_jsonl_schema (file : option (list line)) (sample_rows : Z)
  (use_business_types : bool) : result schema :=
  match file with
  | None => Raise FileNotFoundError
  | Some lines =>
      read_lines lines sample_rows use_business_types start ≫= fun st : reading =>
      match object_schemas st with
      | [] =>
          (* empty file or no valid objects *)
          Ok {| dollar_schema := draft_07; type := u "object";
                properties := []; required := []; meta := None |}
      | _ =>
          let merged_properties := _merge_properties use_business_types (object_schemas st) in
          let required := required_fields (all_field_presence st) (total_rows st) in
          Ok {| dollar_schema := draft_07; type := u "object";
                properties := merged_properties; required := required;
                meta := Some {| num_rows := total_rows st;
                                num_fields := length merged_properties;
                                file_type := u "jsonl" |} |}
      end
  end.

End Interpreter.

End Jsonl.

(** ** [schema_generator.py] *)

Module SchemaGenerator.
Import Schema.

(** A file, as the generators see it. *)
Record file := {
  present : bool;                 (* os.path.exists(file_path) *)
  suffix : str;                   (* Path(file_path).suffix *)
  stem : str;                     (* Path(file_path).stem *)
  readable : bool;                (* opening and reading raise no OSError *)
  first_bytes : list N;           (* f.read(4), binary mode *)
  last_bytes : option (list N);   (* after f.seek(-4, 2); None if seek raises *)
  first_line : str;               (* f.readline().strip(), text mode *)
  second_line : str;
  records : Csv.reader;           (* what csv.reader yields *)
  lines : list Jsonl.line }.      (* the lines and what json.loads makes of them *)

(** [s.endswith(suffix)] *)
Definition ends_with (sfx s : str) : bool :=
  str_eqb (skipn (length s - length sfx) s) sfx && (length sfx <=? length s)%nat.

Section Interpreter.

Variable recursion_limit : nat.

(** [generate_parquet_schema] reads the file through pyarrow and pandas,
    which are outside this development. *)
Variable generate_parquet_schema : file -> Z -> bool -> result schema.

(** The content-based part of [detect_file_type], inside its [try]. *)
Definition detect_by_content (f : file) : result str :=
  if str_eqb (first_bytes f) (u "PAR1")
     && match last_bytes f with
        | Some b => str_eqb b (u "PAR1")
        | None => true
        end
  then Ok (u "parquet")
  else if (length (first_line f) =? 0)%nat then Raise ValueError    (* appears to be empty *)
  else
    let cannot_determine : result str := Raise ValueError in
    let try_csv : result str :=
      if has_char (ch ",") (first_line f) then
        let parts := split (ch ",") (first_line f) in
        if (1 <? length parts)%nat then
          if negb (length (second_line f) =? 0)%nat && has_char (ch ",") (second_line f)
          then Ok (u "csv")
          else if (2 <=? length parts)%nat then Ok (u "csv")
          else cannot_determine
        else cannot_determine
      else cannot_determine in
    match Json.loads recursion_limit (first_line f) with
    | Ok Json.KDict => Ok (u "jsonl")
    | Ok Json.KOther => try_csv
    | Raise JSONDecodeError => try_csv
    | Raise e => Raise e
    end.

(** [detect_file_type(file_path)] *)
Definition detect_file_type (f : file) : result str :=
  if negb (present f) then Raise FileNotFoundError
  else
    let extension := lower (suffix f) in
    if str_in extension [u ".csv"] then Ok (u "csv")
    else if str_in extension [u ".jsonl"; u ".jsonlines"; u ".ndjson"] then Ok (u "jsonl")
    else if str_in extension [u ".parquet"; u ".parq"] then Ok (u "parquet")
    else if str_eqb extension (u ".gz")
            && existsb (fun sfx => ends_with sfx (lower (stem f)))
                       [u ".jsonl"; u ".jsonlines"; u ".ndjson"]
    then Ok (u "jsonl")
    else if negb (readable f) then Raise ValueError      (* cannot read file *)
    else detect_by_content f.

(** The file, as [open] hands it to a generator. *)
Definition opened {A} (f : file) (content : A) : option A :=
  if present f then Some content else None.

(** The first block of [generate_schema]: the file type it routes on. *)
Definition resolve_file_type (f : file) (file_type : option str) : result str :=
  match file_type with
  | None => detect_file_type f
  | Some t =>
      let t := lower t in
      if str_in t [u "csv"; u "jsonl"; u "parquet"] then Ok t else Raise ValueError
  end.

(** [generate_schema(file_path, sample_rows, use_business_types, file_type)] *)
Definition generate_schema (f : file) (sample_rows : Z) (use_business_types : bool)
  (file_type : option str) : result schema :=
  resolve_file_type f file_type ≫= fun file_type : str =>
  if str_eqb file_type (u "csv") then
    (* the CSV generator has no use_business_types parameter *)
    Csv.generate_csv_schema recursion_limit (opened f (records f)) sample_rows
  else if str_eqb file_type (u "jsonl") then
    Jsonl.generate_jsonl_schema recursion_limit (opened f (lines f)) sample_rows
                                use_business_types
  else if str_eqb file_type (u "parquet") then
    generate_parquet_schema f sample_rows use_business_types
  else Raise ValueError.

End Interpreter.

End SchemaGenerator.

(** ** [parquet_schema_generator.py]: the type mapping *)

Module Parquet.
Import Schema.

(** [s.startswith(prefix)] *)
Fixpoint starts_with (prefix s : str) : bool :=
  match prefix, s with
  | [], _ => true
  | c :: prefix', x :: s' => (x =? c) && starts_with prefix' s'
  | _ :: _, [] => false
  end.

(** [s.split(sep)[0]] *)
Definition before (sep : N) (s : str) : str := hd [] (split sep s).

Definition type_mapping : dict str :=
  [ (u "bool", u "boolean");
    (u "int8", u "integer"); (u "int16", u "integer"); (u "int32", u "integer");
    (u "int64", u "integer"); (u "uint8", u "integer"); (u "uint16", u "integer");
    (u "uint32", u "integer"); (u "uint64", u "integer");
    (u "float32", u "number"); (u "float64", u "number"); (u "double", u "number");
    (u "string", u "string"); (u "binary", u "string");
    (u "date32", u "date"); (u "date64", u "date");
    (u "timestamp", u "datetime");
    (u "time32", u "time"); (u "time64", u "time") ].

(** [_parquet_type_to_json_schema_type(parquet_type)] *)
Definition _parquet_type_to_json_schema_type (parquet_type : str) : str :=
  (* nullable types *)
  if starts_with (u "null") parquet_type || str_eqb parquet_type (u "null") then u "null"
  else
    (* the base type of a complex type *)
    let base_type := lower (before (ch "(") (before (ch "[") parquet_type)) in
    match dict_get base_type type_mapping with
    | Some t => t
    | None => u "string"
    end.

End Parquet.

(** ** [lambda_handler.py]: the download from S3 *)

Module S3.

(** [s.split(sep, 1)] *)
Fixpoint split_once (sep : N) (s : str) : list str :=
  match s with
  | [] => [[]]
  | c :: s' =>
      if c =? sep then [[]; s']
      else match split_once sep s' with
           | p :: ps => (c :: p) :: ps
           | [] => [[c]]
           end
  end.

Section Client.

(** What [s3_client.download_file] may raise. *)
Variable client_error : Type.

(** How a call of [download_from_s3] ends. *)
Inductive outcome :=
| Returns (local_path : str)
| RaisesImportError
| RaisesValueError
| RaisesClientError (e : client_error).

(** [boto3], if it can be imported: [client('s3').download_file(bucket,
    key, local_path)], which returns nothing or raises. *)
Variable boto3 : option (str -> str -> str -> option client_error).

(** [download_from_s3(s3_uri, local_path)] *)
Definition download_from_s3 (s3_uri local_path : str) : outcome :=
  match boto3 with
  | None => RaisesImportError
  | Some download_file =>
      if negb (Parquet.starts_with (u "s3://") s3_uri) then RaisesValueError
      else
        let s3_uri := skipn 5 s3_uri in
        match split_once (ch "/") s3_uri with
        | [bucket_name; key] =>
            match download_file bucket_name key local_path with
            | Some e => RaisesClientError e
            | None => Returns local_path
            end
        | _ => RaisesValueError
        end
  end.

End Client.

End S3.

(** * Scenarios and notions of the specification *)

Module Spec.
Import Schema.

(** End-to-end scenario 1: a tabular source with the header
    [name,age,email] and two rows. *)
Definition scenario_1 : Csv.reader :=
  [ [u "name"; u "age"; u "email"];
    [u "John"; u "30"; u "john@x.com"];
    [u "Jane"; u "25"; u "jane@x.com"] ].

(** End-to-end scenario 3: three records with a heterogeneous field. *)
Definition scenario_3 : list Jsonl.line :=
  [ Jsonl.Text (Ok (Jsonl.JDict [(u "value", Jsonl.JStr (u "text"))]));
    Jsonl.Text (Ok (Jsonl.JDict [(u "value", Jsonl.JInt 123)]));
    Jsonl.Text (Ok (Jsonl.JDict [(u "value", Jsonl.JFloat (u "45.67"))])) ].

(** [properties.<name>.type] and [properties.<name>.business_type] of a
    schema document. *)
Definition type_of (name : str) (s : schema) : option pyval :=
  match dict_get name (properties s) with Some p => p_type p | None => None end.

Definition business_type_of (name : str) (s : schema) : option pyval :=
  match dict_get name (properties s) with Some p => p_business_type p | None => None end.

(** A list of tags. *)
Definition tag_list (l : list str) : pyval := VList (map VStr l).

(** A tabular file [data.csv] holding scenario 1. *)
Definition data_csv : SchemaGenerator.file :=
  {| SchemaGenerator.present := true;
     SchemaGenerator.suffix := u ".csv";
     SchemaGenerator.stem := u "data";
     SchemaGenerator.readable := true;
     SchemaGenerator.first_bytes := u "name";
     SchemaGenerator.last_bytes := Some (u ".com");
     SchemaGenerator.first_line := u "name,age,email";
     SchemaGenerator.second_line := u "John,30,john@x.com";
     SchemaGenerator.records := scenario_1;
     SchemaGenerator.lines := [Jsonl.Text (Raise JSONDecodeError);
                               Jsonl.Text (Raise JSONDecodeError);
                               Jsonl.Text (Raise JSONDecodeError)] |}.

(** A run without pyarrow. *)
Definition no_pyarrow (f : SchemaGenerator.file) (sample_rows : Z) (use_business_types : bool)
  : result schema := Raise ImportError.

(** [d[name]["type"]] and [d[name]["business_type"]] in a property map. *)
Definition type_at (name : str) (d : dict prop) : option pyval :=
  match dict_get name d with Some p => p_type p | None => None end.

Definition business_type_at (name : str) (d : dict prop) : option pyval :=
  match dict_get name d with Some p => p_business_type p | None => None end.

(** A property map with the single key [x], of the given type and
    business type. *)
Definition just (ty : pyval) (bt : option pyval) : dict prop :=
  [(u "x", Property (Some ty) None bt None None)].

(** Both properties have the type [t]. *)
Definition both (t : string) (a b : prop) : bool :=
  Jsonl.is_tag t (get (p_type a)) && Jsonl.is_tag t (get (p_type b)).

(** The union of an existing and a new ["type"] value, in the shapes the
    merger is designed for: equal values, two tags, a list and a tag, a
    tag and a list that does not hold it. *)
Inductive union_of : pyval -> pyval -> pyval -> Prop :=
| union_same (v : pyval) : union_of v v v
| union_tags (s t : str) :
    s <> t -> union_of (VStr s) (VStr t) (VList [VStr s; VStr t])
| union_list_tag (l : list pyval) (t : str) :
    union_of (VList l) (VStr t)
             (VList (if pyval_in (VStr t) l then l else l ++ [VStr t]))
| union_tag_list (s : str) (l : list pyval) :
    pyval_in (VStr s) l = false ->
    union_of (VStr s) (VList l) (VList (l ++ [VStr s])).

(** A tag, if there is one, is not the empty string. *)
Definition proper (v : pyval) : Prop := v <> VStr [].

(** A line that decodes, and a line that decodes to an object. *)
Definition is_decoded (l : Jsonl.line) : bool :=
  match l with Jsonl.Text (Ok _) => true | _ => false end.

Definition is_object (l : Jsonl.line) : bool :=
  match l with Jsonl.Text (Ok (Jsonl.JDict _)) => true | _ => false end.

(** The lines a generation reads: the file up to the point where
    [sample_rows] objects have been processed ([processed] so far). *)
Fixpoint lines_read (lines : list Jsonl.line) (sample_rows processed : Z)
  : list Jsonl.line :=
  match lines with
  | [] => []
  | l :: lines' =>
      if (sample_rows <=? processed)%Z then []
      else l :: lines_read lines' sample_rows
                           (if is_object l then processed + 1 else processed)%Z
  end.

(** The records processed: the objects among the lines read. *)
Definition records_of (ls : list Jsonl.line) : list Jsonl.json :=
  flat_map (fun l => match l with
                     | Jsonl.Text (Ok (Jsonl.JDict kvs)) => [Jsonl.JDict kvs]
                     | _ => []
                     end) ls.

(** The top-level field names of a record. *)
Definition fields_of (record : Jsonl.json) : list str :=
  match record with Jsonl.JDict kvs => map fst kvs | _ => [] end.

(** A record as a Python dict has it: distinct keys; the statements on
    [required] also need them not to be the empty string. *)
Definition proper_record (record : Jsonl.json) : Prop :=
  List.NoDup (fields_of record) /\ ~ In [] (fields_of record).

(** What [track_fields] does below one field. *)
Definition track_value (value : Jsonl.json) (full_key : str) (presence : dict Z) : dict Z :=
  match value with
  | Jsonl.JDict _ => Jsonl.track_fields value full_key presence
  | Jsonl.JList ((Jsonl.JDict _ as first) :: _) =>
      Jsonl.track_fields first (full_key ++ u "[]") presence
  | _ => presence
  end.

(** [presence'] comes from [presence] by assignments to dotted keys. *)
Inductive dotted_updates : dict Z -> dict Z -> Prop :=
| dotted_none (presence : dict Z) : dotted_updates presence presence
| dotted_step (presence presence' : dict Z) (key : str) (n : Z) :
    has_char (ch ".") key = true ->
    dotted_updates (dict_set key n presence) presence' ->
    dotted_updates presence presence'.

(** The count a field has after the records are tracked. *)
Definition bump (c : Z) (o : option Z) : option Z :=
  if (0 <? c)%Z then Some (match o with Some n => n | None => 0 end + c)%Z else o.

(** The number of records that have the field. *)
Definition presence_count (k : str) (records : list Jsonl.json) : Z :=
  Z.of_nat (length (List.filter (fun r => str_in k (fields_of r)) records)).


(** The header row of a tabular source. *)
Definition headers_of (f : Csv.reader) : list str :=
  match Csv.fieldnames f with Some names => names | None => [] end.

(** The rows a tabular schema is computed from: the first [sample_rows]
    rows. *)
Definition sampled (f : Csv.reader) (sample_rows : Z) : list (dict (option str)) :=
  firstn (Z.to_nat sample_rows) (Csv.rows f).

(** The data type the classifier gives a column of a row. *)
Definition classified (recursion_limit : nat) (header : str)
  (row : dict (option str)) (data_type : str) : Prop :=
  exists business_type,
    DataInfer.infer_types recursion_limit (Csv.row_get header row)
    = Ok (business_type, data_type).

Definition has_key {V} (k : str) (d : dict V) : Prop := dict_get k d <> None.

(** A tabular source whose one column holds a word and a negative number. *)
Definition mixed_column : Csv.reader := [ [u "c"]; [u "abc"]; [u "-5"] ].


(** [n] opening brackets followed by [n] closing ones: ['[' * n + ']' * n]. *)
Definition nested (n : nat) : str := repeat (ch "[") n ++ repeat (ch "]") n.

(** A block that returns gives a data type that is not the empty text. *)
Definition tagged (r : DataInfer.rule) : Prop :=
  forall value business_type data_type,
    r value = Ok (Some (business_type, data_type)) -> data_type <> [].

(** The file types [generate_schema] routes on. *)
Definition supported : list str := [u "csv"; u "jsonl"; u "parquet"].

(** The extensions [detect_file_type] decides on without opening the
    file. *)
Definition known_extension (f : SchemaGenerator.file) : bool :=
  str_in (lower (SchemaGenerator.suffix f))
         [u ".csv"; u ".jsonl"; u ".jsonlines"; u ".ndjson"; u ".parquet"; u ".parq"].

(** A path at which there is no file. *)
Definition no_file : SchemaGenerator.file :=
  {| SchemaGenerator.present := false;
     SchemaGenerator.suffix := u ".csv";
     SchemaGenerator.stem := u "data";
     SchemaGenerator.readable := false;
     SchemaGenerator.first_bytes := [];
     SchemaGenerator.last_bytes := None;
     SchemaGenerator.first_line := [];
     SchemaGenerator.second_line := [];
     SchemaGenerator.records := [];
     SchemaGenerator.lines := [] |}.

(** A file with no extension whose first line is [n] brackets deep. *)
Definition nested_first_line (n : nat) : SchemaGenerator.file :=
  {| SchemaGenerator.present := true;
     SchemaGenerator.suffix := [];
     SchemaGenerator.stem := u "data";
     SchemaGenerator.readable := true;
     SchemaGenerator.first_bytes := firstn 4 (nested n);
     SchemaGenerator.last_bytes := Some (skipn (2 * n - 4) (nested n));
     SchemaGenerator.first_line := nested n;
     SchemaGenerator.second_line := [];
     SchemaGenerator.records := [[nested n]];
     SchemaGenerator.lines := [Jsonl.Text (Raise RecursionError)] |}.

(** What the blocks of [infer_types] return: (business type, data type). *)
Definition rule_outcomes : list DataInfer.types :=
  [ (None, u "boolean");
    (Some (u "uuid"), u "string"); (Some (u "email"), u "string");
    (Some (u "url"), u "string"); (Some (u "ip_address"), u "string");
    (Some (u "ipv6_address"), u "string"); (Some (u "mac_address"), u "string");
    (Some (u "credit_card"), u "string"); (Some (u "phone_number"), u "string");
    (Some (u "json"), u "string"); (Some (u "array"), u "string");
    (Some (u "percentage"), u "number"); (Some (u "currency"), u "string");
    (Some (u "datetime"), u "datetime"); (Some (u "date"), u "date");
    (Some (u "timestamp"), u "number");
    (None, u "integer"); (None, u "number"); (None, u "float"); (None, u "decimal");
    (Some (u "postal_code"), u "string"); (Some (u "isbn"), u "string");
    (Some (u "base64"), u "string"); (Some (u "hex_color"), u "string") ].

(** What [infer_types] returns: the above, null, and the default. *)
Definition outcomes : list DataInfer.types :=
  (None, u "null") :: rule_outcomes ++ [(None, u "string")].

(** A text on which [infer_types] returns each outcome. *)
Definition examples : list str :=
  [ u " "; u "yes";
    u "550e8400-e29b-41d4-a716-446655440000"; u "a@b.co"; u "http://x.y";
    u "10.0.0.1"; u "1:2:3:4:5:6:7:8"; u "00-1B-44-11-3A-B7";
    u "1234 5678 9012 3456"; u "+1 234 567 8900"; u "[1, 2]"; u "a, b";
    u "50%"; u "$ 100"; u "2024-01-15 10:30:00"; u "2024/01/15"; u "946684800.5";
    u "-5"; u "-1e5"; u "-0.5"; u "sNaN"; u "K1A 0B1"; u "ISBN 1234567890";
    u "SGVsbG8gV29ybGQhISEhISE="; u "#FF0000"; u "hello" ].

(** A block returns nothing but the pairs of [l]. *)
Definition within (l : list DataInfer.types) (r : DataInfer.rule) : Prop :=
  forall value t, r value = Ok (Some t) -> In t l.

(** The tags a ["type"] or ["business_type"] value holds. *)
Definition tags_in (v : pyval) : list str :=
  match v with
  | VNone => []
  | VStr t => [t]
  | VList l => flat_map (fun x => match x with VStr t => [t] | _ => [] end) l
  end.

(** Keys in the order in which they are first set. *)
Definition extend (seen l : list str) : list str :=
  fold_left (fun seen k => if str_in k seen then seen else seen ++ [k]) l seen.

(** The distinct elements of a list, in the order they first occur. *)
Definition distinct (l : list str) : list str := extend [] l.

(** The business type the classifier gives a column of a row. *)
Definition branded (recursion_limit : nat) (header : str)
  (row : dict (option str)) (business_type : str) : Prop :=
  exists data_type,
    DataInfer.infer_types recursion_limit (Csv.row_get header row)
    = Ok (Some business_type, data_type).

(** A record that is not a blank line. *)
Definition filled (record : list str) : bool := negb (length record =? 0)%nat.

(** A header row alone. *)
Definition header_only : Csv.reader := [ [u "a"; u "b"] ].

(** A second record that stops after its first cell. *)
Definition ragged : Csv.reader := [ [u "a"; u "b"]; [u "x"; u "y"]; [u "z"] ].

(** The property [_process_nested_object] computes for one field: what it
    returns on the object that has this field alone. *)
Definition field_schema (recursion_limit : nat) (path : str)
  (use_business_types : bool) (key : str) (value : Jsonl.json) : result prop :=
  Jsonl.process_object recursion_limit (Jsonl.JDict [(key, value)]) path use_business_types
    ≫= fun d : dict prop =>
  match d with
  | (_, p) :: _ => Ok p
  | [] => Ok empty_prop
  end.

(** Fields are processed one after the other; the first exception ends
    the loop. *)
Definition next_field (recursion_limit : nat) (path : str) (use_business_types : bool)
  (acc : result (dict prop)) (kv : str * Jsonl.json) : result (dict prop) :=
  acc ≫= fun properties : dict prop =>
  field_schema recursion_limit path use_business_types (fst kv) (snd kv)
    ≫= fun p : prop => Ok (dict_set (fst kv) p properties).

(** ["Field: {full_path}"] and what follows it for a container. *)
Definition description_of (path key : str) (value : Jsonl.json) : str :=
  u "Field: " ++ Jsonl.join_path path key
  ++ match value with
     | Jsonl.JDict _ => u " (nested object)"
     | Jsonl.JList [] => u " (empty array)"
     | Jsonl.JList _ => u " (array)"
     | _ => []
     end.

(** The values whose ["type"] the classifier cannot change. *)
Definition structural (use_business_types : bool) (value : Jsonl.json) : bool :=
  negb use_business_types || Jsonl.is_container value
  || match value with Jsonl.JNull => true | _ => false end.

(** The lines the reading loop passes over: blank lines, and lines on
    which [json.loads] raises [JSONDecodeError]. *)
Definition skipped (l : Jsonl.line) : bool :=
  match l with
  | Jsonl.Blank | Jsonl.Text (Raise JSONDecodeError) => true
  | _ => false
  end.

(** The keys of a property map are distinct. *)
Definition distinct_keys (d : dict prop) : Prop := List.NoDup (dict_keys d).

(** The words of the boolean block. *)
Definition boolean_words : list str :=
  [u "true"; u "false"; u "1"; u "0"; u "yes"; u "no"; u "y"; u "n"; u "t"; u "f"].

(** The JSON Schema types the Parquet mapping knows. *)
Definition parquet_json_types : list str :=
  [u "boolean"; u "integer"; u "number"; u "string"; u "date"; u "datetime"; u "time";
   u "null"].

(** A client that downloads everything. *)
Definition obliging (bucket key local_path : str) : option Empty_set := None.

(** The texts made of texts of [L]. *)
Inductive star (L : str -> Prop) : str -> Prop :=
| star_nil : star L []
| star_app (s1 s2 : str) : L s1 -> star L s2 -> star L (s1 ++ s2).

(** The language of a pattern. *)
Fixpoint lang (r : Re.re) (s : str) : Prop :=
  match r with
  | Re.Void => False
  | Re.Eps => s = []
  | Re.Chr p => exists c, s = [c] /\ p c = true
  | Re.Cat r1 r2 => exists s1 s2, s = s1 ++ s2 /\ lang r1 s1 /\ lang r2 s2
  | Re.Alt r1 r2 => lang r1 s \/ lang r2 s
  | Re.Star r1 => star (lang r1) s
  end.

(** One to three decimal digits. *)
Definition octet_text (p : str) : Prop :=
  (1 <= length p <= 3)%nat /\ Forall (fun c => isdecimal c = true) p.

(** The code points [start], ..., [start + n - 1]. *)
Definition block (start n : N) : list N :=
  map (fun i => start + N.of_nat i) (List.seq 0 (N.to_nat n)).

(** The texts the JSON block hands to [json.loads]. *)
Definition bracketed (value : str) : bool :=
  (startswith (ch "{") value && endswith (ch "}") value)
  || (startswith (ch "[") value && endswith (ch "]") value).

(** A block raises [RecursionError] only, and only when [json.loads]
    raises it on a bracketed text. *)
Definition raises_from_json (recursion_limit : nat) (r : DataInfer.rule) : Prop :=
  forall (value : str) (e : exn),
    r value = Raise e ->
    e = RecursionError /\ bracketed value = true
    /\ Json.loads recursion_limit value = Raise RecursionError.

(** A property map with the single key [x]: an object with one field, a
    string. *)
Definition object_of (field : str) : dict prop :=
  [(u "x", Property (Some (VStr (u "object"))) None None
                    (Some [(field, Property (Some (VStr (u "string"))) None None None None)])
                    None)].

(** The names of the nested properties under a key. *)
Definition nested_keys_at (name : str) (d : dict prop) : option (list str) :=
  match dict_get name d with
  | Some p => option_map dict_keys (p_properties p)
  | None => None
  end.

(** No ["business_type"] in a property, at any depth. *)
Fixpoint plain (p : prop) : bool :=
  match p with
  | Property _ _ business_type properties items =>
      match business_type with None => true | Some _ => false end
      && match properties with
         | Some d =>
             (fix all (d : list (str * prop)) : bool :=
                match d with
                | [] => true
                | (_, q) :: d' => plain q && all d'
                end) d
         | None => true
         end
      && match items with Some q => plain q | None => true end
  end.

(** No ["business_type"] in a property map, at any depth. *)
Definition all_plain (d : dict prop) : bool := forallb (fun kv => plain (snd kv)) d.

End Spec.

(** * Properties *)

(** ** Text *)

Section TextFacts.

Lemma str_eqb_eq (a b : str) : str_eqb a b = true <-> a = b.
Proof.
  revert b; induction a as [|x a IH]; intros [|y b]; simpl; split;
    try congruence; try done.
  - rewrite andb_true_iff, N.eqb_eq, IH. intros [-> ->]; reflexivity.
  - intros [= -> ->]. rewrite N.eqb_refl. simpl. apply IH; reflexivity.
Qed.

Lemma str_eqb_refl (a : str) : str_eqb a a = true.
Proof. apply str_eqb_eq; reflexivity. Qed.

Lemma str_eqb_neq (a b : str) : str_eqb a b = false <-> a <> b.
Proof.
  destruct (str_eqb a b) eqn:E.
  - apply str_eqb_eq in E. split; [discriminate | contradiction].
  - split; [|reflexivity]. intros _ ->. rewrite str_eqb_refl in E. discriminate.
Qed.

Lemma lstrip_idempotent (s : str) : lstrip (lstrip s) = lstrip s.
Proof.
  induction s as [|c s IH]; simpl; [reflexivity|].
  destruct (isspace c) eqn:E; [exact IH|]. simpl. rewrite E. reflexivity.
Qed.

Lemma lstrip_keeps (c : N) (s : str) : isspace c = false -> lstrip (c :: s) = c :: s.
Proof. intros E; simpl; rewrite E; reflexivity. Qed.

Lemma lstrip_cons (s : str) (c : N) (t : str) :
  lstrip s = c :: t -> isspace c = false.
Proof.
  induction s as [|x s IH]; simpl; [discriminate|].
  destruct (isspace x) eqn:E; [exact IH|]. intros [= <- <-]. exact E.
Qed.

(** Stripping on the left keeps a last character that is not a space. *)
Lemma lstrip_snoc (s : str) (c : N) :
  isspace c = false -> exists q, lstrip (s ++ [c]) = q ++ [c].
Proof.
  intros E. induction s as [|x s IH]; simpl.
  - rewrite E. exists []; reflexivity.
  - destruct (isspace x); [exact IH|]. exists (x :: s); reflexivity.
Qed.

Lemma strip_nil : strip [] = [].
Proof. reflexivity. Qed.

Lemma strip_idempotent (s : str) : strip (strip s) = strip s.
Proof.
  unfold strip, rstrip.
  destruct (lstrip s) as [|c t] eqn:Hs; [reflexivity|].
  pose proof (lstrip_cons _ _ _ Hs) as Hc.
  destruct (lstrip_snoc (rev t) c Hc) as [q Hq].
  change (rev (c :: t)) with (rev t ++ [c]). rewrite Hq.
  rewrite rev_app_distr.
  change (rev [c] ++ rev q) with (c :: rev q).
  rewrite (lstrip_keeps c _ Hc).
  change (rev (c :: rev q)) with (rev (rev q) ++ [c]).
  rewrite rev_involutive, <- Hq, lstrip_idempotent. rewrite Hq.
  rewrite rev_app_distr. reflexivity.
Qed.

End TextFacts.

(** ** The classifier on the literals ["0"] and ["1"] *)

Section Precedence.
Import DataInfer.

(** C9. Boolean shadowing: ["0"] and ["1"] classify as (none, boolean)
    whatever the interpreter state, although the later timestamp and
    integer blocks would both accept them. *)
Theorem boolean_shadows_numbers (recursion_limit : nat) :
  infer_types recursion_limit (Some (u "0")) = Ok (None, u "boolean")
  /\ infer_types recursion_limit (Some (u "1")) = Ok (None, u "boolean")
  /\ check_timestamp (u "0") = returns (Some (u "timestamp")) (u "number")
  /\ check_timestamp (u "1") = returns (Some (u "timestamp")) (u "number")
  /\ check_integer (u "0") = returns None (u "integer")
  /\ check_integer (u "1") = returns None (u "integer").
Proof. repeat split; vm_compute; reflexivity. Qed.

End Precedence.

(** ** Whitespace *)

Section Whitespace.
Import DataInfer.

(** C10. Classification does not see surrounding whitespace: a value and
    the value stripped of leading and trailing whitespace classify
    alike. *)
Theorem infer_types_strip (recursion_limit : nat) (v : str) :
  infer_types recursion_limit (Some v) = infer_types recursion_limit (Some (strip v)).
Proof.
  unfold infer_types.
  rewrite strip_idempotent.
  destruct (str_eqb (strip v) []) eqn:E.
  - apply str_eqb_eq in E. rewrite E. simpl. rewrite orb_true_r. reflexivity.
  - rewrite !orb_false_r.
    assert (Hv : (length v =? 0)%nat = false).
    { destruct v; [discriminate E | reflexivity]. }
    assert (Hs : (length (strip v) =? 0)%nat = false).
    { destruct (strip v); [discriminate E | reflexivity]. }
    rewrite Hv, Hs. reflexivity.
Qed.

End Whitespace.

(** ** End-to-end scenarios *)

Section Scenarios.
Import Schema Spec.

(** C3, as amended. Scenario 1: [email] carries the business type
    ["email"], [age] has the type ["number"] with the business type
    ["timestamp"] (30 and 25 lie in the Unix timestamp range, which is
    tried before the integer block), and [required] holds the three
    columns. *)
Theorem scenario_1_schema (recursion_limit : nat) :
  exists s,
    Csv.generate_csv_schema recursion_limit (Some scenario_1) 100 = Ok s
    /\ business_type_of (u "email") s = Some (VStr (u "email"))
    /\ type_of (u "age") s = Some (VStr (u "number"))
    /\ business_type_of (u "age") s = Some (VStr (u "timestamp"))
    /\ In (u "name") (required s) /\ In (u "age") (required s)
    /\ In (u "email") (required s).
Proof.
  eexists. split; [vm_compute; reflexivity|].
  vm_compute. repeat split; auto.
Qed.

(** C3, as stated, fails: the type of [age] is not ["integer"]. *)
Lemma scenario_1_age_not_integer :
  ~ exists s,
      Csv.generate_csv_schema 1000 (Some scenario_1) 100 = Ok s
      /\ business_type_of (u "email") s = Some (VStr (u "email"))
      /\ type_of (u "age") s = Some (VStr (u "integer"))
      /\ In (u "name") (required s) /\ In (u "age") (required s)
      /\ In (u "email") (required s).
Proof.
  intros (s & Hs & _ & Hage & _).
  vm_compute in Hs. injection Hs as <-. vm_compute in Hage. discriminate Hage.
Qed.

(** C2, as amended. Scenario 3 with the default arguments: the type of
    [value] is the duplicate-free list [string, number]; 123 is classified
    as a timestamp, which replaces its structural type ["integer"] by
    ["number"].  With business types off it is [string, integer, number]. *)
Theorem scenario_3_schema (recursion_limit : nat) :
  (exists s,
     Jsonl.generate_jsonl_schema recursion_limit (Some scenario_3) 100 true = Ok s
     /\ type_of (u "value") s = Some (tag_list [u "string"; u "number"])
     /\ business_type_of (u "value") s = Some (VStr (u "timestamp")))
  /\ (exists s,
        Jsonl.generate_jsonl_schema recursion_limit (Some scenario_3) 100 false = Ok s
        /\ type_of (u "value") s = Some (tag_list [u "string"; u "integer"; u "number"])).
Proof.
  split; eexists; (split; [vm_compute; reflexivity|]); vm_compute; auto.
Qed.

(** C2, as stated, fails: with the default arguments the list has no
    ["integer"]. *)
Lemma scenario_3_no_integer :
  ~ exists s l,
      Jsonl.generate_jsonl_schema 1000 (Some scenario_3) 100 true = Ok s
      /\ type_of (u "value") s = Some (VList l)
      /\ List.NoDup l
      /\ In (VStr (u "string")) l /\ In (VStr (u "integer")) l
      /\ (In (VStr (u "float")) l \/ In (VStr (u "number")) l).
Proof.
  intros (s & l & Hs & Hl & _ & _ & Hint & _).
  vm_compute in Hs. injection Hs as <-. vm_compute in Hl. injection Hl as <-.
  simpl in Hint. destruct Hint as [H|[H|[]]]; discriminate H.
Qed.

End Scenarios.

(** ** Routing *)

Section Routing.
Import Schema Spec SchemaGenerator.

Variable recursion_limit : nat.
Variable generate_parquet_schema : file -> Z -> bool -> result schema.


End Routing.


(** ** Dictionaries *)

Section DictFacts.
Import Schema.
Context {V : Type}.
Implicit Types (d : dict V) (k : str) (v : V).

Lemma dict_get_set_eq k v d : dict_get k (dict_set k v d) = Some v.
Proof.
  induction d as [|[k' v'] d IH]; simpl.
  - rewrite str_eqb_refl; reflexivity.
  - destruct (str_eqb k k') eqn:E; simpl; rewrite ?str_eqb_refl, ?E; auto.
Qed.

Lemma dict_get_set_ne k k' v d : k <> k' -> dict_get k' (dict_set k v d) = dict_get k' d.
Proof.
  intros Hne. induction d as [|[k0 v0] d IH]; simpl.
  - assert (str_eqb k' k = false) as -> by (apply str_eqb_neq; congruence). reflexivity.
  - destruct (str_eqb k k0) eqn:E; simpl.
    + apply str_eqb_eq in E; subst k0.
      assert (str_eqb k' k = false) as -> by (apply str_eqb_neq; congruence). reflexivity.
    + destruct (str_eqb k' k0); auto.
Qed.

Lemma dict_get_None k d : dict_get k d = None <-> ~ In k (dict_keys d).
Proof.
  induction d as [|[k' v'] d IH]; simpl; [tauto|].
  destruct (str_eqb k k') eqn:E.
  - apply str_eqb_eq in E; subst. split; [discriminate | intros H; exfalso; auto].
  - apply str_eqb_neq in E. rewrite IH. split; [intros H [?|?]; congruence || auto | tauto].
Qed.

Lemma dict_get_In k v d : dict_get k d = Some v -> In (k, v) d.
Proof.
  induction d as [|[k' v'] d IH]; simpl; [discriminate|].
  destruct (str_eqb k k') eqn:E.
  - apply str_eqb_eq in E; subst. intros [= ->]; auto.
  - auto.
Qed.

Lemma In_dict_get k v d : List.NoDup (dict_keys d) -> In (k, v) d -> dict_get k d = Some v.
Proof.
  induction d as [|[k' v'] d IH]; simpl; [tauto|].
  intros Hnd [[= -> ->]|Hin].
  - rewrite str_eqb_refl; reflexivity.
  - apply List.NoDup_cons_iff in Hnd as [Hk Hnd].
    destruct (str_eqb k k') eqn:E; [|auto].
    apply str_eqb_eq in E; subst. exfalso. apply Hk.
    change k' with (fst (k', v)). apply in_map. exact Hin.
Qed.

(** A new key goes last. *)
Lemma dict_set_new k v d : dict_get k d = None -> dict_set k v d = d ++ [(k, v)].
Proof.
  induction d as [|[k' v'] d IH]; simpl; [reflexivity|].
  destruct (str_eqb k k'); [discriminate|]. intros H; rewrite IH; auto.
Qed.

(** An existing key keeps its place. *)
Lemma dict_keys_set_old k v d :
  dict_get k d <> None -> dict_keys (dict_set k v d) = dict_keys d.
Proof.
  induction d as [|[k' v'] d IH]; simpl; [congruence|].
  destruct (str_eqb k k') eqn:E; simpl.
  - apply str_eqb_eq in E; subst; reflexivity.
  - intros H. f_equal. apply IH; auto.
Qed.

Lemma dict_keys_set k v d :
  dict_keys (dict_set k v d)
  = match dict_get k d with Some _ => dict_keys d | None => dict_keys d ++ [k] end.
Proof.
  destruct (dict_get k d) eqn:E.
  - apply dict_keys_set_old. congruence.
  - rewrite dict_set_new by exact E. unfold dict_keys. rewrite map_app. reflexivity.
Qed.

Lemma NoDup_dict_set k v d : List.NoDup (dict_keys d) -> List.NoDup (dict_keys (dict_set k v d)).
Proof.
  intros H. rewrite dict_keys_set. destruct (dict_get k d) eqn:E; [exact H|].
  apply dict_get_None in E.
  apply List.NoDup_app; auto.
  - constructor; [intros []|constructor].
  - intros x Hx [<-|[]]. auto.
Qed.

End DictFacts.

(** ** The merger *)

Section MergeFacts.
Import Schema Jsonl.

Variable use_business_types : bool.

Lemma merge_into_cons (merged : dict prop) (k : str) (v : prop) (rest : dict prop) :
  merge_into use_business_types merged ((k, v) :: rest)
  = merge_into use_business_types
      (match dict_get k merged with
       | None => dict_set k v merged
       | Some existing => dict_set k (merge_value use_business_types existing v) merged
       end) rest.
Proof. reflexivity. Qed.

(** The keys of the accumulator stay distinct. *)
Lemma merge_into_NoDup (prop_dict merged : dict prop) :
  List.NoDup (dict_keys merged) ->
  List.NoDup (dict_keys (merge_into use_business_types merged prop_dict)).
Proof.
  revert merged; induction prop_dict as [|[k v] rest IH]; intros merged H; [exact H|].
  rewrite merge_into_cons. apply IH.
  destruct (dict_get k merged); apply NoDup_dict_set; exact H.
Qed.

Lemma merge_properties_NoDup (properties_list : list (dict prop)) :
  List.NoDup (dict_keys (_merge_properties use_business_types properties_list)).
Proof.
  unfold _merge_properties.
  assert (H : List.NoDup (dict_keys ([] : dict prop))) by constructor.
  revert H. generalize ([] : dict prop).
  induction properties_list as [|d l IH]; intros merged H; simpl; [exact H|].
  apply IH, merge_into_NoDup, H.
Qed.

(** Entries with distinct new keys are copied in verbatim, in order. *)
Lemma merge_into_fresh (prop_dict merged : dict prop) :
  List.NoDup (dict_keys (merged ++ prop_dict)) ->
  merge_into use_business_types merged prop_dict = merged ++ prop_dict.
Proof.
  revert merged; induction prop_dict as [|[k v] rest IH]; intros merged H.
  - rewrite app_nil_r; reflexivity.
  - rewrite merge_into_cons.
    assert (Hk : dict_get k merged = None).
    { apply dict_get_None. intros Hin.
      unfold dict_keys in H. rewrite map_app in H. simpl in H.
      apply NoDup_remove_2 in H. apply H, in_or_app. left; exact Hin. }
    rewrite Hk, dict_set_new by exact Hk.
    rewrite IH; rewrite <- app_assoc; [reflexivity | exact H].
Qed.

Lemma merge_into_empty (prop_dict : dict prop) :
  List.NoDup (dict_keys prop_dict) ->
  merge_into use_business_types [] prop_dict = prop_dict.
Proof. intros H. apply (merge_into_fresh prop_dict []). exact H. Qed.

Lemma merge_properties_app (l1 l2 : list (dict prop)) :
  _merge_properties use_business_types (l1 ++ l2)
  = fold_left (merge_into use_business_types) l2 (_merge_properties use_business_types l1).
Proof. unfold _merge_properties. apply fold_left_app. Qed.

(** Merging an already merged map with further maps continues the fold. *)
Lemma merge_properties_resume (l1 l2 : list (dict prop)) :
  _merge_properties use_business_types (_merge_properties use_business_types l1 :: l2)
  = _merge_properties use_business_types (l1 ++ l2).
Proof.
  rewrite merge_properties_app. unfold _merge_properties at 1. simpl.
  rewrite merge_into_empty by apply merge_properties_NoDup. reflexivity.
Qed.

(** The loop inside [merge_value] is the loop of [_merge_properties]. *)
Lemma merge_pair (existing_props value_props : dict prop) :
  List.NoDup (dict_keys existing_props) ->
  _merge_properties use_business_types [existing_props; value_props]
  = merge_into use_business_types existing_props value_props.
Proof.
  intros H. unfold _merge_properties. simpl. rewrite merge_into_empty by exact H. reflexivity.
Qed.


(** What the merged map holds under a key of the second map. *)
Lemma merge_into_lookup (prop_dict merged : dict prop) (k : str) :
  List.NoDup (dict_keys prop_dict) ->
  dict_get k (merge_into use_business_types merged prop_dict)
  = match dict_get k prop_dict with
    | Some v =>
        Some (match dict_get k merged with
              | Some existing => merge_value use_business_types existing v
              | None => v
              end)
    | None => dict_get k merged
    end.
Proof.
  revert merged; induction prop_dict as [|[k' v] rest IH]; intros merged H; [reflexivity|].
  rewrite merge_into_cons. simpl in H. apply List.NoDup_cons_iff in H as [Hk' H].
  rewrite IH by exact H. simpl.
  destruct (str_eqb k k') eqn:E.
  - apply str_eqb_eq in E; subst k'.
    assert (dict_get k rest = None) as -> by (apply dict_get_None; exact Hk').
    destruct (dict_get k merged); rewrite dict_get_set_eq; reflexivity.
  - apply str_eqb_neq in E.
    destruct (dict_get k' merged); rewrite dict_get_set_ne by congruence; reflexivity.
Qed.

(** The branch of [merge_value] for primitives and mismatches. *)
Lemma merge_value_primitive (existing value : prop) :
  is_tag "object" (get (p_type existing)) && is_tag "object" (get (p_type value)) = false ->
  is_tag "array" (get (p_type existing)) && is_tag "array" (get (p_type value)) = false ->
  merge_value use_business_types existing value
  = if use_business_types
    then union_business_types (union_types existing (get (p_type value)))
                              (get (p_business_type value))
    else union_types existing (get (p_type value)).
Proof.
  destruct value as [vt vd vb vps vi]. simpl. intros -> ->. reflexivity.
Qed.

End MergeFacts.

Section Merger.
Import Schema Jsonl Spec.

Lemma pyval_ind' (P : pyval -> Prop) :
  P VNone -> (forall s, P (VStr s)) -> (forall l, Forall P l -> P (VList l)) ->
  forall v, P v.
Proof.
  intros HN HS HL. fix IH 1. intros [|s|l]; [exact HN | apply HS |].
  apply HL. induction l as [|x l IHl]; constructor; [apply IH | exact IHl].
Qed.

Lemma pyval_eqb_eq (a b : pyval) : pyval_eqb a b = true <-> a = b.
Proof.
  revert b. induction a as [| s | l IH] using pyval_ind'; intros [| t | m]; simpl;
    try (split; congruence).
  - rewrite str_eqb_eq. split; congruence.
  - revert m. induction IH as [|x l Hx _ IHl]; intros [|y m]; try (split; congruence).
    rewrite andb_true_iff, Hx, IHl. split.
    + intros [-> [= ->]]; reflexivity.
    + intros [= -> ->]; auto.
Qed.

Lemma pyval_eqb_refl (a : pyval) : pyval_eqb a a = true.
Proof. apply pyval_eqb_eq; reflexivity. Qed.

Lemma pyval_eqb_neq (a b : pyval) : pyval_eqb a b = false <-> a <> b.
Proof.
  destruct (pyval_eqb a b) eqn:E.
  - apply pyval_eqb_eq in E. split; [discriminate | contradiction].
  - split; [|reflexivity]. intros _ ->. rewrite pyval_eqb_refl in E. discriminate.
Qed.

Lemma truthy_tag (s : str) : s <> [] -> truthy (VStr s) = true.
Proof. destruct s; [contradiction | reflexivity]. Qed.

(** [union_types] computes the union in the designed shapes. *)
Lemma union_types_spec (existing : prop) (value_type r : pyval) :
  union_of (get (p_type existing)) value_type r ->
  get (p_type (union_types existing value_type)) = r.
Proof.
  unfold union_types. destruct existing as [[ty|] ds bt ps it]; simpl; intros H.
  - inversion H; subst; simpl.
    + rewrite pyval_eqb_refl. reflexivity.
    + assert (str_eqb s t = false) as -> by (apply str_eqb_neq; assumption). reflexivity.
    + destruct (pyval_in (VStr t) l); reflexivity.
    + rewrite H0. reflexivity.
  - inversion H; subst; reflexivity.
Qed.

(** [union_types] leaves the other keys alone. *)
Lemma union_types_business_type (existing : prop) (value_type : pyval) :
  p_business_type (union_types existing value_type) = p_business_type existing.
Proof.
  unfold union_types. destruct existing as [ty ds bt ps it]; simpl.
  destruct (pyval_eqb (get ty) value_type); simpl; [reflexivity|].
  destruct (get ty), value_type; simpl;
    repeat match goal with |- context [if ?c then _ else _] => destruct c end; reflexivity.
Qed.

Lemma union_business_types_type (existing : prop) (v : pyval) :
  p_type (union_business_types existing v) = p_type existing.
Proof.
  unfold union_business_types. destruct existing as [ty ds bt ps it]; simpl.
  destruct (pyval_eqb (get bt) v); simpl; [reflexivity|].
  destruct (get bt), v; simpl;
    repeat match goal with |- context [if ?c then _ else _] => destruct c end; reflexivity.
Qed.

(** [union_business_types] computes the same union on proper tags, adopts
    a tag when there was none, and keeps what there was when none comes. *)
Lemma union_business_types_spec (existing : prop) (v r : pyval) :
  let e := get (p_business_type existing) in
  proper e -> proper v ->
  (union_of e v r \/ (e = VNone /\ r = v /\ (exists t, v = VStr t))
   \/ (v = VNone /\ r = e)) ->
  get (p_business_type (union_business_types existing v)) = r.
Proof.
  unfold union_business_types, proper.
  destruct existing as [ty ds [bt|] ps it]; cbn [p_business_type get]; intros He Hv H.
  - destruct H as [H|[(-> & -> & t & ->)|(-> & ->)]].
    + inversion H; subst; cbn [pyval_eqb].
      * rewrite pyval_eqb_refl. reflexivity.
      * assert (str_eqb s t = false) as -> by (apply str_eqb_neq; assumption).
        rewrite !truthy_tag by congruence. reflexivity.
      * rewrite truthy_tag by congruence. destruct (pyval_in (VStr t) l); reflexivity.
      * rewrite truthy_tag by congruence. rewrite H0. reflexivity.
    + rewrite truthy_tag by congruence. reflexivity.
    + destruct bt as [|s|l]; cbn [pyval_eqb negb truthy]; rewrite ?andb_false_r; reflexivity.
  - destruct H as [H|[(_ & -> & t & ->)|(-> & ->)]].
    + inversion H; subst; reflexivity.
    + cbn [pyval_eqb negb]. rewrite truthy_tag by congruence. reflexivity.
    + reflexivity.
Qed.

(** C5, as amended. Under a key of both maps whose properties are not
    both objects and not both arrays, the merged ["type"] is the union of
    the two values in these shapes: equal values stay as they are (two
    equal tags stay one tag), two different tags give the list of both,
    a list and a tag give the list with the tag appended if absent, a tag
    and a list that does not hold it give the list with the tag appended.
    With [use_business_types] on, ["business_type"] is unioned in the
    same shapes, where a missing value on one side leaves the other; with
    it off, the business type of the first map is kept. *)
Theorem merge_type_union (use_business_types : bool) (A B : dict prop) (k : str)
  (pa pb : prop) :
  List.NoDup (dict_keys A) -> List.NoDup (dict_keys B) ->
  dict_get k A = Some pa -> dict_get k B = Some pb ->
  both "object" pa pb = false -> both "array" pa pb = false ->
  exists m,
    dict_get k (_merge_properties use_business_types [A; B]) = Some m
    /\ (forall r, union_of (get (p_type pa)) (get (p_type pb)) r -> get (p_type m) = r)
    /\ (use_business_types = true ->
        proper (get (p_business_type pa)) -> proper (get (p_business_type pb)) ->
        (forall r, union_of (get (p_business_type pa)) (get (p_business_type pb)) r ->
                   get (p_business_type m) = r)
        /\ (forall t, p_business_type pa = None -> p_business_type pb = Some (VStr t) ->
                      p_business_type m = Some (VStr t))
        /\ (p_business_type pb = None -> p_business_type m = p_business_type pa))
    /\ (use_business_types = false -> p_business_type m = p_business_type pa).
Proof.
  intros HA HB Ha Hb Hobj Harr.
  exists (merge_value use_business_types pa pb). split.
  { rewrite merge_pair by exact HA.
    rewrite merge_into_lookup by exact HB. rewrite Hb, Ha. reflexivity. }
  rewrite (merge_value_primitive _ _ _ Hobj Harr).
  destruct use_business_types; repeat split; try discriminate.
  - intros r Hr. rewrite union_business_types_type. apply union_types_spec, Hr.
  - intros r Hr. apply union_business_types_spec;
      rewrite ?union_types_business_type; auto.
  - intros t Hnone Hsome. unfold union_business_types.
    rewrite union_types_business_type, Hnone, Hsome.
    destruct t as [|c t]; [exfalso; apply H1; rewrite Hsome; reflexivity|].
    destruct (union_types pa (get (p_type pb))); reflexivity.
  - intros Hnone. unfold union_business_types.
    rewrite union_types_business_type, Hnone. simpl.
    destruct (p_business_type pa) as [[|s|l]|] eqn:E; simpl;
      rewrite ?andb_false_r, ?union_types_business_type, ?E; reflexivity.
  - intros r Hr. apply union_types_spec, Hr.
  - intros _. apply union_types_business_type.
Qed.

(** C4, as amended. The merger is a left-to-right fold: merging the
    merge of [A] and [B] with [C] is the merge of the three in one call,
    and in general a merged map followed by further maps continues the
    fold.  (Regrouping to the right is another computation.) *)
Theorem merge_left_fold (use_business_types : bool) :
  (forall A B C : dict prop,
     _merge_properties use_business_types [_merge_properties use_business_types [A; B]; C]
     = _merge_properties use_business_types [A; B; C])
  /\ (forall l1 l2 : list (dict prop),
        _merge_properties use_business_types (_merge_properties use_business_types l1 :: l2)
        = _merge_properties use_business_types (l1 ++ l2)).
Proof.
  split.
  - intros A B C. apply (merge_properties_resume use_business_types [A; B] [C]).
  - apply merge_properties_resume.
Qed.

(** C4, as stated, fails: the two groupings differ, and by more than the
    order of tags.  Nested properties are merged only when both sides are
    objects: with [x] an object with the field [p], an object with the
    field [q] and an integer, grouping to the left merges [p] and [q]
    before the integer arrives, while grouping to the right merges the
    second object with the integer first, after which its field [q] is
    not looked at again. *)
Lemma merge_not_associative :
  let A := object_of (u "p") in
  let B := object_of (u "q") in
  let C := just (VStr (u "integer")) None in
  let left := _merge_properties true [_merge_properties true [A; B]; C] in
  let right := _merge_properties true [A; _merge_properties true [B; C]] in
  left <> right
  /\ nested_keys_at (u "x") left = Some [u "p"; u "q"]
  /\ nested_keys_at (u "x") right = Some [u "p"].
Proof.
  cbv zeta. split; [|split]; [|vm_compute; reflexivity..].
  intros H. apply (f_equal (nested_keys_at (u "x"))) in H. vm_compute in H. discriminate H.
Qed.

(** C5, as stated, fails: two equal tags stay one tag, not a list; a list
    merged with a different list receives it as one nested element; a tag
    found in the list it is merged with stays alone; a list of business
    types is dropped when there was none before. *)
Lemma merge_type_union_fails :
  type_at (u "x") (_merge_properties true
                     [just (VStr (u "string")) None; just (VStr (u "string")) None])
  = Some (VStr (u "string"))
  /\ type_at (u "x") (_merge_properties true
                        [just (tag_list [u "string"; u "integer"]) None;
                         just (tag_list [u "integer"; u "number"]) None])
     = Some (VList [VStr (u "string"); VStr (u "integer");
                    tag_list [u "integer"; u "number"]])
  /\ type_at (u "x") (_merge_properties true
                        [just (VStr (u "string")) None;
                         just (tag_list [u "string"; u "integer"]) None])
     = Some (VStr (u "string"))
  /\ business_type_at (u "x")
       (_merge_properties true
          [just (VStr (u "string")) None;
           just (VStr (u "string")) (Some (tag_list [u "email"; u "url"]))])
     = None.
Proof. repeat split; vm_compute; reflexivity. Qed.

Lemma merge_type_union_witness :
  let A := just (VStr (u "string")) (Some (VStr (u "email"))) in
  let B := just (VStr (u "integer")) None in
  exists m,
    dict_get (u "x") (_merge_properties true [A; B]) = Some m
    /\ get (p_type m) = tag_list [u "string"; u "integer"]
    /\ p_business_type m = Some (VStr (u "email")).
Proof.
  cbv zeta.
  destruct (merge_type_union true
              (just (VStr (u "string")) (Some (VStr (u "email"))))
              (just (VStr (u "integer")) None) (u "x")
              (Property (Some (VStr (u "string"))) None (Some (VStr (u "email"))) None None)
              (Property (Some (VStr (u "integer"))) None None None None))
    as (m & Hm & Hty & Hbt & _).
  - repeat constructor; simpl; tauto.
  - repeat constructor; simpl; tauto.
  - reflexivity.
  - reflexivity.
  - reflexivity.
  - reflexivity.
  - exists m. split; [exact Hm|]. split.
    + apply Hty. apply union_tags. discriminate.
    + destruct Hbt as (_ & _ & Hkeep); try reflexivity; try discriminate.
      apply Hkeep. reflexivity.
Defined.
End Merger.

(** ** Reading a line-delimited source *)

Section Reading.
Import Schema Jsonl Spec.

Variable recursion_limit : nat.

Lemma read_lines_spec (use_business_types : bool) (sample_rows : Z)
  (lines : list line) (st st' : reading) :
  read_lines recursion_limit lines sample_rows use_business_types st = Ok st' ->
  let read := lines_read lines sample_rows (row_count st) in
  total_rows st' = (total_rows st + Z.of_nat (length (List.filter is_decoded read)))%Z
  /\ length (object_schemas st')
     = (length (object_schemas st) + length (records_of read))%nat
  /\ all_field_presence st'
     = fold_left (fun presence record => track_fields record [] presence)
                 (records_of read) (all_field_presence st).
Proof.
  revert st. induction lines as [|l lines IH]; intros st H; simpl in *.
  - injection H as <-. simpl. rewrite Z.add_0_r, Nat.add_0_r. auto.
  - destruct (sample_rows <=? row_count st)%Z.
    { injection H as <-. simpl. rewrite Z.add_0_r, Nat.add_0_r. auto. }
    destruct l as [|[obj|e]].
    + apply IH in H. exact H.
    + destruct obj; try (apply IH in H; simpl in H; destruct H as (H1 & H2 & H3);
        simpl; rewrite H1, H2, H3; repeat split; lia).
      simpl in H.
      destruct (_process_nested_object recursion_limit d [] use_business_types)
        as [obj_schema|e] eqn:E; simpl in H; [|discriminate].
      apply IH in H. simpl in H. destruct H as (H1 & H2 & H3).
      simpl. rewrite H1, H2, H3, length_app. simpl. repeat split; lia.
    + destruct e; try discriminate. apply IH in H. exact H.
Qed.

(** C7, as amended. A line-delimited source with at least one decoded
    object yields a [metadata] whose [num_rows] is the number of lines read
    that decoded (objects or not; blank and malformed lines do not count)
    and whose [num_fields] is the number of merged top-level properties.
    A source without any decoded object yields the empty schema, which has
    no [metadata]. *)
Theorem jsonl_metadata (use_business_types : bool) (sample_rows : Z)
  (lines : list line) (s : schema) :
  generate_jsonl_schema recursion_limit (Some lines) sample_rows use_business_types = Ok s ->
  let read := lines_read lines sample_rows 0 in
  (records_of read = [] -> meta s = None /\ properties s = [] /\ required s = [])
  /\ (records_of read <> [] ->
      exists m, meta s = Some m
                /\ num_rows m = Z.of_nat (length (List.filter is_decoded read))
                /\ num_fields m = length (properties s)
                /\ file_type m = u "jsonl").
Proof.
  unfold generate_jsonl_schema. intros H.
  destruct (read_lines recursion_limit lines sample_rows use_business_types start)
    as [st|e] eqn:E; simpl in H; [|discriminate].
  apply read_lines_spec in E. simpl in E. destruct E as (Htotal & Hlen & _).
  destruct (object_schemas st) as [|sch schs] eqn:Eo; injection H as <-; simpl; split.
  - auto.
  - intros Hne. destruct (records_of (lines_read lines sample_rows 0)); [contradiction|].
    simpl in Hlen. discriminate.
  - intros Hnil. rewrite Hnil in Hlen. simpl in Hlen. discriminate.
  - intros _. eexists. split; [reflexivity|]. simpl. rewrite Htotal. auto.
Qed.
End Reading.

Lemma jsonl_metadata_witness :
  exists s m,
    Jsonl.generate_jsonl_schema 1000 (Some Spec.scenario_3) 100 true = Ok s
    /\ Schema.meta s = Some m /\ Schema.num_rows m = 3%Z.
Proof.
  destruct (Jsonl.generate_jsonl_schema 1000 (Some Spec.scenario_3) 100 true)
    as [s|e] eqn:E; [|vm_compute in E; discriminate E].
  destruct (jsonl_metadata 1000 true 100 Spec.scenario_3 s E) as [_ H].
  destruct H as (m & Hm & Hrows & _); [discriminate|].
  exists s, m. split; [reflexivity|]. split; [exact Hm | exact Hrows].
Defined.

(** C7, as stated, fails: the schema of an empty source has no
    [metadata]. *)
Lemma jsonl_empty_source_no_metadata :
  exists s, Jsonl.generate_jsonl_schema 1000 (Some []) 100 true = Ok s
            /\ Schema.meta s = None.
Proof. eexists. split; reflexivity. Qed.

(** ** Field presence counts *)

Section Presence.
Import Schema Jsonl Spec.

Lemma track_fields_cons (key : str) (value : json) (kvs : list (str * json))
  (prefix : str) (presence : dict Z) :
  track_fields (JDict ((key, value) :: kvs)) prefix presence
  = track_fields (JDict kvs) prefix
      (track_value value (join_path prefix key)
         (dict_set (join_path prefix key)
            (match dict_get (join_path prefix key) presence with
             | Some n => n
             | None => 0
             end + 1)%Z presence)).
Proof. reflexivity. Qed.

Lemma dotted_trans (p1 p2 p3 : dict Z) :
  dotted_updates p1 p2 -> dotted_updates p2 p3 -> dotted_updates p1 p3.
Proof. induction 1; intros H'; [exact H' | econstructor; eauto]. Qed.

Lemma has_char_app (c : N) (a b : str) :
  has_char c (a ++ b) = has_char c a || has_char c b.
Proof. unfold has_char. apply existsb_app. Qed.

Lemma join_path_dotted (prefix key : str) :
  prefix <> [] -> has_char (ch ".") (join_path prefix key) = true.
Proof.
  destruct prefix as [|c prefix]; [contradiction|]. intros _. unfold join_path.
  rewrite !has_char_app. simpl. rewrite orb_true_r. reflexivity.
Qed.

Lemma json_ind' (P : json -> Prop) :
  P JNull -> (forall b, P (JBool b)) -> (forall n, P (JInt n)) ->
  (forall r, P (JFloat r)) -> (forall s, P (JStr s)) ->
  (forall l, Forall P l -> P (JList l)) ->
  (forall d, Forall (fun kv => P (snd kv)) d -> P (JDict d)) ->
  forall v, P v.
Proof.
  intros HN HB HI HF HS HL HD. fix IH 1.
  intros [ |b|n|r|s|l|d]; [exact HN | apply HB | apply HI | apply HF | apply HS | |].
  - apply HL. induction l as [|x l IHl]; constructor; [apply IH | exact IHl].
  - apply HD. induction d as [|[k x] d IHd]; constructor; [apply IH | exact IHd].
Qed.

(** Below the top level only dotted keys are counted. *)
Lemma track_fields_dotted (d : json) :
  forall (prefix : str) (presence : dict Z),
    prefix <> [] -> dotted_updates presence (track_fields d prefix presence).
Proof.
  enough (H : (forall prefix presence,
                 prefix <> [] -> dotted_updates presence (track_fields d prefix presence))
              /\ (forall first l prefix presence,
                    d = JList (first :: l) -> prefix <> [] ->
                    dotted_updates presence (track_fields first prefix presence)))
    by apply H.
  induction d as [ | | | | | l IH | kvs IH] using json_ind';
    try (split; [intros; apply dotted_none | discriminate]).
  - split; [intros; apply dotted_none|].
    intros first l' prefix presence [= ->] Hp.
    apply Forall_cons_iff in IH as [[Hfirst _] _]. apply Hfirst, Hp.
  - split; [|discriminate].
    intros prefix presence Hp. revert presence.
    induction IH as [|[key value] kvs [Hv Hl] _ IHk]; intros presence.
    + apply dotted_none.
    + rewrite track_fields_cons. eapply dotted_trans; [|apply IHk].
      eapply dotted_step; [apply join_path_dotted; exact Hp|].
      assert (Hfull : join_path prefix key <> []).
      { destruct prefix; [contradiction | discriminate]. }
      simpl in Hv, Hl.
      destruct value as [ | | | | | l | d]; try apply dotted_none.
      * destruct l as [|first l]; [apply dotted_none|].
        destruct first; try apply dotted_none.
        eapply Hl; [reflexivity|].
        destruct (join_path prefix key); [contradiction | discriminate].
      * apply Hv, Hfull.
Qed.

Lemma dotted_updates_get (p p' : dict Z) (k : str) :
  dotted_updates p p' -> has_char (ch ".") k = false -> dict_get k p' = dict_get k p.
Proof.
  induction 1 as [|p p' key n Hkey _ IH]; intros Hk; [reflexivity|].
  rewrite IH by exact Hk. apply dict_get_set_ne. intros ->. congruence.
Qed.

Lemma dotted_updates_NoDup (p p' : dict Z) :
  dotted_updates p p' -> List.NoDup (dict_keys p) -> List.NoDup (dict_keys p').
Proof. induction 1; intros Hp; [exact Hp|]. apply IHdotted_updates, NoDup_dict_set, Hp. Qed.

Lemma track_value_dotted (value : json) (full_key : str) (presence : dict Z) :
  full_key <> [] -> dotted_updates presence (track_value value full_key presence).
Proof.
  intros H. destruct value as [ | | | | | l | d]; try apply dotted_none.
  - destruct l as [|first l]; [apply dotted_none|].
    destruct first; try apply dotted_none.
    apply track_fields_dotted. destruct full_key; [contradiction | discriminate].
  - apply track_fields_dotted, H.
Qed.

Lemma str_in_In (k : str) (l : list str) : str_in k l = true <-> In k l.
Proof.
  unfold str_in. rewrite existsb_exists. split.
  - intros (x & Hx & E). apply str_eqb_eq in E. subst. exact Hx.
  - intros H. exists k. split; [exact H | apply str_eqb_refl].
Qed.

(** At the top level each field of a record is counted once. *)
Lemma track_fields_top (kvs : list (str * json)) (presence : dict Z) (k : str) :
  proper_record (JDict kvs) -> has_char (ch ".") k = false ->
  dict_get k (track_fields (JDict kvs) [] presence)
  = if str_in k (map fst kvs)
    then Some (match dict_get k presence with Some n => n | None => 0 end + 1)%Z
    else dict_get k presence.
Proof.
  intros [Hnd Hne] Hk. unfold fields_of in Hnd, Hne. revert presence.
  induction kvs as [|[key value] kvs IH]; intros presence; [reflexivity|].
  simpl in Hnd, Hne. apply List.NoDup_cons_iff in Hnd as [Hkey Hnd].
  rewrite track_fields_cons. change (join_path [] key) with key.
  rewrite IH by tauto.
  rewrite (dotted_updates_get _ _ k (track_value_dotted value key _ ltac:(intros ->; tauto)) Hk).
  simpl. destruct (str_eqb k key) eqn:E.
  - apply str_eqb_eq in E. subst key. rewrite dict_get_set_eq.
    destruct (str_in k (map fst kvs)) eqn:Ein; [|reflexivity].
    apply str_in_In in Ein. contradiction.
  - apply str_eqb_neq in E. rewrite dict_get_set_ne by congruence. reflexivity.
Qed.

Lemma track_fields_top_NoDup (record : json) (presence : dict Z) :
  proper_record record -> List.NoDup (dict_keys presence) ->
  List.NoDup (dict_keys (track_fields record [] presence)).
Proof.
  destruct record as [ | | | | | |kvs]; try (intros; assumption).
  intros [_ Hne]. unfold fields_of in Hne. revert presence.
  induction kvs as [|[key value] kvs IH]; intros presence Hp; [exact Hp|].
  rewrite track_fields_cons. change (join_path [] key) with key. simpl in Hne.
  apply IH; [tauto|].
  eapply dotted_updates_NoDup; [apply track_value_dotted; intros ->; tauto|].
  apply NoDup_dict_set, Hp.
Qed.

Lemma presence_get (records : list json) (presence : dict Z) (k : str) :
  Forall proper_record records -> has_char (ch ".") k = false ->
  dict_get k (fold_left (fun p r => track_fields r [] p) records presence)
  = bump (presence_count k records) (dict_get k presence).
Proof.
  intros Hrec Hk. revert presence.
  induction Hrec as [|r records Hr _ IH]; intros presence; [reflexivity|].
  simpl fold_left. rewrite IH.
  assert (Hone : dict_get k (track_fields r [] presence)
                 = if str_in k (fields_of r)
                   then Some (match dict_get k presence with Some n => n | None => 0 end + 1)%Z
                   else dict_get k presence).
  { destruct r; try reflexivity. apply track_fields_top; assumption. }
  rewrite Hone. unfold presence_count, bump. cbn [List.filter].
  destruct (str_in k (fields_of r)); [|reflexivity].
  cbn [length]. rewrite Nat2Z.inj_succ.
  set (c := Z.of_nat (length _)). assert (0 <= c)%Z by lia.
  destruct (Z.ltb_spec 0 c), (Z.ltb_spec 0 (Z.succ c)); try lia; f_equal; lia.
Qed.

Lemma presence_NoDup (records : list json) (presence : dict Z) :
  Forall proper_record records -> List.NoDup (dict_keys presence) ->
  List.NoDup (dict_keys (fold_left (fun p r => track_fields r [] p) records presence)).
Proof.
  intros Hrec. revert presence.
  induction Hrec as [|r records Hr _ IH]; intros presence Hp; [exact Hp|].
  simpl. apply IH, track_fields_top_NoDup; assumption.
Qed.

Lemma required_fields_In (presence : dict Z) (total : Z) (k : str) :
  List.NoDup (dict_keys presence) ->
  In k (required_fields presence total)
  <-> dict_get k presence = Some total /\ has_char (ch ".") k = false.
Proof.
  intros Hnd. unfold required_fields. rewrite in_map_iff. split.
  - intros ([k' c] & <- & Hin). apply filter_In in Hin as [Hin Hc]. simpl in *.
    apply andb_true_iff in Hc as [Hc Hdot]. apply Z.eqb_eq in Hc. subst c.
    split; [apply In_dict_get; assumption|]. destruct (has_char _ k'); [discriminate|reflexivity].
  - intros [Hget Hdot]. exists (k, total). split; [reflexivity|].
    apply filter_In. split; [apply dict_get_In, Hget|]. cbn [fst snd].
    rewrite Z.eqb_refl, Hdot. reflexivity.
Qed.

Lemma filter_length_le {A} (f : A -> bool) (l : list A) :
  (length (List.filter f l) <= length l)%nat.
Proof. induction l as [|x l IH]; simpl; [lia|]. destruct (f x); simpl; lia. Qed.

Lemma filter_length_all {A} (f : A -> bool) (l : list A) :
  length (List.filter f l) = length l <-> forall x, In x l -> f x = true.
Proof.
  induction l as [|x l IH]; simpl; [split; [intros _ ? [] | reflexivity]|].
  pose proof (filter_length_le f l).
  destruct (f x) eqn:E; simpl.
  - split.
    + intros H' y [<-|Hy]; [exact E|]. apply IH; [lia | exact Hy].
    + intros H'. f_equal. apply IH. auto.
  - split; [lia|]. intros H'. rewrite H' in E by auto. discriminate.
Qed.

Lemma records_of_length (ls : list line) :
  length (records_of ls) = length (List.filter is_object ls).
Proof.
  induction ls as [|l ls IH]; [reflexivity|].
  destruct l as [|[[ | | | | | |d]|e]]; simpl; rewrite ?IH; reflexivity.
Qed.

Lemma objects_among_decoded (ls : list line) :
  (length (List.filter is_object ls) <= length (List.filter is_decoded ls))%nat
  /\ (length (List.filter is_object ls) = length (List.filter is_decoded ls)
      <-> forall l, In l ls -> is_decoded l = true -> is_object l = true).
Proof.
  induction ls as [|l ls [IHle IH]]; simpl; [split; [lia | split; [intros _ ? [] | reflexivity]]|].
  destruct (is_object l) eqn:Eo, (is_decoded l) eqn:Ed; simpl.
  - split; [lia|]. rewrite Nat.succ_inj_wd, IH. split.
    + intros H x [<-|Hx]; auto.
    + intros H x Hx. apply H. auto.
  - destruct l as [|[[ | | | | | |d]|e]]; discriminate.
  - split; [lia|]. split; [lia|]. intros H. specialize (H l (or_introl eq_refl) Ed). congruence.
  - split; [lia|]. rewrite IH. split.
    + intros H x [<-|Hx]; [congruence | auto].
    + intros H x Hx. apply H. auto.
Qed.
End Presence.

(** ** Required fields of a line-delimited source *)

Section JsonlRequired.
Import Schema Jsonl Spec.

Variable recursion_limit : nat.

Lemma presence_count_le (k : str) (records : list json) :
  (presence_count k records <= Z.of_nat (length records))%Z.
Proof. unfold presence_count. pose proof (filter_length_le (fun r => str_in k (fields_of r)) records). lia. Qed.

(** Line-delimited sources: a field is required exactly when its name has
    no dot, it is a field of every record processed, there is such a
    record, and every line that decoded is an object. *)
Lemma jsonl_required (use_business_types : bool) (sample_rows : Z)
  (lines : list line) (s : schema) :
  generate_jsonl_schema recursion_limit (Some lines) sample_rows use_business_types = Ok s ->
  let read := lines_read lines sample_rows 0 in
  Forall proper_record (records_of read) ->
  forall k,
    In k (required s)
    <-> has_char (ch ".") k = false
        /\ records_of read <> []
        /\ (forall r, In r (records_of read) -> In k (fields_of r))
        /\ (forall l, In l read -> is_decoded l = true -> is_object l = true).
Proof.
  intros H read Hrec k. unfold generate_jsonl_schema in H.
  destruct (read_lines recursion_limit lines sample_rows use_business_types start)
    as [st|e] eqn:E; simpl in H; [|discriminate].
  apply read_lines_spec in E. simpl in E. fold read in E.
  destruct E as (Htotal & Hlen & Hpres).
  destruct (object_schemas st) as [|sch schs] eqn:Eo; injection H as <-; cbn [required].
  - assert (records_of read = []) as ->
        by (destruct (records_of read); [reflexivity | discriminate]).
    split; [intros [] | intros (_ & Hne & _); congruence].
  - assert (Hne : records_of read <> []) by (intros Hnil; rewrite Hnil in Hlen; discriminate).
    rewrite required_fields_In
      by (rewrite Hpres; apply presence_NoDup; [exact Hrec | constructor]).
    rewrite Hpres, Htotal.
    destruct (has_char (ch ".") k) eqn:Hdot.
    { split; [intros [_ ?]; discriminate | intros [? _]; congruence]. }
    rewrite presence_get by assumption. unfold bump. simpl dict_get.
    pose proof (presence_count_le k (records_of read)) as Hle.
    pose proof (objects_among_decoded read) as [Hod Hall].
    pose proof (filter_length_all (fun r => str_in k (fields_of r)) (records_of read)) as Hk.
    rewrite records_of_length in Hle.
    assert (Hpos : (0 < length (records_of read))%nat)
      by (destruct (records_of read); [congruence | simpl; lia]).
    unfold presence_count in *.
    set (c := length (List.filter (fun r => str_in k (fields_of r)) (records_of read))) in *.
    split.
    + intros [Hc _]. destruct (Z.ltb_spec 0 (Z.of_nat c)); [|discriminate].
      injection Hc as Hc.
      assert (Hc1 : c = length (records_of read)) by (rewrite records_of_length; lia).
      repeat split; auto.
      * intros r Hr. apply str_in_In. apply Hk; [exact Hc1 | exact Hr].
      * apply Hall. rewrite records_of_length in Hc1. lia.
    + intros (_ & _ & Hfields & Hobj). split; [|reflexivity].
      assert (Hc1 : c = length (records_of read)).
      { apply Hk. intros r Hr. apply str_in_In, Hfields, Hr. }
      apply Hall in Hobj. rewrite records_of_length in Hc1, Hpos.
      destruct (Z.ltb_spec 0 (Z.of_nat c)); [f_equal; lia | lia].
Qed.
End JsonlRequired.

(** ** Required columns of a tabular source *)

Section CsvFacts.
Import Schema Csv Spec.

Variable recursion_limit : nat.

Lemma has_key_set {V} (k h : str) (v : V) (d : dict V) :
  has_key k (dict_set h v d) <-> k = h \/ has_key k d.
Proof.
  unfold has_key. destruct (decide (h = k)) as [->|Hne].
  - rewrite dict_get_set_eq. split; [auto | discriminate].
  - rewrite dict_get_set_ne by exact Hne. split; [auto | intros [->|H]; [contradiction | exact H]].
Qed.

Lemma has_key_add_tag (k h t : str) (d : dict tags) :
  has_key k (add_tag h t d) <-> has_key k d.
Proof.
  unfold add_tag. destruct (dict_get h d) as [s|] eqn:E; [|tauto].
  rewrite has_key_set. split; [intros [->|H]; [unfold has_key; congruence | exact H] | auto].
Qed.

Lemma tags_of_add_tag (k h t : str) (d : dict tags) :
  has_key h d ->
  forall x, x ∈ tags_of k (add_tag h t d) <-> (k = h /\ x = t) \/ x ∈ tags_of k d.
Proof.
  unfold has_key, add_tag, tags_of. intros Hh x.
  destruct (dict_get h d) as [s|] eqn:E; [|congruence].
  destruct (decide (h = k)) as [->|Hne].
  - rewrite dict_get_set_eq, E, elem_of_union, elem_of_singleton.
    split; [intros [->|H]; auto | intros [[_ ->]|H]; auto].
  - rewrite dict_get_set_ne by exact Hne. split; [auto | intros [[-> _]|H]; [contradiction | exact H]].
Qed.

Lemma scan_row_data (headers : list str) (row : dict (option str))
  (acc acc' : dict tags * dict tags) :
  scan_row recursion_limit headers row acc = Ok acc' ->
  (forall h, In h headers -> has_key h (snd acc)) ->
  (forall k, has_key k (snd acc') <-> has_key k (snd acc))
  /\ (forall k t, t ∈ tags_of k (snd acc')
                  <-> t ∈ tags_of k (snd acc)
                      \/ (In k headers /\ classified recursion_limit k row t))
  /\ (forall h, In h headers -> exists t, classified recursion_limit h row t).
Proof.
  revert acc. induction headers as [|h headers IH]; intros acc H Hkeys.
  - injection H as <-. split; [tauto|]. split; [|intros _ []].
    intros k t. split; [auto | intros [H|[[] _]]; exact H].
  - cbn [scan_row] in H.
    destruct (DataInfer.infer_types recursion_limit (row_get h row)) as [[bt dt]|e] eqn:E;
      [|discriminate]. cbn in H.
    apply IH in H; cbn [snd] in *.
    + destruct H as (Hk & Ht & Hok). split; [|split].
      * intros k. rewrite Hk. apply has_key_add_tag.
      * intros k t. rewrite Ht, tags_of_add_tag by (apply Hkeys; left; reflexivity).
        split.
        -- intros [[[-> ->]|H]|[Hin Hc]]; auto.
           ++ right. split; [left; reflexivity | exists bt; exact E].
           ++ right. split; [right; exact Hin | exact Hc].
        -- intros [H|[[<-|Hin] Hc]]; auto.
           destruct Hc as [bt' Hc]. rewrite E in Hc. injection Hc as _ <-. auto.
      * intros h' [<-|Hin]; [exists dt, bt; exact E | auto].
    + intros h' Hin. apply has_key_add_tag, Hkeys. right; exact Hin.
Qed.

Lemma scan_rows_data (headers : list str) (rs : list (dict (option str)))
  (sample_rows row_count : Z) (acc acc' : dict tags * dict tags) :
  scan_rows recursion_limit headers rs sample_rows row_count acc = Ok acc' ->
  (forall h, In h headers -> has_key h (snd acc)) ->
  let sample := firstn (Z.to_nat (sample_rows - row_count)) rs in
  (forall k t, t ∈ tags_of k (snd acc')
               <-> t ∈ tags_of k (snd acc)
                   \/ (In k headers
                       /\ exists row, In row sample /\ classified recursion_limit k row t))
  /\ (forall h row, In h headers -> In row sample ->
        exists t, classified recursion_limit h row t).
Proof.
  revert row_count acc. induction rs as [|row rs IH]; intros row_count acc H Hkeys sample.
  - injection H as <-. subst sample. rewrite firstn_nil. split.
    + intros k t. split; [auto | intros [H|(_ & ? & [] & _)]; exact H].
    + intros ? ? _ [].
  - cbn [scan_rows] in H. destruct (Z.leb_spec sample_rows row_count) as [Hle|Hlt].
    + injection H as <-. subst sample.
      replace (Z.to_nat (sample_rows - row_count)) with 0%nat by lia. split.
      * intros k t. split; [auto | intros [H|(_ & ? & [] & _)]; exact H].
      * intros ? ? _ [].
    + destruct (scan_row recursion_limit headers row acc) as [acc1|e] eqn:E; [|discriminate].
      cbn in H. apply scan_row_data in E as (Hk & Ht & Hok); [|exact Hkeys].
      apply IH in H as [Hts Hoks]; [|intros h Hin; apply Hk, Hkeys, Hin].
      subst sample.
      replace (Z.to_nat (sample_rows - row_count))
        with (S (Z.to_nat (sample_rows - (row_count + 1)))) by lia.
      cbn [firstn]. split.
      * intros k t. rewrite Hts, Ht. split.
        -- intros [[H|[Hin Hc]]|(Hin & r & Hr & Hc)]; auto.
           ++ right. split; [exact Hin | exists row; split; [left; reflexivity | exact Hc]].
           ++ right. split; [exact Hin | exists r; split; [right; exact Hr | exact Hc]].
        -- intros [H|(Hin & r & [<-|Hr] & Hc)]; auto.
           right. split; [exact Hin | exists r; auto].
      * intros h r Hin [<-|Hr]; [apply Hok, Hin | apply Hoks; assumption].
Qed.

Lemma has_key_empty {V} (v : V) (headers : list str) (d : dict V) (k : str) :
  has_key k (fold_left (fun d header => dict_set header v d) headers d)
  <-> In k headers \/ has_key k d.
Proof.
  revert d. induction headers as [|h headers IH]; intros d; simpl.
  - split; [auto | intros [[]|H]; exact H].
  - rewrite IH, has_key_set. split; [intros [?|[->|?]]; auto | intros [[->|?]|?]; auto].
Qed.

Lemma tags_of_empty (headers : list str) (d : dict tags) (k : str) :
  tags_of k d = ∅ ->
  tags_of k (fold_left (fun d header => dict_set header (∅ : tags) d) headers d) = ∅.
Proof.
  revert d. induction headers as [|h headers IH]; intros d Hd; simpl; [exact Hd|].
  apply IH. unfold tags_of in *. destruct (decide (h = k)) as [->|Hne].
  - rewrite dict_get_set_eq. reflexivity.
  - rewrite dict_get_set_ne by exact Hne. exact Hd.
Qed.

Lemma build_required (headers : list str) (cbt cdt : dict tags)
  (acc : dict prop * list str) (h : str) :
  In h (snd (build headers cbt cdt acc))
  <-> In h (snd acc)
      \/ (In h headers
          /\ snd (build_property h (tags_of h cbt) (tags_of h cdt)) = true).
Proof.
  revert acc. induction headers as [|h' headers IH]; intros acc; cbn [build].
  - split; [auto | intros [H|[[] _]]; exact H].
  - destruct (build_property h' (tags_of h' cbt) (tags_of h' cdt)) as [p req] eqn:E.
    rewrite IH. cbn [snd]. destruct req.
    + rewrite in_app_iff. cbn [In]. split.
      * intros [[H|[<-|[]]]|[Hin Hb]]; [left; exact H | |right; split; [right; exact Hin | exact Hb]].
        right. split; [left; reflexivity | rewrite E; reflexivity].
      * intros [H|[[<-|Hin] Hb]]; [left; left; exact H | left; right; left; reflexivity |].
        right. split; assumption.
    + split.
      * intros [H|[Hin Hb]]; [left; exact H | right; split; [right; exact Hin | exact Hb]].
      * intros [H|[[<-|Hin] Hb]]; [left; exact H | | right; split; assumption].
        rewrite E in Hb. discriminate.
Qed.

Lemma build_property_required (h : str) (business_types data_types : tags) :
  snd (build_property h business_types data_types) = true
  <-> exists data_type, data_type <> u "null" /\ data_types = {[ data_type ]}.
Proof.
  unfold build_property.
  destruct (list_of (data_types ∖ {[ u "null" ]})) as [|dt [|dt' l]] eqn:E; cbn [snd].
  - split; [discriminate|]. intros (dt & Hne & ->). exfalso.
    assert (Hin : dt ∈ list_of ({[ dt ]} ∖ {[ u "null" ]} : tags))
      by (apply elem_of_elements; set_solver).
    rewrite E in Hin. inversion Hin.
  - assert (Hdt : forall t, t ∈ data_types ∖ {[ u "null" ]} <-> t = dt).
    { intros t. unfold list_of in E. rewrite <- elem_of_elements, E, list_elem_of_singleton.
      reflexivity. }
    destruct (bool_decide (u "null" ∈ data_types)) eqn:Hnull; cbn [snd].
    + apply bool_decide_eq_true in Hnull. split; [discriminate|].
      intros (dt0 & Hne & ->). apply elem_of_singleton in Hnull. congruence.
    + apply bool_decide_eq_false in Hnull. split; [|reflexivity]. intros _.
      exists dt. split.
      * intros ->. assert (Hx : u "null" ∈ data_types ∖ {[ u "null" ]}) by (apply Hdt; reflexivity).
        apply elem_of_difference in Hx as [_ Hx]. apply Hx, elem_of_singleton. reflexivity.
      * apply set_eq. intros t. rewrite elem_of_singleton, <- Hdt.
        rewrite elem_of_difference, elem_of_singleton.
        split; [intros Ht; split; [exact Ht | intros ->; contradiction] | tauto].
  - split; [discriminate|]. intros (dt0 & Hne & ->). exfalso.
    assert (Heq : ({[ dt0 ]} ∖ {[ u "null" ]} : tags) = {[ dt0 ]}).
    { apply set_eq. intros t. rewrite elem_of_difference, !elem_of_singleton.
      split; [tauto | intros ->; auto]. }
    unfold list_of in E. rewrite Heq, elements_singleton in E. discriminate.
Qed.

(** Tabular sources: a header is required exactly when some row was
    sampled and every sampled row gives the column one same data type
    that is not null. *)
Lemma csv_required (f : reader) (sample_rows : Z) (s : schema) :
  generate_csv_schema recursion_limit (Some f) sample_rows = Ok s ->
  forall h,
    In h (required s)
    <-> In h (headers_of f)
        /\ exists data_type,
             data_type <> u "null"
             /\ sampled f sample_rows <> []
             /\ forall row, In row (sampled f sample_rows) ->
                  classified recursion_limit h row data_type.
Proof.
  unfold generate_csv_schema. fold (headers_of f). intros H h.
  set (empty := fold_left (fun d header => dict_set header (∅ : tags) d) (headers_of f) []) in H.
  destruct (scan_rows recursion_limit (headers_of f) (rows f) sample_rows 0 (empty, empty))
    as [sets|e] eqn:E; [|discriminate].
  cbn in H.
  destruct (build (headers_of f) (fst sets) (snd sets) ([], [])) as [ps req] eqn:Eb.
  injection H as <-. cbn [required].
  change req with (snd (ps, req)). rewrite <- Eb, build_required. cbn [snd In].
  apply scan_rows_data in E as [Ht Hok];
    [|intros k Hk; apply has_key_empty; left; exact Hk].
  rewrite Z.sub_0_r in Ht, Hok. fold (sampled f sample_rows) in Ht, Hok. cbn [snd] in Ht.
  assert (Hts : forall k t, t ∈ tags_of k (snd sets)
                  <-> In k (headers_of f)
                      /\ exists row, In row (sampled f sample_rows)
                                     /\ classified recursion_limit k row t).
  { intros k t. rewrite Ht. unfold empty at 1. rewrite tags_of_empty by reflexivity.
    split; [intros [H|H]; [inversion H | exact H] | auto]. }
  clear Ht. rewrite build_property_required. split.
  - intros [[]|[Hin (dt & Hne & Hdt)]]. split; [exact Hin|]. exists dt.
    assert (Hdt' : forall t, t ∈ tags_of h (snd sets) <-> t = dt)
      by (intros t; rewrite Hdt; apply elem_of_singleton).
    split; [exact Hne|]. split.
    + pose proof (proj2 (Hdt' dt) eq_refl) as Hx.
      apply Hts in Hx as (_ & row & Hrow & _).
      intros Hnil. rewrite Hnil in Hrow. destruct Hrow.
    + intros row Hrow. destruct (Hok h row Hin Hrow) as [t Hc].
      assert (t = dt) as <-; [|exact Hc].
      apply Hdt', Hts. split; [exact Hin | exists row; auto].
  - intros (Hin & dt & Hne & Hsome & Hall). right. split; [exact Hin|].
    exists dt. split; [exact Hne|]. apply set_eq. intros t.
    rewrite elem_of_singleton, Hts. split.
    + intros (_ & row & Hrow & [bt Hc]). destruct (Hall row Hrow) as [bt' Hc'].
      rewrite Hc in Hc'. congruence.
    + intros ->. split; [exact Hin|].
      destruct (sampled f sample_rows) as [|row l]; [congruence|].
      exists row. split; [left; reflexivity | apply Hall; left; reflexivity].
Qed.
End CsvFacts.

(** ** Required fields *)

Section Required.
Import Schema Csv Jsonl Spec.

(** C1, amended.  The [required] list is characterised exactly.  Tabular
    source: a header is required iff at least one row was sampled and all
    sampled rows classify its value to one same data type, which is not
    null.  Line-delimited source whose records have distinct, non-empty
    keys: a name is required iff it has no dot, some object record was
    processed, every processed object record has it as a top-level key,
    and every line that decoded is an object. *)
Theorem required_fields_exact (recursion_limit : nat) :
  (forall (f : reader) (sample_rows : Z) (s : schema),
     generate_csv_schema recursion_limit (Some f) sample_rows = Ok s ->
     forall h,
       In h (required s)
       <-> In h (headers_of f)
           /\ exists data_type,
                data_type <> u "null"
                /\ sampled f sample_rows <> []
                /\ forall row, In row (sampled f sample_rows) ->
                     classified recursion_limit h row data_type)
  /\ (forall (use_business_types : bool) (sample_rows : Z) (lines : list line) (s : schema),
        generate_jsonl_schema recursion_limit (Some lines) sample_rows use_business_types = Ok s ->
        let read := lines_read lines sample_rows 0 in
        Forall proper_record (records_of read) ->
        forall k,
          In k (required s)
          <-> has_char (ch ".") k = false
              /\ records_of read <> []
              /\ (forall r, In r (records_of read) -> In k (fields_of r))
              /\ (forall l, In l read -> is_decoded l = true -> is_object l = true)).
Proof.
  split.
  - apply csv_required.
  - apply jsonl_required.
Qed.

Lemma required_fields_exact_witness :
  exists s s',
    generate_csv_schema 1000 (Some scenario_1) 100 = Ok s
    /\ generate_jsonl_schema 1000 (Some scenario_3) 100 true = Ok s'
    /\ (In (u "email") (required s)
        <-> In (u "email") (headers_of scenario_1)
            /\ exists data_type,
                 data_type <> u "null"
                 /\ sampled scenario_1 100 <> []
                 /\ forall row, In row (sampled scenario_1 100) ->
                      classified 1000 (u "email") row data_type)
    /\ (In (u "value") (required s')
        <-> has_char (ch ".") (u "value") = false
            /\ records_of (lines_read scenario_3 100 0) <> []
            /\ (forall r, In r (records_of (lines_read scenario_3 100 0)) ->
                  In (u "value") (fields_of r))
            /\ (forall l, In l (lines_read scenario_3 100 0) ->
                  is_decoded l = true -> is_object l = true)).
Proof.
  destruct (generate_csv_schema 1000 (Some scenario_1) 100) as [s|e] eqn:E;
    [|vm_compute in E; discriminate E].
  destruct (generate_jsonl_schema 1000 (Some scenario_3) 100 true) as [s'|e] eqn:E';
    [|vm_compute in E'; discriminate E'].
  exists s, s'. split; [reflexivity|]. split; [reflexivity|]. split.
  - apply (proj1 (required_fields_exact 1000) scenario_1 100%Z s E).
  - apply (proj2 (required_fields_exact 1000) true 100%Z scenario_3 s' E').
    repeat constructor; simpl; intuition discriminate.
Defined.

(** C1, as stated, fails on a tabular column that is non-null in every
    sampled row but of two data types: it is left out of [required]. *)
Lemma mixed_column_not_required :
  exists s,
    generate_csv_schema 1000 (Some mixed_column) 100 = Ok s
    /\ (forall row, In row (sampled mixed_column 100) ->
          exists data_type, classified 1000 (u "c") row data_type
                            /\ data_type <> u "null")
    /\ ~ In (u "c") (required s).
Proof.
  eexists. split; [vm_compute; reflexivity|]. split.
  - intros row [<-|[<-|[]]].
    + exists (u "string"). split; [exists None; vm_compute; reflexivity | discriminate].
    + exists (u "integer"). split; [exists None; vm_compute; reflexivity | discriminate].
  - intros [].
Qed.
End Required.

(** ** Deeply nested JSON text *)

Section Nesting.
Import Re Json DataInfer Spec.

Lemma matches_Void (s : str) : matches Void s = false.
Proof. induction s as [|c s IH]; [reflexivity | exact IH]. Qed.

Lemma re_match_stuck (r : re) (c : N) (s : str) :
  deriv c (Cat r dollar) = Void -> re_match r (c :: s) = false.
Proof. intros H. unfold re_match. cbn [matches]. rewrite H. apply matches_Void. Qed.

Lemma rev_repeat_cons (c : N) (n : nat) (s : str) :
  rev (s ++ repeat c (S n)) = c :: rev (s ++ repeat c n).
Proof.
  cbn [repeat]. rewrite repeat_cons, app_assoc, rev_app_distr. reflexivity.
Qed.

Lemma nested_open (n : nat) : nested (S n) = ch "[" :: (repeat (ch "[") n ++ repeat (ch "]") (S n)).
Proof. reflexivity. Qed.

Lemma strip_nested (n : nat) : strip (nested (S n)) = nested (S n).
Proof.
  unfold strip, rstrip. rewrite nested_open at 1.
  rewrite lstrip_keeps by reflexivity. rewrite <- nested_open.
  unfold nested at 1. rewrite rev_repeat_cons, lstrip_keeps by reflexivity.
  rewrite <- rev_repeat_cons. apply rev_involutive.
Qed.

Lemma endswith_nested (n : nat) : endswith (ch "]") (nested (S n)) = true.
Proof. unfold endswith, nested. rewrite rev_repeat_cons. reflexivity. Qed.

(** Entering more containers than the budget allows stops the decoder. *)
Lemma run_too_deep (limit m : nat) (close_ok : bool) (stack : list frame) (rest : str) :
  (length stack <= limit < length stack + m)%nat ->
  run limit (MValue close_ok, stack) (repeat (ch "[") m ++ rest) = Raise RecursionError.
Proof.
  revert close_ok stack. induction m as [|m IH]; intros close_ok stack H; [lia|].
  cbn [repeat app run]. unfold step.
  change (is_ws (ch "[")) with false. cbn iota.
  replace (close_ok && (ch "[" =? ch "]")) with false by (destruct close_ok; reflexivity).
  unfold step_value. change (ch "[" =? dquote) with false. cbn iota.
  change ((ch "[" =? ch "{") || (ch "[" =? ch "[")) with true. cbn iota.
  destruct (Nat.leb_spec limit (length stack)) as [Hle|Hlt]; [reflexivity|].
  change (ch "[" =? ch "{") with false. cbn iota.
  cbn [mbind result_bind]. apply IH. cbn [length]. lia.
Qed.

Lemma loads_too_deep (limit n : nat) :
  (limit < n)%nat -> loads limit (nested n) = Raise RecursionError.
Proof.
  intros H. unfold loads, nested. rewrite run_too_deep by (cbn [length]; lia). reflexivity.
Qed.

Lemma str_in_head (c : N) (s : str) (l : list str) :
  forallb (fun x => match x with y :: _ => negb (c =? y) | [] => true end) l = true ->
  str_in (c :: s) l = false.
Proof.
  unfold str_in. induction l as [|x l IH]; [reflexivity|].
  cbn [forallb existsb]. intros [Hx Hl]%andb_true_iff. rewrite (IH Hl), orb_false_r.
  destruct x as [|y x]; [reflexivity|]. cbn [str_eqb].
  apply negb_true_iff in Hx. rewrite Hx. reflexivity.
Qed.

(** None of the blocks before the JSON block takes a text that starts
    with an opening bracket. *)
Lemma bracket_reaches_json (s : str) (rs : list rule) :
  first_match
    (check_boolean :: check_uuid :: check_email :: check_url :: check_ipv4 :: check_ipv6
     :: check_mac :: check_credit_card :: check_phone :: rs) (ch "[" :: s)
  = first_match rs (ch "[" :: s).
Proof.
  cbn [first_match].
  assert (Hb : check_boolean (ch "[" :: s) = falls_through).
  { unfold check_boolean, lower. cbn [flat_map].
    change (lower_char (ch "[")) with [ch "["]. cbn [app].
    rewrite str_in_head by reflexivity. reflexivity. }
  assert (Hu : check_uuid (ch "[" :: s) = falls_through)
    by (unfold check_uuid; rewrite re_match_stuck by (vm_compute; reflexivity); reflexivity).
  assert (He : check_email (ch "[" :: s) = falls_through)
    by (unfold check_email; rewrite re_match_stuck by (vm_compute; reflexivity); reflexivity).
  assert (Hl : check_url (ch "[" :: s) = falls_through)
    by (unfold check_url; rewrite re_match_stuck by (vm_compute; reflexivity); reflexivity).
  assert (H4 : check_ipv4 (ch "[" :: s) = falls_through)
    by (unfold check_ipv4; rewrite re_match_stuck by (vm_compute; reflexivity); reflexivity).
  assert (H6 : check_ipv6 (ch "[" :: s) = falls_through)
    by (unfold check_ipv6; rewrite re_match_stuck by (vm_compute; reflexivity); reflexivity).
  assert (Hm : check_mac (ch "[" :: s) = falls_through)
    by (unfold check_mac; rewrite re_match_stuck by (vm_compute; reflexivity); reflexivity).
  assert (Hc : check_credit_card (ch "[" :: s) = falls_through).
  { unfold check_credit_card. cbn [List.filter].
    change (negb (isspace (ch "[") || (ch "[" =? ch "-"))) with true. cbn iota.
    rewrite re_match_stuck by (vm_compute; reflexivity). reflexivity. }
  assert (Hp : check_phone (ch "[" :: s) = falls_through).
  { unfold check_phone, phone_patterns. cbn [existsb].
    rewrite !re_match_stuck by (vm_compute; reflexivity). reflexivity. }
  rewrite Hb, Hu, He, Hl, H4, H6, Hm, Hc, Hp. reflexivity.
Qed.
End Nesting.

(** ** What the classifier returns *)

Section Totality.
Import Re Json DataInfer Spec.

Ltac split_rule H :=
  repeat lazymatch type of H with
         | context [if ?b then _ else _] => destruct b
         | context [match ?x with _ => _ end] => destruct x
         end;
  try discriminate H.

Lemma check_formats_tagged (fmts : list str) : tagged (check_formats fmts).
Proof.
  induction fmts as [|fmt fmts IH]; intros value bt dt H; cbn [check_formats] in H.
  - discriminate H.
  - destruct (Strptime.strptime value fmt) as [[]|e].
    + split_rule H; injection H as <- <-; discriminate.
    + destruct (is_ValueError e); [exact (IH _ _ _ H) | discriminate H].
Qed.

Lemma rules_tagged (recursion_limit : nat) : Forall tagged (rules recursion_limit).
Proof.
  unfold rules.
  repeat lazymatch goal with |- Forall _ _ => constructor end.
  14: exact (check_formats_tagged date_time_formats).
  all: intros value bt dt H;
    unfold check_boolean, check_uuid, check_email, check_url, check_ipv4, check_ipv6,
      check_mac, check_credit_card, check_phone, check_json, check_array,
      check_percentage, check_currency, check_timestamp, check_integer, check_float,
      check_decimal, check_postal, check_isbn, check_base64, check_hex_color,
      returns, falls_through in H;
    unfold mbind, result_bind in H;
    once (split_rule H); injection H as <- <-; discriminate.
Qed.

Lemma first_match_tagged (rs : list rule) :
  Forall tagged rs -> tagged (first_match rs).
Proof.
  induction 1 as [|r rs Hr _ IH]; intros value bt dt H; cbn [first_match] in H.
  - discriminate H.
  - destruct (r value) as [[[bt' dt']|]|e] eqn:E; cbn in H.
    + injection H as <- <-. exact (Hr _ _ _ E).
    + exact (IH _ _ _ H).
    + discriminate H.
Qed.

(** Whenever the classifier returns, the data type is a non-empty tag. *)
Lemma infer_types_data_type (recursion_limit : nat) (value : option str)
  (business_type : option str) (data_type : str) :
  infer_types recursion_limit value = Ok (business_type, data_type) -> data_type <> [].
Proof.
  unfold infer_types. destruct value as [raw|]; [|intros [= <- <-]; discriminate].
  destruct ((length raw =? 0)%nat || str_eqb (strip raw) []); [intros [= <- <-]; discriminate|].
  destruct (first_match (rules recursion_limit) (strip raw)) as [[[bt dt]|]|e] eqn:E; cbn.
  - intros [= <- <-]. exact (first_match_tagged _ (rules_tagged recursion_limit) _ _ _ E).
  - intros [= <- <-]. discriminate.
  - discriminate.
Qed.

(** A text that none of the blocks takes is a string. *)
Lemma infer_types_default (recursion_limit : nat) (raw : str) :
  strip raw <> [] ->
  first_match (rules recursion_limit) (strip raw) = falls_through ->
  infer_types recursion_limit (Some raw) = Ok (None, u "string").
Proof.
  intros Hne H. unfold infer_types. rewrite H.
  apply str_eqb_neq in Hne. rewrite Hne.
  destruct raw; [exfalso; apply str_eqb_neq in Hne; apply Hne; reflexivity|]. reflexivity.
Qed.

(** C6 fails on the code: the classifier raises on a deeply nested
    bracket text.  Whenever the nesting exceeds what the interpreter may
    still enter, [json.loads] raises [RecursionError], which the JSON
    block's [except (json.JSONDecodeError, ValueError)] does not catch,
    so [infer_types] raises it too. *)
Theorem deep_nesting_raises (recursion_limit n : nat) :
  (recursion_limit < n)%nat ->
  infer_types recursion_limit (Some (nested n)) = Raise RecursionError.
Proof.
  intros H. destruct n as [|n]; [lia|].
  unfold infer_types. rewrite strip_nested.
  replace ((length (nested (S n)) =? 0)%nat || str_eqb (nested (S n)) []) with false
    by reflexivity.
  cbn iota. unfold rules.
  change (first_match ?l (nested (S n)))
    with (first_match l (ch "[" :: (repeat (ch "[") n ++ repeat (ch "]") (S n)))).
  rewrite bracket_reaches_json.
  rewrite <- nested_open. cbn [first_match].
  unfold check_json at 1. rewrite endswith_nested.
  change (startswith (ch "[") (nested (S n))) with true.
  rewrite loads_too_deep by exact H.
  rewrite orb_true_r. reflexivity.
Qed.

Lemma deep_nesting_raises_witness :
  (1000 < 2000)%nat
  /\ infer_types 1000 (Some (nested 2000)) = Raise RecursionError.
Proof. split; [lia | apply deep_nesting_raises; lia]. Defined.
End Totality.

(** ** File types *)

Section FileTypes.
Import Schema Spec SchemaGenerator.

Variable recursion_limit : nat.
Variable generate_parquet_schema : file -> Z -> bool -> result schema.

Lemma str_in_lit (x : str) (l : list str) : str_in x l = true -> In x l.
Proof.
  unfold str_in. rewrite existsb_exists. intros (y & Hy & E).
  apply str_eqb_eq in E. subst. exact Hy.
Qed.

Lemma detect_by_content_supported (f : file) (t : str) :
  detect_by_content recursion_limit f = Ok t -> In t supported.
Proof.
  unfold detect_by_content, supported. intros H.
  repeat lazymatch type of H with
         | context [if ?b then _ else _] => destruct b
         | context [match ?x with _ => _ end] => destruct x
         end;
    try discriminate H; injection H as <-; simpl; auto.
Qed.

(** A file type that is detected, or given and accepted, is one of
    [csv], [jsonl] and [parquet]. *)
Theorem resolve_file_type_supported (f : file) (file_type : option str) (t : str) :
  resolve_file_type recursion_limit f file_type = Ok t -> In t supported.
Proof.
  unfold resolve_file_type. destruct file_type as [given|].
  - destruct (str_in (lower given) [u "csv"; u "jsonl"; u "parquet"]) eqn:E; [|discriminate].
    intros [= <-]. apply str_in_lit. exact E.
  - unfold detect_file_type.
    repeat lazymatch goal with
           | |- context [if ?b then _ else _] => destruct b
           end; try discriminate; try (intros [= <-]; unfold supported; simpl; auto).
    apply detect_by_content_supported.
Qed.


(** An explicit file type is checked before the file is looked at: a
    type other than [csv], [jsonl] and [parquet] (in any letter case)
    raises [ValueError], whether or not the file exists. *)
Theorem unsupported_type_before_file (f : file) (sample_rows : Z)
  (use_business_types : bool) (t : str) :
  str_in (lower t) supported = false ->
  generate_schema recursion_limit generate_parquet_schema f sample_rows
                  use_business_types (Some t)
  = Raise ValueError.
Proof.
  intros H. unfold generate_schema, resolve_file_type.
  change [u "csv"; u "jsonl"; u "parquet"] with supported. rewrite H. reflexivity.
Qed.

(** A missing file raises [FileNotFoundError]: from the detection when no
    type is given, from the generator when the type is given as [csv] or
    [jsonl]. *)
Theorem missing_file_not_found (f : file) (sample_rows : Z)
  (use_business_types : bool) (file_type : option str) :
  present f = false ->
  match file_type with
  | None => True
  | Some t => lower t = u "csv" \/ lower t = u "jsonl"
  end ->
  generate_schema recursion_limit generate_parquet_schema f sample_rows
                  use_business_types file_type
  = Raise FileNotFoundError.
Proof.
  intros Hf Ht. unfold generate_schema, resolve_file_type, detect_file_type, opened.
  rewrite Hf. destruct file_type as [t|]; [|reflexivity].
  destruct Ht as [-> | ->]; reflexivity.
Qed.

(** With one of the six known extensions, the detection looks at nothing
    but the extension: two existing files with the same extension are
    detected alike, whatever they hold and whether or not they can be
    read. *)
Theorem extension_decides (limit limit' : nat) (f g : file) :
  present f = true -> present g = true -> suffix g = suffix f ->
  known_extension f = true ->
  detect_file_type limit f = detect_file_type limit' g
  /\ exists t, detect_file_type limit f = Ok t.
Proof.
  unfold known_extension, detect_file_type. intros -> -> -> H. cbn [negb].
  cbn [str_in existsb] in H |- *.
  repeat match type of H with
         | (?b || _) = true => destruct b eqn:?; cbn [orb] in H |- *
         end; try discriminate H; eauto.
Qed.

(** The detection by content decodes the first line as JSON and catches
    [JSONDecodeError] only: a first line nested deeper than the
    interpreter may enter makes [detect_file_type], and with it
    [generate_schema], raise [RecursionError]. *)
Theorem detect_deep_first_line (f : file) (n : nat) (sample_rows : Z)
  (use_business_types : bool) :
  present f = true -> readable f = true -> suffix f = [] ->
  str_eqb (first_bytes f) (u "PAR1") = false ->
  first_line f = nested n -> (recursion_limit < n)%nat ->
  detect_file_type recursion_limit f = Raise RecursionError
  /\ generate_schema recursion_limit generate_parquet_schema f sample_rows
                     use_business_types None
     = Raise RecursionError.
Proof.
  intros Hp Hr Hs Hb Hl Hn.
  assert (H : detect_file_type recursion_limit f = Raise RecursionError).
  { unfold detect_file_type, detect_by_content. rewrite Hp, Hr, Hs, Hb, Hl. cbn.
    rewrite loads_too_deep by exact Hn.
    destruct n as [|n]; [lia|]. reflexivity. }
  split; [exact H|]. unfold generate_schema, resolve_file_type. rewrite H. reflexivity.
Qed.
End FileTypes.

Lemma unsupported_type_before_file_witness :
  str_in (lower (u "XML")) Spec.supported = false
  /\ SchemaGenerator.generate_schema 1000 Spec.no_pyarrow Spec.no_file 100 true (Some (u "XML"))
     = Raise ValueError.
Proof.
  split; [reflexivity|].
  apply (unsupported_type_before_file 1000 Spec.no_pyarrow Spec.no_file 100%Z true (u "XML")).
  reflexivity.
Defined.

Lemma missing_file_not_found_witness :
  SchemaGenerator.generate_schema 1000 Spec.no_pyarrow Spec.no_file 100 true (Some (u "JSONL"))
  = Raise FileNotFoundError.
Proof.
  apply (missing_file_not_found 1000 Spec.no_pyarrow Spec.no_file 100%Z true (Some (u "JSONL")));
    [reflexivity | right; reflexivity].
Defined.

Lemma extension_decides_witness :
  SchemaGenerator.detect_file_type 1000 Spec.data_csv
  = SchemaGenerator.detect_file_type 0 Spec.data_csv
  /\ exists t, SchemaGenerator.detect_file_type 1000 Spec.data_csv = Ok t.
Proof.
  apply (extension_decides 1000 0 Spec.data_csv Spec.data_csv); reflexivity.
Defined.

Lemma detect_deep_first_line_witness :
  SchemaGenerator.detect_file_type 5 (Spec.nested_first_line 6) = Raise RecursionError
  /\ SchemaGenerator.generate_schema 5 Spec.no_pyarrow (Spec.nested_first_line 6) 100 true None
     = Raise RecursionError.
Proof.
  apply (detect_deep_first_line 5 Spec.no_pyarrow (Spec.nested_first_line 6) 6 100%Z true);
    try reflexivity. lia.
Defined.

Lemma resolve_file_type_supported_witness :
  SchemaGenerator.resolve_file_type 1000 Spec.data_csv None = Ok (u "csv")
  /\ In (u "csv") Spec.supported.
Proof.
  split; [reflexivity|].
  apply (resolve_file_type_supported 1000 Spec.data_csv None). reflexivity.
Defined.

(** ** The outcomes of the classifier *)

Section Outcomes.
Import Schema Spec DataInfer.

Ltac split_blocks H :=
  repeat lazymatch type of H with
         | context [if ?b then _ else _] => destruct b
         | context [match ?x with _ => _ end] => destruct x
         end;
  try discriminate H.

Ltac listed := repeat first [left; reflexivity | right].

Lemma check_formats_within (fmts : list str) : within rule_outcomes (check_formats fmts).
Proof.
  induction fmts as [|fmt fmts IH]; intros value t H; cbn [check_formats] in H.
  - discriminate H.
  - destruct (Strptime.strptime value fmt) as [[]|e].
    + split_blocks H; injection H as <-; listed.
    + destruct (is_ValueError e); [exact (IH _ _ H) | discriminate H].
Qed.

Lemma rules_within (recursion_limit : nat) :
  Forall (within rule_outcomes) (rules recursion_limit).
Proof.
  unfold rules.
  repeat lazymatch goal with |- Forall _ _ => constructor end.
  14: exact (check_formats_within date_time_formats).
  all: intros value t H;
    unfold check_boolean, check_uuid, check_email, check_url, check_ipv4, check_ipv6,
      check_mac, check_credit_card, check_phone, check_json, check_array,
      check_percentage, check_currency, check_timestamp, check_integer, check_float,
      check_decimal, check_postal, check_isbn, check_base64, check_hex_color,
      returns, falls_through in H;
    unfold mbind, result_bind in H;
    once (split_blocks H); injection H as <-; listed.
Qed.

Lemma first_match_within (l : list types) (rs : list rule) :
  Forall (within l) rs -> within l (first_match rs).
Proof.
  induction 1 as [|r rs Hr _ IH]; intros value t H; cbn [first_match] in H.
  - discriminate H.
  - destruct (r value) as [[t'|]|e] eqn:E; cbn in H.
    + injection H as <-. exact (Hr _ _ E).
    + exact (IH _ _ H).
    + discriminate H.
Qed.

Lemma infer_types_listed (recursion_limit : nat) (value : option str) (t : types) :
  infer_types recursion_limit value = Ok t -> In t outcomes.
Proof.
  unfold infer_types, outcomes.
  destruct value as [raw|]; [|intros [= <-]; left; reflexivity].
  destruct ((length raw =? 0)%nat || str_eqb (strip raw) []);
    [intros [= <-]; left; reflexivity|].
  destruct (first_match (rules recursion_limit) (strip raw)) as [[t'|]|e] eqn:E;
    unfold mbind, result_bind.
  - intros [= <-]. apply in_cons, in_or_app. left.
    exact (first_match_within _ _ (rules_within recursion_limit) _ _ E).
  - intros [= <-]. apply in_cons, in_or_app. right. left. reflexivity.
  - discriminate.
Qed.

(** A business type, when there is one, is not the empty text. *)
Lemma infer_types_business_type (recursion_limit : nat) (value : option str)
  (b data_type : str) :
  infer_types recursion_limit value = Ok (Some b, data_type) -> b <> [].
Proof.
  intros H. apply infer_types_listed in H.
  unfold outcomes, rule_outcomes in H. cbn [In app] in H.
  repeat (destruct H as [H|H]; [injection H as <- <- || discriminate H; discriminate|]).
  destruct H.
Qed.

(** The classifier has twenty-six outcomes: whatever it returns is one of
    them, and each of them is returned on some text (the interpreter
    being able to enter one container, for the JSON outcome). *)
Theorem infer_types_outcomes (recursion_limit : nat) :
  (forall value t, infer_types recursion_limit value = Ok t -> In t outcomes)
  /\ ((0 < recursion_limit)%nat ->
      forall t, In t outcomes ->
                exists raw, infer_types recursion_limit (Some raw) = Ok t).
Proof.
  split.
  - apply infer_types_listed.
  - intros Hl t Ht. destruct recursion_limit as [|n]; [lia|].
    assert (Hall : Forall2 (fun raw t => infer_types (S n) (Some raw) = Ok t)
                           examples outcomes).
    { unfold examples, outcomes, rule_outcomes. cbn [app].
      repeat constructor. }
    clear Hl. revert Ht. generalize outcomes examples Hall. clear.
    induction 1 as [|raw t' ex out H _ IH]; intros [].
    + subst. exists raw. exact H.
    + auto.
Qed.

Lemma infer_types_outcomes_witness :
  exists raw, infer_types 1000 (Some raw) = Ok (Some (u "email"), u "string").
Proof.
  apply (proj2 (infer_types_outcomes 1000)); [lia|].
  right. right. right. left. reflexivity.
Defined.

(** The data type [null] stands for an empty value and for nothing else:
    it is returned exactly for [None] and for texts that strip to
    nothing, and never with a business type. *)
Theorem infer_types_null (recursion_limit : nat) (value : option str)
  (business_type : option str) :
  infer_types recursion_limit value = Ok (business_type, u "null")
  <-> business_type = None
      /\ match value with None => True | Some raw => strip raw = [] end.
Proof.
  unfold infer_types. destruct value as [raw|].
  2: { split; [intros [= <-]; auto | intros [-> _]; reflexivity]. }
  destruct (str_eqb (strip raw) []) eqn:E.
  - rewrite orb_true_r. apply str_eqb_eq in E.
    split; [intros [= <-]; auto | intros [-> _]; reflexivity].
  - apply str_eqb_neq in E.
    assert ((length raw =? 0)%nat = false) as ->
      by (destruct raw; [exfalso; apply E; reflexivity | reflexivity]).
    cbn [orb]. split; [|intros [_ H]; contradiction].
    intros H. exfalso.
    destruct (first_match (rules recursion_limit) (strip raw)) as [[t'|]|e] eqn:F;
      cbn in H; try discriminate H.
    injection H as ->.
    pose proof (first_match_within _ _ (rules_within recursion_limit) _ _ F) as Hin.
    unfold rule_outcomes in Hin. cbn [In] in Hin.
    repeat (destruct Hin as [Hin|Hin]; [discriminate Hin|]). exact Hin.
Qed.
End Outcomes.

(** ** The properties of a tabular schema *)

Section CsvScan.
Import Schema Csv Spec.

Variable recursion_limit : nat.

Lemma scan_row_business (headers : list str) (row : dict (option str))
  (acc acc' : dict tags * dict tags) :
  scan_row recursion_limit headers row acc = Ok acc' ->
  (forall h, In h headers -> has_key h (fst acc)) ->
  (forall k, has_key k (fst acc') <-> has_key k (fst acc))
  /\ (forall k b, b ∈ tags_of k (fst acc')
                  <-> b ∈ tags_of k (fst acc)
                      \/ (In k headers /\ branded recursion_limit k row b)).
Proof.
  revert acc. induction headers as [|h headers IH]; intros acc H Hkeys.
  - injection H as <-. split; [tauto|].
    intros k b. split; [auto | intros [H|[[] _]]; exact H].
  - cbn [scan_row] in H.
    destruct (DataInfer.infer_types recursion_limit (row_get h row)) as [[bt dt]|e] eqn:E;
      [|discriminate]. unfold mbind, result_bind in H.
    apply IH in H; cbn [fst] in *.
    + destruct H as (Hk & Ht). destruct bt as [b0|].
      * assert (Hb : (length b0 =? 0)%nat = false).
        { apply infer_types_business_type in E. destruct b0; [congruence | reflexivity]. }
        rewrite Hb in Hk, Ht. split.
        -- intros k. rewrite Hk. apply has_key_add_tag.
        -- intros k b. rewrite Ht, tags_of_add_tag by (apply Hkeys; left; reflexivity).
           split.
           ++ intros [[[-> ->]|H]|[Hin Hc]].
              ** right. split; [left; reflexivity | exists dt; exact E].
              ** left. exact H.
              ** right. split; [right; exact Hin | exact Hc].
           ++ intros [H|[[<-|Hin] Hc]].
              ** left. right. exact H.
              ** destruct Hc as [dt' Hc]. rewrite E in Hc. injection Hc as <- _.
                 left. left. split; reflexivity.
              ** right. split; assumption.
      * split; [exact Hk|]. intros k b. rewrite Ht. split.
        -- intros [H|[Hin Hc]]; [left; exact H | right; split; [right; exact Hin | exact Hc]].
        -- intros [H|[[<-|Hin] Hc]]; [left; exact H | | right; split; assumption].
           destruct Hc as [dt' Hc]. rewrite E in Hc. discriminate Hc.
    + intros h' Hin. destruct bt as [b0|]; [|apply Hkeys; right; exact Hin].
      destruct (length b0 =? 0)%nat; [apply Hkeys; right; exact Hin|].
      apply has_key_add_tag, Hkeys. right; exact Hin.
Qed.

Lemma scan_rows_business (headers : list str) (rs : list (dict (option str)))
  (sample_rows row_count : Z) (acc acc' : dict tags * dict tags) :
  scan_rows recursion_limit headers rs sample_rows row_count acc = Ok acc' ->
  (forall h, In h headers -> has_key h (fst acc)) ->
  let sample := firstn (Z.to_nat (sample_rows - row_count)) rs in
  forall k b, b ∈ tags_of k (fst acc')
              <-> b ∈ tags_of k (fst acc)
                  \/ (In k headers
                      /\ exists row, In row sample /\ branded recursion_limit k row b).
Proof.
  revert row_count acc. induction rs as [|row rs IH]; intros row_count acc H Hkeys sample.
  - injection H as <-. subst sample. rewrite firstn_nil.
    intros k t. split; [auto | intros [H|(_ & ? & [] & _)]; exact H].
  - cbn [scan_rows] in H. destruct (Z.leb_spec sample_rows row_count) as [Hle|Hlt].
    + injection H as <-. subst sample.
      replace (Z.to_nat (sample_rows - row_count)) with 0%nat by lia.
      intros k t. split; [auto | intros [H|(_ & ? & [] & _)]; exact H].
    + destruct (scan_row recursion_limit headers row acc) as [acc1|e] eqn:E; [|discriminate].
      unfold mbind, result_bind in H.
      apply scan_row_business in E as (Hk & Ht); [|exact Hkeys].
      assert (Hk' : forall h, In h headers -> has_key h (fst acc1))
        by (intros h Hin; apply Hk, Hkeys, Hin).
      specialize (IH _ _ H Hk'). cbn zeta in IH.
      subst sample.
      replace (Z.to_nat (sample_rows - row_count))
        with (S (Z.to_nat (sample_rows - (row_count + 1)))) by lia.
      cbn [firstn]. intros k b. rewrite IH, Ht. split.
      * intros [[H0|[Hin Hc]]|(Hin & r & Hr & Hc)].
        -- left. exact H0.
        -- right. split; [exact Hin | exists row; split; [left; reflexivity | exact Hc]].
        -- right. split; [exact Hin | exists r; split; [right; exact Hr | exact Hc]].
      * intros [H0|(Hin & r & [<-|Hr] & Hc)].
        -- left. left. exact H0.
        -- left. right. split; assumption.
        -- right. split; [exact Hin | exists r; split; assumption].
Qed.

(** What the build loop leaves under a key. *)
Lemma build_get (headers : list str) (cbt cdt : dict tags)
  (acc : dict prop * list str) (h : str) :
  dict_get h (fst (build headers cbt cdt acc))
  = if str_in h headers
    then Some (fst (build_property h (tags_of h cbt) (tags_of h cdt)))
    else dict_get h (fst acc).
Proof.
  revert acc. induction headers as [|h' headers IH]; intros acc; cbn [build]; [reflexivity|].
  destruct (build_property h' (tags_of h' cbt) (tags_of h' cdt)) as [p req] eqn:E.
  rewrite IH. cbn [fst]. unfold str_in. cbn [existsb].
  fold (str_in h headers). destruct (str_in h headers); [rewrite orb_true_r; reflexivity|].
  rewrite orb_false_r. destruct (str_eqb h h') eqn:Eh.
  - apply str_eqb_eq in Eh. subst h'. rewrite dict_get_set_eq, E. reflexivity.
  - apply str_eqb_neq in Eh. rewrite dict_get_set_ne by congruence. reflexivity.
Qed.

Lemma str_in_keys {V} (k : str) (d : dict V) :
  str_in k (dict_keys d) = match dict_get k d with Some _ => true | None => false end.
Proof.
  destruct (dict_get k d) eqn:E.
  - apply str_in_In. apply dict_get_In in E. change k with (fst (k, v)).
    apply in_map. exact E.
  - apply dict_get_None in E. destruct (str_in k (dict_keys d)) eqn:F; [|reflexivity].
    apply str_in_In in F. contradiction.
Qed.

(** The keys of the built properties: the headers, as they first occur. *)
Lemma build_keys (headers : list str) (cbt cdt : dict tags) (acc : dict prop * list str) :
  dict_keys (fst (build headers cbt cdt acc)) = extend (dict_keys (fst acc)) headers.
Proof.
  revert acc. induction headers as [|h headers IH]; intros acc; cbn [build]; [reflexivity|].
  destruct (build_property h (tags_of h cbt) (tags_of h cdt)) as [p req].
  rewrite IH. cbn [fst]. unfold extend. cbn [fold_left]. f_equal.
  rewrite dict_keys_set, str_in_keys. destruct (dict_get h (fst acc)); reflexivity.
Qed.
End CsvScan.

Section CsvSchema.
Import Schema Csv Spec.

Variable recursion_limit : nat.

(** What a run of the generator that returns has computed. *)
Lemma csv_run (f : reader) (sample_rows : Z) (s : schema) :
  generate_csv_schema recursion_limit (Some f) sample_rows = Ok s ->
  exists cbt cdt,
    properties s = fst (build (headers_of f) cbt cdt ([], []))
    /\ required s = snd (build (headers_of f) cbt cdt ([], []))
    /\ (forall k t, t ∈ tags_of k cdt
                    <-> In k (headers_of f)
                        /\ exists row, In row (sampled f sample_rows)
                                       /\ classified recursion_limit k row t)
    /\ (forall k b, b ∈ tags_of k cbt
                    <-> In k (headers_of f)
                        /\ exists row, In row (sampled f sample_rows)
                                       /\ branded recursion_limit k row b)
    /\ (forall h row, In h (headers_of f) -> In row (sampled f sample_rows) ->
          exists t, classified recursion_limit h row t).
Proof.
  unfold generate_csv_schema. fold (headers_of f). intros H.
  set (empty := fold_left (fun d header => dict_set header (∅ : tags) d) (headers_of f) []) in H.
  destruct (scan_rows recursion_limit (headers_of f) (rows f) sample_rows 0 (empty, empty))
    as [[cbt cdt]|e] eqn:E; [|discriminate].
  unfold mbind, result_bind in H. cbn [fst snd] in H.
  destruct (build (headers_of f) cbt cdt ([], [])) as [ps req] eqn:Eb.
  injection H as <-. cbn [properties required].
  exists cbt, cdt. rewrite Eb. split; [reflexivity|]. split; [reflexivity|].
  assert (Hkeys : forall k, In k (headers_of f) -> has_key k empty)
    by (intros k Hk; apply has_key_empty; left; exact Hk).
  pose proof (scan_rows_data _ _ _ _ _ _ _ E Hkeys) as [Ht Hok].
  pose proof (scan_rows_business _ _ _ _ _ _ _ E Hkeys) as Hb.
  cbn zeta in Hb. rewrite Z.sub_0_r in Ht, Hok, Hb.
  fold (sampled f sample_rows) in Ht, Hok, Hb. cbn [fst snd] in Ht, Hb.
  split; [|split; [|exact Hok]].
  - intros k t. rewrite Ht. unfold empty at 1. rewrite tags_of_empty by reflexivity.
    split; [intros [H|H]; [inversion H | exact H] | auto].
  - intros k b. rewrite Hb. unfold empty at 1. rewrite tags_of_empty by reflexivity.
    split; [intros [H|H]; [inversion H | exact H] | auto].
Qed.

Lemma tags_in_map (l : list str) : tags_in (VList (map VStr l)) = l.
Proof. cbn [tags_in]. induction l as [|t l IH]; [reflexivity|]. cbn. f_equal. exact IH. Qed.

(** The parts of a property that do not depend on the sample. *)
Lemma build_property_shape (h : str) (bts dts : tags) :
  let p := fst (build_property h bts dts) in
  p_description p = Some (column_description h)
  /\ p_type p <> None /\ p_properties p = None /\ p_items p = None.
Proof.
  unfold build_property.
  destruct (list_of (dts ∖ {[ u "null" ]})) as [|dt [|dt' l]];
    destruct (bool_decide (u "null" ∈ dts)), (bool_decide (bts = ∅));
    cbn; repeat split; discriminate.
Qed.

(** The tags of the built ["type"]. *)
Lemma build_property_tags (h : str) (bts dts : tags) :
  tags_in (get (p_type (fst (build_property h bts dts))))
  = match list_of (dts ∖ {[ u "null" ]}) with
    | [] => [u "string"; u "null"]
    | l => l ++ (if bool_decide (u "null" ∈ dts) then [u "null"] else [])
    end.
Proof.
  unfold build_property.
  destruct (list_of (dts ∖ {[ u "null" ]})) as [|dt [|dt' l]] eqn:E;
    destruct (bool_decide (u "null" ∈ dts)), (bool_decide (bts = ∅));
    cbn [fst p_type set_business_type get]; try reflexivity;
    try (rewrite tags_in_map, ?app_nil_r; reflexivity).
Qed.

(** The built ["type"] is a single tag exactly when the header is
    required. *)
Lemma build_property_scalar (h : str) (bts dts : tags) :
  snd (build_property h bts dts) = true
  <-> exists dt, p_type (fst (build_property h bts dts)) = Some (VStr dt).
Proof.
  unfold build_property.
  destruct (list_of (dts ∖ {[ u "null" ]})) as [|dt [|dt' l]] eqn:E;
    destruct (bool_decide (u "null" ∈ dts)), (bool_decide (bts = ∅));
    cbn [fst snd p_type set_business_type];
    (split; [intros H; try discriminate H; eexists; reflexivity
            | intros [x H]; try discriminate H; reflexivity]).
Qed.

(** The tags of the built ["business_type"]. *)
Lemma build_property_business (h : str) (bts dts : tags) (b : str) :
  In b (tags_in (get (p_business_type (fst (build_property h bts dts))))) <-> b ∈ bts.
Proof.
  assert (Hp : p_business_type (fst (build_property h bts dts))
               = if bool_decide (bts = ∅) then None else Some (one_or_list bts)).
  { unfold build_property.
    destruct (list_of (dts ∖ {[ u "null" ]})) as [|dt [|dt' l]];
      destruct (bool_decide (u "null" ∈ dts)), (bool_decide (bts = ∅)); reflexivity. }
  rewrite Hp. destruct (bool_decide (bts = ∅)) eqn:Eb.
  - apply bool_decide_eq_true in Eb. subst bts. cbn. split; [intros [] | intros H; inversion H].
  - cbn [get]. assert (Ht : tags_in (one_or_list bts) = list_of bts).
    { unfold one_or_list. destruct (list_of bts) as [|t [|t' l]] eqn:El; try reflexivity.
      rewrite tags_in_map. reflexivity. }
    rewrite Ht. unfold list_of. rewrite <- list_elem_of_In, elem_of_elements. reflexivity.
Qed.

(** A tabular schema has one property for each distinct header, in the
    order of the header row; each has a type and the description
    ["Column: "] and the header, and neither nested properties nor
    items. *)
Theorem csv_properties (f : reader) (sample_rows : Z) (s : schema) :
  generate_csv_schema recursion_limit (Some f) sample_rows = Ok s ->
  dict_keys (properties s) = distinct (headers_of f)
  /\ forall h, In h (headers_of f) ->
       exists p, dict_get h (properties s) = Some p
                 /\ p_description p = Some (u "Column: " ++ h)
                 /\ p_type p <> None /\ p_properties p = None /\ p_items p = None.
Proof.
  intros H. apply csv_run in H as (cbt & cdt & -> & _ & _).
  split; [apply build_keys|].
  intros h Hh. rewrite build_get. apply str_in_In in Hh. rewrite Hh.
  eexists. split; [reflexivity|]. apply build_property_shape.
Qed.

(** A column's ["type"] is a single tag exactly when the column is
    required; otherwise it is a list. *)
Theorem csv_single_type_iff_required (f : reader) (sample_rows : Z) (s : schema) (h : str) :
  generate_csv_schema recursion_limit (Some f) sample_rows = Ok s ->
  In h (headers_of f) ->
  (In h (required s) <-> exists dt, type_of h s = Some (VStr dt))
  /\ (~ In h (required s) <-> exists l, type_of h s = Some (VList l)).
Proof.
  intros H Hh. apply csv_run in H as (cbt & cdt & Hp & -> & _).
  unfold type_of. rewrite Hp, build_get. pose proof Hh as Hin.
  apply str_in_In in Hh. rewrite Hh, build_required. cbn [snd In].
  pose proof (build_property_scalar h (tags_of h cbt) (tags_of h cdt)) as Hs.
  pose proof (build_property_shape h (tags_of h cbt) (tags_of h cdt)) as (_ & Hty & _).
  cbn zeta in Hty.
  assert (H1 : False \/ In h (headers_of f)
               /\ snd (build_property h (tags_of h cbt) (tags_of h cdt)) = true
               <-> exists dt, p_type (fst (build_property h (tags_of h cbt) (tags_of h cdt)))
                              = Some (VStr dt)).
  { rewrite <- Hs. tauto. }
  split; [exact H1|]. rewrite H1.
  destruct (p_type (fst (build_property h (tags_of h cbt) (tags_of h cdt)))) as [[|t|l]|] eqn:Et.
  - exfalso. revert Et. unfold build_property.
    destruct (list_of (tags_of h cdt ∖ {[ u "null" ]})) as [|dt [|dt' l]];
      destruct (bool_decide (u "null" ∈ tags_of h cdt)), (bool_decide (tags_of h cbt = ∅));
      discriminate.
  - split; [intros Hn; exfalso; apply Hn; eexists; reflexivity | intros [l Hl]; discriminate Hl].
  - split; [intros _; eexists; reflexivity | intros _ [dt Hd]; discriminate Hd].
  - contradiction.
Qed.

Lemma classified_functional (h : str) (row : dict (option str)) (t t' : str) :
  classified recursion_limit h row t -> classified recursion_limit h row t' -> t = t'.
Proof. intros [b H] [b' H']. rewrite H in H'. congruence. Qed.

Lemma null_has_no_business_type (value : option str) (b : str) :
  DataInfer.infer_types recursion_limit value <> Ok (Some b, u "null").
Proof.
  intros H. apply infer_types_listed in H.
  unfold outcomes, rule_outcomes in H. cbn [In app] in H.
  repeat (destruct H as [H|H]; [discriminate H|]). exact H.
Qed.

(** When some sampled cell of a column is not null, the tags of the
    column's ["type"] are exactly the data types of its sampled cells,
    each once; [null], if among them, comes last. *)
Theorem csv_observed_types (f : reader) (sample_rows : Z) (s : schema) (h : str) :
  generate_csv_schema recursion_limit (Some f) sample_rows = Ok s ->
  In h (headers_of f) ->
  (exists row t, In row (sampled f sample_rows)
                 /\ classified recursion_limit h row t /\ t <> u "null") ->
  exists ty,
    type_of h s = Some ty
    /\ List.NoDup (tags_in ty)
    /\ (forall t, In t (tags_in ty)
                  <-> exists row, In row (sampled f sample_rows)
                                  /\ classified recursion_limit h row t)
    /\ (In (u "null") (tags_in ty) -> List.last (tags_in ty) [] = u "null").
Proof.
  intros H Hh (row0 & t0 & Hrow0 & Hc0 & Hne0).
  apply csv_run in H as (cbt & cdt & Hp & _ & Hdt & _).
  unfold type_of. rewrite Hp, build_get. pose proof Hh as Hin.
  apply str_in_In in Hh. rewrite Hh.
  pose proof (build_property_shape h (tags_of h cbt) (tags_of h cdt)) as (_ & Hty & _).
  pose proof (build_property_tags h (tags_of h cbt) (tags_of h cdt)) as Htags.
  cbn zeta in Hty.
  destruct (p_type (fst (build_property h (tags_of h cbt) (tags_of h cdt)))) as [ty|];
    [|contradiction].
  exists ty. split; [reflexivity|]. cbn [get] in Htags. rewrite Htags. clear Htags Hty.
  set (dts := tags_of h cdt) in *.
  assert (Hl : forall t, In t (list_of (dts ∖ {[ u "null" ]})) <-> t ∈ dts /\ t <> u "null").
  { intros t. unfold list_of. rewrite <- list_elem_of_In, elem_of_elements,
      elem_of_difference, elem_of_singleton. reflexivity. }
  assert (Hnd : List.NoDup (list_of (dts ∖ {[ u "null" ]})))
    by (unfold list_of; apply NoDup_ListNoDup, NoDup_elements).
  assert (Hobs : forall t, t ∈ dts <-> exists row, In row (sampled f sample_rows)
                                          /\ classified recursion_limit h row t).
  { intros t. unfold dts. rewrite Hdt. split; [intros [_ H]; exact H | auto]. }
  destruct (list_of (dts ∖ {[ u "null" ]})) as [|x l] eqn:E.
  { exfalso. apply (proj2 (Hl t0)). split; [apply Hobs; eauto | exact Hne0]. }
  destruct (bool_decide (u "null" ∈ dts)) eqn:Hnull.
  - apply bool_decide_eq_true in Hnull. split; [|split].
    + apply List.NoDup_app; [exact Hnd | repeat constructor; intros [] |].
      intros a Ha [<-|[]]. apply Hl in Ha as [_ Ha]. apply Ha. reflexivity.
    + intros t. rewrite in_app_iff, Hl, <- Hobs. cbn [In]. split.
      * intros [[H _]|[<-|[]]]; assumption.
      * intros H. destruct (decide (t = u "null")) as [->|Hne]; [right; left; reflexivity|].
        left. split; assumption.
    + intros _. apply List.last_last.
  - apply bool_decide_eq_false in Hnull. rewrite app_nil_r. split; [exact Hnd|]. split.
    + intros t. rewrite Hl, <- Hobs. split; [intros [H _]; exact H|].
      intros H. split; [exact H | intros ->; contradiction].
    + intros H. apply Hl in H as [_ H]. exfalso. apply H. reflexivity.
Qed.

(** A column whose sampled cells are all null, or of which no cell was
    sampled, has the type [string, null], no business type, and is not
    required. *)
Theorem csv_empty_column (f : reader) (sample_rows : Z) (s : schema) (h : str) :
  generate_csv_schema recursion_limit (Some f) sample_rows = Ok s ->
  In h (headers_of f) ->
  (forall row, In row (sampled f sample_rows) ->
               classified recursion_limit h row (u "null")) ->
  type_of h s = Some (VList [VStr (u "string"); VStr (u "null")])
  /\ business_type_of h s = None
  /\ ~ In h (required s).
Proof.
  intros H Hh Hall.
  apply csv_run in H as (cbt & cdt & Hp & Hr & Hdt & Hbt & _).
  unfold type_of, business_type_of. rewrite Hp, Hr, build_get, build_required.
  pose proof Hh as Hin. apply str_in_In in Hh. rewrite Hh. cbn [snd In].
  assert (Hd : list_of (tags_of h cdt ∖ {[ u "null" ]}) = []).
  { destruct (list_of (tags_of h cdt ∖ {[ u "null" ]})) as [|x l] eqn:E; [reflexivity|].
    exfalso. assert (Hx : In x (list_of (tags_of h cdt ∖ {[ u "null" ]})))
      by (rewrite E; left; reflexivity).
    unfold list_of in Hx. rewrite <- list_elem_of_In, elem_of_elements,
      elem_of_difference, elem_of_singleton in Hx.
    destruct Hx as [Hx Hne]. apply Hdt in Hx as (_ & row & Hrow & Hc).
    apply Hne. exact (classified_functional _ _ _ _ Hc (Hall row Hrow)). }
  assert (Hb : tags_of h cbt = ∅).
  { apply elem_of_equiv_empty_L. intros b Hb. apply Hbt in Hb as (_ & row & Hrow & dt & Hc).
    destruct (Hall row Hrow) as [b' Hn]. rewrite Hc in Hn. injection Hn as _ ->.
    exact (null_has_no_business_type _ _ Hc). }
  unfold build_property. rewrite Hd, Hb.
  assert (bool_decide ((∅ : tags) = ∅) = true) as -> by (apply bool_decide_eq_true; reflexivity).
  cbn. split; [reflexivity|]. split; [reflexivity|]. intros [[]|[_ H]]. discriminate H.
Qed.

(** The tags of a column's ["business_type"] are exactly the business
    types the classifier gives its sampled cells; the key is absent when
    there is none. *)
Theorem csv_business_types (f : reader) (sample_rows : Z) (s : schema) (h : str) :
  generate_csv_schema recursion_limit (Some f) sample_rows = Ok s ->
  In h (headers_of f) ->
  (forall b, In b (tags_in (get (business_type_of h s)))
             <-> exists row, In row (sampled f sample_rows)
                             /\ branded recursion_limit h row b)
  /\ (business_type_of h s = None
      <-> forall row b, In row (sampled f sample_rows) ->
                        ~ branded recursion_limit h row b).
Proof.
  intros H Hh. apply csv_run in H as (cbt & cdt & Hp & _ & _ & Hbt & _).
  unfold business_type_of. rewrite Hp, build_get. pose proof Hh as Hin.
  apply str_in_In in Hh. rewrite Hh.
  assert (Hobs : forall b, b ∈ tags_of h cbt
                           <-> exists row, In row (sampled f sample_rows)
                                           /\ branded recursion_limit h row b).
  { intros b. rewrite Hbt. split; [intros [_ H]; exact H | auto]. }
  split.
  - intros b. rewrite build_property_business. apply Hobs.
  - assert (Hp' : p_business_type (fst (build_property h (tags_of h cbt) (tags_of h cdt)))
                  = if bool_decide (tags_of h cbt = ∅) then None
                    else Some (one_or_list (tags_of h cbt))).
    { unfold build_property.
      destruct (list_of (tags_of h cdt ∖ {[ u "null" ]})) as [|dt [|dt' l]];
        destruct (bool_decide (u "null" ∈ tags_of h cdt)),
                 (bool_decide (tags_of h cbt = ∅)); reflexivity. }
    rewrite Hp'. destruct (bool_decide (tags_of h cbt = ∅)) eqn:Eb.
    + apply bool_decide_eq_true in Eb. split; [|reflexivity].
      intros _ row b Hrow Hc. assert (Hx : b ∈ tags_of h cbt) by (apply Hobs; eauto).
      rewrite Eb in Hx. inversion Hx.
    + apply bool_decide_eq_false in Eb. split; [discriminate|].
      intros Hnone. exfalso. apply Eb. apply elem_of_equiv_empty_L.
      intros b Hb. apply Hobs in Hb as (row & Hrow & Hc). exact (Hnone row b Hrow Hc).
Qed.

Lemma scan_rows_prefix (headers : list str) (rs more : list (dict (option str)))
  (sample_rows row_count : Z) (acc : dict tags * dict tags) :
  (sample_rows - row_count <= Z.of_nat (length rs))%Z ->
  scan_rows recursion_limit headers (rs ++ more) sample_rows row_count acc
  = scan_rows recursion_limit headers rs sample_rows row_count acc.
Proof.
  revert row_count acc. induction rs as [|row rs IH]; intros row_count acc H.
  - cbn [app length] in *. destruct more as [|row more]; [reflexivity|].
    cbn [scan_rows]. destruct (Z.leb_spec sample_rows row_count); [reflexivity | lia].
  - cbn [app scan_rows]. destruct (sample_rows <=? row_count)%Z; [reflexivity|].
    destruct (scan_row recursion_limit headers row acc) as [acc1|e]; [|reflexivity].
    unfold mbind, result_bind. apply IH. cbn [length] in H. lia.
Qed.

(** Sampling stops after [sample_rows] rows: the records that follow are
    never classified, and the result is what it is without them. *)
Theorem csv_sample_prefix (names : list str) (records more : list (list str))
  (sample_rows : Z) :
  (sample_rows <= Z.of_nat (length (List.filter filled records)))%Z ->
  generate_csv_schema recursion_limit (Some (names :: records ++ more)) sample_rows
  = generate_csv_schema recursion_limit (Some (names :: records)) sample_rows.
Proof.
  intros H. unfold generate_csv_schema. cbn [fieldnames rows].
  fold filled. rewrite List.filter_app, map_app.
  rewrite scan_rows_prefix by (rewrite length_map; lia). reflexivity.
Qed.

Lemma scan_row_raises (headers : list str) (row : dict (option str))
  (acc : dict tags * dict tags) (e : exn) :
  scan_row recursion_limit headers row acc = Raise e ->
  exists h, In h headers
            /\ DataInfer.infer_types recursion_limit (row_get h row) = Raise e.
Proof.
  revert acc. induction headers as [|h headers IH]; intros acc H; [discriminate H|].
  cbn [scan_row] in H.
  destruct (DataInfer.infer_types recursion_limit (row_get h row)) as [[bt dt]|e'] eqn:E.
  - unfold mbind, result_bind in H. apply IH in H as (h' & Hin & Hh').
    exists h'. split; [right; exact Hin | exact Hh'].
  - injection H as <-. exists h. split; [left; reflexivity | exact E].
Qed.

Lemma scan_rows_raises (headers : list str) (rs : list (dict (option str)))
  (sample_rows row_count : Z) (acc : dict tags * dict tags) (e : exn) :
  scan_rows recursion_limit headers rs sample_rows row_count acc = Raise e ->
  exists row h, In row (firstn (Z.to_nat (sample_rows - row_count)) rs)
                /\ In h headers
                /\ DataInfer.infer_types recursion_limit (row_get h row) = Raise e.
Proof.
  revert row_count acc. induction rs as [|row rs IH]; intros row_count acc H;
    [discriminate H|].
  cbn [scan_rows] in H. destruct (Z.leb_spec sample_rows row_count) as [Hle|Hlt];
    [discriminate H|].
  replace (Z.to_nat (sample_rows - row_count))
    with (S (Z.to_nat (sample_rows - (row_count + 1)))) by lia.
  cbn [firstn].
  destruct (scan_row recursion_limit headers row acc) as [acc1|e'] eqn:E.
  - unfold mbind, result_bind in H. apply IH in H as (r & h & Hr & Hh & Hc).
    exists r, h. split; [right; exact Hr | split; assumption].
  - injection H as <-. apply scan_row_raises in E as (h & Hh & Hc).
    exists row, h. split; [left; reflexivity | split; assumption].
Qed.

(** When the records of the file are read without error (the file is
    given by what [csv.reader] yields on it), the generator raises only
    what the classifier raises on a cell of a sampled row. *)
Theorem csv_raises (f : reader) (sample_rows : Z) (e : exn) :
  generate_csv_schema recursion_limit (Some f) sample_rows = Raise e ->
  exists row h, In row (sampled f sample_rows) /\ In h (headers_of f)
                /\ DataInfer.infer_types recursion_limit (row_get h row) = Raise e.
Proof.
  unfold generate_csv_schema. fold (headers_of f). intros H.
  destruct (scan_rows recursion_limit (headers_of f) (rows f) sample_rows 0 _)
    as [sets|e'] eqn:E.
  - unfold mbind, result_bind in H. destruct (build _ _ _ _). discriminate H.
  - injection H as <-. apply scan_rows_raises in E. rewrite Z.sub_0_r in E. exact E.
Qed.

Lemma fill_other (l : list str) (d : dict (option str)) (h : str) :
  str_in h l = false ->
  dict_get h (fold_left (fun d k => dict_set k None d) l d) = dict_get h d.
Proof.
  revert d. induction l as [|k l IH]; intros d E; [reflexivity|].
  unfold str_in in E. cbn [existsb] in E. apply orb_false_iff in E as [Ek El].
  cbn [fold_left]. rewrite IH by exact El.
  apply dict_get_set_ne. apply str_eqb_neq in Ek. congruence.
Qed.

Lemma fill_missing (l : list str) (d : dict (option str)) (h : str) :
  In h l -> dict_get h (fold_left (fun d k => dict_set k None d) l d) = Some None.
Proof.
  revert d. induction l as [|k l IH]; intros d; [intros []|].
  cbn [fold_left]. destruct (str_in h l) eqn:E.
  - intros _. apply IH. apply str_in_In. exact E.
  - intros [->|Hin]; [|apply str_in_In in Hin; congruence].
    rewrite fill_other by exact E. apply dict_get_set_eq.
Qed.

(** A cell that a record is too short to have reads as [None]. *)
Lemma dict_row_short (names record : list str) (i : nat) (h : str) :
  nth_error names i = Some h -> (length record <= i)%nat ->
  row_get h (dict_row names record) = None.
Proof.
  intros Hn Hl. unfold row_get, dict_row. rewrite fill_missing; [reflexivity|].
  rewrite <- (firstn_skipn (length record) names) in Hn.
  rewrite nth_error_app2 in Hn by (rewrite length_firstn; lia).
  apply nth_error_In in Hn. exact Hn.
Qed.

(** A sampled record that stops before a column leaves the column out
    of [required]. *)
Theorem csv_short_record (names : list str) (records : list (list str))
  (sample_rows : Z) (s : schema) (record : list str) (i : nat) (h : str) :
  generate_csv_schema recursion_limit (Some (names :: records)) sample_rows = Ok s ->
  In record (firstn (Z.to_nat sample_rows) (List.filter filled records)) ->
  nth_error names i = Some h -> (length record <= i)%nat ->
  ~ In h (required s).
Proof.
  intros H Hr Hn Hl Hreq.
  apply (csv_required recursion_limit _ _ _ H) in Hreq as (_ & dt & Hne & _ & Hall).
  assert (Hrow : In (dict_row names record) (sampled (names :: records) sample_rows)).
  { unfold sampled. cbn [rows]. fold filled. rewrite firstn_map. apply in_map. exact Hr. }
  destruct (Hall _ Hrow) as [bt Hc].
  rewrite (dict_row_short _ _ _ _ Hn Hl) in Hc. unfold DataInfer.infer_types in Hc.
  injection Hc as _ <-. apply Hne. reflexivity.
Qed.
End CsvSchema.

Lemma csv_properties_witness :
  exists s,
    Csv.generate_csv_schema 1000 (Some Spec.scenario_1) 100 = Ok s
    /\ Schema.dict_keys (Schema.properties s) = [u "name"; u "age"; u "email"].
Proof.
  destruct (Csv.generate_csv_schema 1000 (Some Spec.scenario_1) 100) as [s|e] eqn:E;
    [|vm_compute in E; discriminate E].
  exists s. split; [reflexivity|].
  exact (proj1 (csv_properties 1000 Spec.scenario_1 100%Z s E)).
Defined.

Lemma csv_single_type_iff_required_witness :
  exists s,
    Csv.generate_csv_schema 1000 (Some Spec.scenario_1) 100 = Ok s
    /\ (In (u "age") (Schema.required s)
        <-> exists dt, Spec.type_of (u "age") s = Some (Schema.VStr dt)).
Proof.
  destruct (Csv.generate_csv_schema 1000 (Some Spec.scenario_1) 100) as [s|e] eqn:E;
    [|vm_compute in E; discriminate E].
  exists s. split; [reflexivity|].
  apply (csv_single_type_iff_required 1000 Spec.scenario_1 100%Z s (u "age") E).
  right. left. reflexivity.
Defined.

Lemma csv_observed_types_witness :
  exists s ty,
    Csv.generate_csv_schema 1000 (Some Spec.mixed_column) 100 = Ok s
    /\ Spec.type_of (u "c") s = Some ty
    /\ (In (u "integer") (Spec.tags_in ty)
        <-> exists row, In row (Spec.sampled Spec.mixed_column 100)
                        /\ Spec.classified 1000 (u "c") row (u "integer")).
Proof.
  destruct (Csv.generate_csv_schema 1000 (Some Spec.mixed_column) 100) as [s|e] eqn:E;
    [|vm_compute in E; discriminate E].
  destruct (csv_observed_types 1000 Spec.mixed_column 100%Z s (u "c") E)
    as (ty & Hty & _ & Hin & _).
  - left. reflexivity.
  - exists (Csv.dict_row [u "c"] [u "abc"]), (u "string").
    split; [left; reflexivity|]. split; [exists None; vm_compute; reflexivity | discriminate].
  - exists s, ty. split; [reflexivity|]. split; [exact Hty | apply Hin].
Defined.

Lemma csv_empty_column_witness :
  exists s,
    Csv.generate_csv_schema 1000 (Some Spec.header_only) 100 = Ok s
    /\ Spec.type_of (u "a") s
       = Some (Schema.VList [Schema.VStr (u "string"); Schema.VStr (u "null")]).
Proof.
  destruct (Csv.generate_csv_schema 1000 (Some Spec.header_only) 100) as [s|e] eqn:E;
    [|vm_compute in E; discriminate E].
  exists s. split; [reflexivity|].
  apply (csv_empty_column 1000 Spec.header_only 100%Z s (u "a") E).
  - left. reflexivity.
  - intros row [].
Defined.

Lemma csv_business_types_witness :
  exists s,
    Csv.generate_csv_schema 1000 (Some Spec.scenario_1) 100 = Ok s
    /\ (In (u "email") (Spec.tags_in (Schema.get (Spec.business_type_of (u "email") s)))
        <-> exists row, In row (Spec.sampled Spec.scenario_1 100)
                        /\ Spec.branded 1000 (u "email") row (u "email")).
Proof.
  destruct (Csv.generate_csv_schema 1000 (Some Spec.scenario_1) 100) as [s|e] eqn:E;
    [|vm_compute in E; discriminate E].
  exists s. split; [reflexivity|].
  apply (csv_business_types 1000 Spec.scenario_1 100%Z s (u "email") E).
  right. right. left. reflexivity.
Defined.

Lemma csv_sample_prefix_witness :
  Csv.generate_csv_schema 1000
    (Some ([u "c"] :: [[u "abc"]] ++ [[u "-5"]])) 1
  = Csv.generate_csv_schema 1000 (Some ([u "c"] :: [[u "abc"]])) 1.
Proof.
  apply (csv_sample_prefix 1000 [u "c"] [[u "abc"]] [[u "-5"]] 1%Z). cbn. lia.
Defined.

Lemma csv_raises_witness :
  exists row h,
    In row (Spec.sampled [[u "c"]; [Spec.nested 6]] 100) /\ In h [u "c"]
    /\ DataInfer.infer_types 5 (Csv.row_get h row) = Raise RecursionError.
Proof.
  apply (csv_raises 5 [[u "c"]; [Spec.nested 6]] 100%Z RecursionError).
  vm_compute. reflexivity.
Defined.

Lemma csv_short_record_witness :
  exists s,
    Csv.generate_csv_schema 1000 (Some Spec.ragged) 100 = Ok s
    /\ ~ In (u "b") (Schema.required s).
Proof.
  destruct (Csv.generate_csv_schema 1000 (Some Spec.ragged) 100) as [s|e] eqn:E;
    [|vm_compute in E; discriminate E].
  exists s. split; [reflexivity|].
  apply (csv_short_record 1000 [u "a"; u "b"] [[u "x"; u "y"]; [u "z"]] 100%Z s
                          [u "z"] 1 (u "b") E).
  - right. left. reflexivity.
  - reflexivity.
  - cbn. lia.
Defined.

(** ** Objects of a line-delimited source *)

Section Objects.
Import Schema Jsonl Spec.

Variable recursion_limit : nat.

Lemma next_field_raise (path : str) (b : bool) (kvs : list (str * json)) (e : exn) :
  fold_left (next_field recursion_limit path b) kvs (Raise e) = Raise e.
Proof. induction kvs as [|kv kvs IH]; [reflexivity | exact IH]. Qed.

(** [_process_nested_object] is the loop over the fields. *)
Lemma process_object_fold (path : str) (b : bool) (kvs : list (str * json)) :
  process_object recursion_limit (JDict kvs) path b
  = fold_left (next_field recursion_limit path b) kvs (Ok []).
Proof.
  cbn [process_object].
  generalize ([] : dict prop).
  induction kvs as [|[key value] kvs IH]; intros properties; [reflexivity|].
  cbn [fold_left]. unfold next_field at 2, field_schema.
  cbn [process_object fst snd]. unfold mbind at 1 2 3 4, result_bind.
  lazymatch goal with
  | |- match ?X with _ => _ end = _ => destruct X as [p|e]
  end.
  - rewrite IH. reflexivity.
  - symmetry. apply next_field_raise.
Qed.

Ltac shape := split; [reflexivity | split; [discriminate | intros _; split; reflexivity]].

(** What is known of the property of one field. *)
Lemma field_schema_shape (path : str) (b : bool) (key : str) (value : json) (p : prop) :
  field_schema recursion_limit path b key value = Ok p ->
  p_description p = Some (description_of path key value)
  /\ p_type p <> None
  /\ (structural b value = true ->
      p_type p = Some (VStr (_python_type_to_json_schema_type value))
      /\ p_business_type p = None).
Proof.
  unfold field_schema, description_of, structural.
  cbn [process_object]. unfold mbind, result_bind.
  destruct value as [ |x|n|r|t|l|d]; cbn [is_container _python_type_to_json_schema_type].
  - intros [= <-]. rewrite app_nil_r. shape.
  - destruct b; cbn [negb orb].
    + destruct (DataInfer.infer_types recursion_limit (Some (py_str (JBool x))))
        as [[bt dt]|e]; [|discriminate]. intros [= <-]. rewrite app_nil_r.
      split; [|split; [|discriminate]];
        destruct (_ && _), bt as [b0|]; try destruct (length b0 =? 0)%nat;
        first [reflexivity | discriminate].
    + intros [= <-]. rewrite app_nil_r. shape.
  - destruct b; cbn [negb orb].
    + destruct (DataInfer.infer_types recursion_limit (Some (py_str (JInt n))))
        as [[bt dt]|e]; [|discriminate]. intros [= <-]. rewrite app_nil_r.
      split; [|split; [|discriminate]];
        destruct (_ && _), bt as [b0|]; try destruct (length b0 =? 0)%nat;
        first [reflexivity | discriminate].
    + intros [= <-]. rewrite app_nil_r. shape.
  - destruct b; cbn [negb orb].
    + destruct (DataInfer.infer_types recursion_limit (Some (py_str (JFloat r))))
        as [[bt dt]|e]; [|discriminate]. intros [= <-]. rewrite app_nil_r.
      split; [|split; [|discriminate]];
        destruct (_ && _), bt as [b0|]; try destruct (length b0 =? 0)%nat;
        first [reflexivity | discriminate].
    + intros [= <-]. rewrite app_nil_r. shape.
  - destruct b; cbn [negb orb].
    + destruct (DataInfer.infer_types recursion_limit (Some (py_str (JStr t))))
        as [[bt dt]|e]; [|discriminate]. intros [= <-]. rewrite app_nil_r.
      split; [|split; [|discriminate]];
        destruct (_ && _), bt as [b0|]; try destruct (length b0 =? 0)%nat;
        first [reflexivity | discriminate].
    + intros [= <-]. rewrite app_nil_r. shape.
  - destruct l as [|first l].
    + intros [= <-]. shape.
    + destruct (scan_items recursion_limit b _ _) as [[item_types item_business_types]|e];
        [|discriminate].
      lazymatch goal with
      | |- match match match ?X with _ => _ end with _ => _ end with _ => _ end = _ -> _ =>
          destruct X as [items_schema|e]; [|discriminate]
      end.
      intros [= <-]. shape.
  - destruct (process_object recursion_limit (JDict d) (join_path path key) b)
      as [nested|e]; [|discriminate].
    intros [= <-]. shape.
Qed.

(** The loop over the fields: the keys it leaves, and what it leaves
    under each. *)
Lemma fold_fields (path : str) (b : bool) (kvs : list (str * json)) (acc ps : dict prop) :
  fold_left (next_field recursion_limit path b) kvs (Ok acc) = Ok ps ->
  dict_keys ps = extend (dict_keys acc) (map fst kvs)
  /\ forall key,
       (exists value p, In (key, value) kvs /\ dict_get key ps = Some p
                        /\ field_schema recursion_limit path b key value = Ok p)
       \/ (~ In key (map fst kvs) /\ dict_get key ps = dict_get key acc).
Proof.
  revert acc. induction kvs as [|[k v] kvs IH]; intros acc H.
  - injection H as <-. split; [reflexivity|]. intros key. right. split; [intros [] | reflexivity].
  - cbn [fold_left] in H. unfold next_field at 2 in H. cbn [fst snd] in H.
    unfold mbind, result_bind in H. cbn beta iota in H.
    destruct (field_schema recursion_limit path b k v) as [p0|e] eqn:E;
      [|rewrite next_field_raise in H; discriminate H].
    apply IH in H as [Hkeys Hget]. split.
    + rewrite Hkeys. cbn [map fst]. unfold extend. cbn [fold_left]. f_equal.
      rewrite dict_keys_set, str_in_keys. destruct (dict_get k acc); reflexivity.
    + intros key. destruct (Hget key) as [(value & p & Hin & Hp & Hf)|[Hnin Hp]].
      * left. exists value, p. split; [right; exact Hin | split; assumption].
      * destruct (decide (k = key)) as [->|Hne].
        -- left. exists v, p0. rewrite Hp, dict_get_set_eq.
           split; [left; reflexivity | split; [reflexivity | exact E]].
        -- right. rewrite Hp, dict_get_set_ne by exact Hne.
           split; [|reflexivity]. cbn [map fst]. intros [?|?]; contradiction.
Qed.

Lemma In_extend (seen l : list str) (k : str) :
  In k (extend seen l) <-> In k seen \/ In k l.
Proof.
  revert seen. induction l as [|x l IH]; intros seen; unfold extend; cbn [fold_left].
  - split; [auto | intros [H|[]]; exact H].
  - fold (extend (if str_in x seen then seen else seen ++ [x]) l). rewrite IH.
    destruct (str_in x seen) eqn:E.
    + apply str_in_In in E. cbn [In]. split; [intros [?|?]; auto | intros [?|[<-|?]]; auto].
    + rewrite in_app_iff. cbn [In].
      split; [intros [[?|[<-|[]]]|?]; auto | intros [?|[<-|?]]; auto].
Qed.

(** The schema of an object has one property for each distinct key, in
    the order of the keys; the property of a key is that of a value the
    object gives it; it is described by ["Field: "] and the path of the
    field, and its ["type"] is the JSON type of the value when the value
    is null or a container or when business types are off. *)
Theorem process_object_fields (obj : list (str * json)) (path : str)
  (use_business_types : bool) (ps : dict prop) :
  _process_nested_object recursion_limit obj path use_business_types = Ok ps ->
  dict_keys ps = distinct (map fst obj)
  /\ forall key, In key (map fst obj) ->
       exists value p,
         In (key, value) obj /\ dict_get key ps = Some p
         /\ p_description p = Some (description_of path key value)
         /\ p_type p <> None
         /\ (structural use_business_types value = true ->
             p_type p = Some (VStr (_python_type_to_json_schema_type value))
             /\ p_business_type p = None).
Proof.
  unfold _process_nested_object. rewrite process_object_fold. intros H.
  apply fold_fields in H as [Hkeys Hget]. split; [exact Hkeys|].
  intros key Hin. destruct (Hget key) as [(value & p & Hv & Hp & Hf)|[Hn _]];
    [|contradiction].
  exists value, p. split; [exact Hv|]. split; [exact Hp|].
  apply field_schema_shape in Hf. exact Hf.
Qed.

Lemma scan_items_off (l : list json) (acc : tags * tags) :
  exists sets, scan_items recursion_limit false l acc = Ok sets.
Proof.
  revert acc. induction l as [|item l IH]; intros acc; cbn [scan_items]; eauto.
Qed.

(** With business types off the classifier is not called, and processing
    an object returns. *)
Lemma process_object_off (v : json) :
  (forall path, exists ps, process_object recursion_limit v path false = Ok ps)
  /\ (forall first l path,
        v = JList (first :: l) ->
        exists ps, process_object recursion_limit first path false = Ok ps).
Proof.
  induction v as [ | | | | |l IHl|d IHd] using json_ind';
    try (split; [intros path; eexists; reflexivity | discriminate]).
  - split; [intros path; eexists; reflexivity|].
    intros first l' path [= ->]. apply Forall_inv in IHl as [H _]. apply H.
  - split; [|discriminate]. intros path. rewrite process_object_fold.
    generalize ([] : dict prop). induction IHd as [|[k v] d [Hv Hfirst] _ IH]; intros acc.
    + eexists. reflexivity.
    + cbn [fold_left]. unfold next_field at 2. cbn [fst snd] in *.
      assert (Hf : exists p, field_schema recursion_limit path false k v = Ok p).
      { unfold field_schema. cbn [process_object]. unfold mbind, result_bind.
        destruct v as [ |x|n|r|t|l|d']; try (eexists; reflexivity).
        - destruct l as [|first l]; [eexists; reflexivity|].
          destruct (scan_items_off (firstn (Nat.min 10 (length (first :: l))) (first :: l))
                                   (∅, ∅)) as [[item_types item_business_types] ->].
          destruct (list_of item_types) as [|item_type [|]]; try (eexists; reflexivity).
          destruct first; try (eexists; reflexivity).
          destruct (str_eqb item_type (u "object")); [|eexists; reflexivity].
          destruct (Hfirst _ _ (join_path path k ++ u "[]") eq_refl) as [nested ->].
          eexists. reflexivity.
        - destruct (Hv (join_path path k)) as [nested ->]. eexists. reflexivity. }
      destruct Hf as [p ->]. unfold mbind, result_bind. apply IH.
Qed.

End Objects.

Lemma process_object_fields_witness :
  exists ps,
    Jsonl._process_nested_object 1000 [(u "value", Jsonl.JInt 123)] [] true = Ok ps
    /\ Schema.dict_keys ps = [u "value"].
Proof.
  destruct (Jsonl._process_nested_object 1000 [(u "value", Jsonl.JInt 123)] [] true)
    as [ps|e] eqn:E; [|vm_compute in E; discriminate E].
  exists ps. split; [reflexivity|].
  exact (proj1 (process_object_fields 1000 [(u "value", Jsonl.JInt 123)] [] true ps E)).
Defined.

(** ** Merged keys *)

Section MergedKeys.
Import Schema Jsonl Spec.

Variable use_business_types : bool.

Lemma extend_app (seen a b : list str) : extend seen (a ++ b) = extend (extend seen a) b.
Proof. unfold extend. apply fold_left_app. Qed.

Lemma extend_cons (seen : list str) (x : str) (l : list str) :
  extend seen (x :: l) = extend (if str_in x seen then seen else seen ++ [x]) l.
Proof. reflexivity. Qed.

Lemma extend_extend (l acc seen : list str) :
  extend seen (extend acc l) = extend (extend seen acc) l.
Proof.
  revert acc. induction l as [|x l IH]; intros acc; [reflexivity|].
  rewrite !extend_cons, IH. f_equal. destruct (str_in x acc) eqn:Ea.
  - assert (str_in x (extend seen acc) = true) as ->; [|reflexivity].
    apply str_in_In, In_extend. right. apply str_in_In. exact Ea.
  - rewrite extend_app. reflexivity.
Qed.

Lemma merge_into_keys (prop_dict merged : dict prop) :
  dict_keys (merge_into use_business_types merged prop_dict)
  = extend (dict_keys merged) (dict_keys prop_dict).
Proof.
  revert merged. induction prop_dict as [|[k v] rest IH]; intros merged; [reflexivity|].
  rewrite merge_into_cons, IH. cbn [dict_keys map fst]. unfold extend. cbn [fold_left].
  f_equal. fold (dict_keys merged). rewrite str_in_keys.
  destruct (dict_get k merged) eqn:E; rewrite dict_keys_set, E; reflexivity.
Qed.

Lemma fold_merge_keys (l : list (dict prop)) (merged : dict prop) :
  dict_keys (fold_left (merge_into use_business_types) l merged)
  = extend (dict_keys merged) (concat (map dict_keys l)).
Proof.
  revert merged. induction l as [|d l IH]; intros merged; [reflexivity|].
  cbn [fold_left map concat]. rewrite IH, merge_into_keys, extend_app. reflexivity.
Qed.

Lemma fold_merge_other (l : list (dict prop)) (merged : dict prop) (k : str) :
  Forall distinct_keys l -> (forall d, In d l -> dict_get k d = None) ->
  dict_get k (fold_left (merge_into use_business_types) l merged) = dict_get k merged.
Proof.
  intros Hd. revert merged. induction Hd as [|d l Hd _ IH]; intros merged Hk; [reflexivity|].
  cbn [fold_left]. rewrite IH by (intros d' Hd'; apply Hk; right; exact Hd').
  rewrite merge_into_lookup by exact Hd. rewrite (Hk d) by (left; reflexivity). reflexivity.
Qed.

(** The merged map has the keys of all the maps, each once, in the order
    in which they first occur; a property under a key that only one of
    the maps has is taken over as it is. *)
Theorem merge_keys (properties_list : list (dict prop)) :
  dict_keys (_merge_properties use_business_types properties_list)
  = distinct (concat (map dict_keys properties_list))
  /\ forall (l1 l2 : list (dict prop)) (d : dict prop) (k : str) (p : prop),
       properties_list = l1 ++ d :: l2 ->
       Forall distinct_keys properties_list ->
       dict_get k d = Some p ->
       (forall d', In d' (l1 ++ l2) -> dict_get k d' = None) ->
       dict_get k (_merge_properties use_business_types properties_list) = Some p.
Proof.
  unfold _merge_properties. split; [apply fold_merge_keys|].
  intros l1 l2 d k p -> Hd Hp Hk.
  apply Forall_app in Hd as [Hd1 Hd2]. apply Forall_cons in Hd2 as [Hd Hd2].
  rewrite fold_left_app. cbn [fold_left].
  rewrite fold_merge_other;
    [|exact Hd2 | intros d' Hd'; apply Hk, in_or_app; right; exact Hd'].
  rewrite merge_into_lookup by exact Hd. rewrite Hp.
  rewrite fold_merge_other;
    [reflexivity | exact Hd1 | intros d' Hd'; apply Hk, in_or_app; left; exact Hd'].
Qed.
End MergedKeys.

Lemma merge_keys_witness :
  Schema.dict_get (u "y")
    (Jsonl._merge_properties true
       ([Spec.just (Schema.VStr (u "string")) None]
        ++ [(u "x", Schema.Property (Some (Schema.VStr (u "integer"))) None None None None);
            (u "y", Schema.Property (Some (Schema.VStr (u "boolean"))) None None None None)]
        :: [Spec.just (Schema.VStr (u "number")) None]))
  = Some (Schema.Property (Some (Schema.VStr (u "boolean"))) None None None None)
  /\ Spec.type_at (u "x")
       (Jsonl._merge_properties true
          ([Spec.just (Schema.VStr (u "string")) None]
           ++ [(u "x", Schema.Property (Some (Schema.VStr (u "integer"))) None None None None);
               (u "y", Schema.Property (Some (Schema.VStr (u "boolean"))) None None None None)]
           :: [Spec.just (Schema.VStr (u "number")) None]))
     = Some (Spec.tag_list [u "string"; u "integer"; u "number"]).
Proof.
  split; [|vm_compute; reflexivity].
  apply (proj2 (merge_keys true _)
               [Spec.just (Schema.VStr (u "string")) None]
               [Spec.just (Schema.VStr (u "number")) None]
               [(u "x", Schema.Property (Some (Schema.VStr (u "integer"))) None None None None);
                (u "y", Schema.Property (Some (Schema.VStr (u "boolean"))) None None None None)]
               (u "y")).
  - reflexivity.
  - repeat constructor; cbn; intros H;
      repeat (destruct H as [H|H]; [discriminate H|]); exact H.
  - reflexivity.
  - intros d' [<-|[<-|[]]]; reflexivity.
Defined.

(** ** Reading lines *)

Section Lines.
Import Schema Jsonl Spec.

Variable recursion_limit : nat.

Lemma read_lines_break (lines : list line) (sample_rows : Z) (b : bool) (st : reading) :
  (sample_rows <=? row_count st)%Z = true ->
  read_lines recursion_limit lines sample_rows b st = Ok st.
Proof. intros H. destruct lines as [|l lines]; [reflexivity|]. cbn [read_lines]. rewrite H. reflexivity. Qed.

Lemma read_lines_filter (lines : list line) (sample_rows : Z) (b : bool) (st : reading) :
  read_lines recursion_limit (List.filter (fun l => negb (skipped l)) lines) sample_rows b st
  = read_lines recursion_limit lines sample_rows b st.
Proof.
  revert st. induction lines as [|l lines IH]; intros st; [reflexivity|].
  cbn [List.filter]. destruct (skipped l) eqn:Es; cbn [negb].
  - rewrite IH. cbn [read_lines].
    destruct (sample_rows <=? row_count st)%Z eqn:Eb; [apply read_lines_break; exact Eb|].
    destruct l as [|[obj|[]]]; try discriminate Es; reflexivity.
  - cbn [read_lines]. destruct (sample_rows <=? row_count st)%Z; [reflexivity|].
    destruct l as [|[obj|e]]; [discriminate Es| |].
    + destruct obj; try apply IH.
      destruct (_process_nested_object recursion_limit d [] b) as [sch|e]; [|reflexivity].
      unfold mbind, result_bind. apply IH.
    + destruct e; try reflexivity. discriminate Es.
Qed.

(** Blank lines and lines that are not JSON are passed over: the schema
    is that of the file without them. *)
Theorem jsonl_skipped_lines (lines : list line) (sample_rows : Z)
  (use_business_types : bool) :
  generate_jsonl_schema recursion_limit (Some lines) sample_rows use_business_types
  = generate_jsonl_schema recursion_limit
      (Some (List.filter (fun l => negb (skipped l)) lines)) sample_rows use_business_types.
Proof. unfold generate_jsonl_schema. rewrite read_lines_filter. reflexivity. Qed.

Lemma read_lines_prefix (lines more : list line) (sample_rows : Z) (b : bool)
  (st : reading) :
  (sample_rows - row_count st <= Z.of_nat (length (List.filter is_object lines)))%Z ->
  read_lines recursion_limit (lines ++ more) sample_rows b st
  = read_lines recursion_limit lines sample_rows b st.
Proof.
  revert st. induction lines as [|l lines IH]; intros st H.
  - cbn [app]. cbn in H. rewrite read_lines_break by (apply Z.leb_le; lia). reflexivity.
  - cbn [app read_lines]. destruct (sample_rows <=? row_count st)%Z; [reflexivity|].
    cbn [List.filter] in H.
    destruct l as [|[obj|e]]; cbn [is_object] in H.
    + apply IH. exact H.
    + destruct obj; cbn [length] in H; try (apply IH; exact H).
      destruct (_process_nested_object recursion_limit d [] b) as [sch|e]; [|reflexivity].
      unfold mbind, result_bind. apply IH. cbn [row_count]. lia.
    + destruct e; try reflexivity. apply IH. exact H.
Qed.

(** Reading stops once [sample_rows] objects have been processed: the
    lines that follow are not decoded, and the result is what it is
    without them. *)
Theorem jsonl_sample_prefix (lines more : list line) (sample_rows : Z)
  (use_business_types : bool) :
  (sample_rows <= Z.of_nat (length (List.filter is_object lines)))%Z ->
  generate_jsonl_schema recursion_limit (Some (lines ++ more)) sample_rows use_business_types
  = generate_jsonl_schema recursion_limit (Some lines) sample_rows use_business_types.
Proof.
  intros H. unfold generate_jsonl_schema.
  rewrite read_lines_prefix by (cbn [row_count start]; lia). reflexivity.
Qed.

Lemma read_lines_raises (lines : list line) (sample_rows : Z) (st : reading) (e : exn) :
  read_lines recursion_limit lines sample_rows false st = Raise e ->
  In (Text (Raise e)) lines /\ e <> JSONDecodeError.
Proof.
  revert st. induction lines as [|l lines IH]; intros st H; [discriminate H|].
  cbn [read_lines] in H. destruct (sample_rows <=? row_count st)%Z; [discriminate H|].
  destruct l as [|[obj|e']].
  - apply IH in H as [H1 H2]. split; [right; exact H1 | exact H2].
  - destruct obj; try (apply IH in H as [H1 H2]; split; [right; exact H1 | exact H2]).
    destruct (proj1 (process_object_off recursion_limit (JDict d)) []) as [sch E].
    unfold _process_nested_object in H. rewrite E in H. unfold mbind, result_bind in H.
    apply IH in H as [H1 H2]. split; [right; exact H1 | exact H2].
  - destruct e'; try (injection H as <-; split; [left; reflexivity | discriminate]).
    apply IH in H as [H1 H2]. split; [right; exact H1 | exact H2].
Qed.

(** With business types off, and when the lines of the file are read as
    text without error (the file is given by its lines), the generator
    raises only [FileNotFoundError], when there is no file, or what
    [json.loads] raised on a line, which is then not [JSONDecodeError].
    (The call stack is taken to be deep enough for the generator's own
    recursion on the decoded objects.) *)
Theorem jsonl_raises_off (file : option (list line)) (sample_rows : Z) (e : exn) :
  generate_jsonl_schema recursion_limit file sample_rows false = Raise e ->
  (file = None /\ e = FileNotFoundError)
  \/ (exists lines, file = Some lines /\ In (Text (Raise e)) lines /\ e <> JSONDecodeError).
Proof.
  unfold generate_jsonl_schema. destruct file as [lines|]; [|intros [= <-]; left; auto].
  intros H. right. exists lines. split; [reflexivity|].
  destruct (read_lines recursion_limit lines sample_rows false start) as [st|e'] eqn:E.
  - unfold mbind, result_bind in H. destruct (object_schemas st); discriminate H.
  - injection H as <-. exact (read_lines_raises _ _ _ _ E).
Qed.

(** The schemas collected are those of the records processed. *)
Lemma read_lines_schemas (lines : list line) (sample_rows : Z) (b : bool)
  (st st' : reading) :
  read_lines recursion_limit lines sample_rows b st = Ok st' ->
  exists new,
    object_schemas st' = object_schemas st ++ new
    /\ Forall2 (fun record sch => process_object recursion_limit record [] b = Ok sch)
               (records_of (lines_read lines sample_rows (row_count st))) new.
Proof.
  revert st. induction lines as [|l lines IH]; intros st H.
  - injection H as <-. exists []. rewrite app_nil_r. split; [reflexivity | constructor].
  - cbn [read_lines lines_read] in *. destruct (sample_rows <=? row_count st)%Z.
    { injection H as <-. exists []. rewrite app_nil_r. split; [reflexivity | constructor]. }
    destruct l as [|[obj|e]]; cbn [is_object records_of flat_map app].
    + apply IH in H. exact H.
    + destruct obj; try (apply IH in H; exact H).
      destruct (_process_nested_object recursion_limit d [] b) as [sch|e] eqn:E;
        [|discriminate H].
      unfold mbind, result_bind in H. apply IH in H as (new & Hs & Hf).
      cbn [object_schemas row_count] in Hs, Hf.
      exists (sch :: new). rewrite Hs, <- app_assoc. split; [reflexivity|].
      constructor; [exact E | exact Hf].
    + destruct e; try discriminate H. apply IH in H. exact H.
Qed.

Lemma distinct_In (l : list str) (k : str) : In k (distinct l) <-> In k l.
Proof. unfold distinct. rewrite In_extend. cbn [In]. tauto. Qed.

(** The properties of the schema are the distinct top-level keys of the
    records processed, in the order in which they first occur; when the
    records have distinct, non-empty keys, every required field is one
    of them. *)
Theorem jsonl_properties_keys (lines : list line) (sample_rows : Z)
  (use_business_types : bool) (s : schema) :
  generate_jsonl_schema recursion_limit (Some lines) sample_rows use_business_types = Ok s ->
  let records := records_of (lines_read lines sample_rows 0) in
  dict_keys (properties s) = distinct (concat (map fields_of records))
  /\ (Forall proper_record records ->
      forall k, In k (required s) -> In k (dict_keys (properties s))).
Proof.
  intros H records.
  assert (Hkeys : dict_keys (properties s) = distinct (concat (map fields_of records))).
  { unfold generate_jsonl_schema in H.
    destruct (read_lines recursion_limit lines sample_rows use_business_types start)
      as [st|e] eqn:E; [|discriminate H].
    unfold mbind, result_bind in H.
    apply read_lines_schemas in E as (new & Hs & Hf). cbn [object_schemas start app] in Hs.
    cbn [row_count start] in Hf. fold records in Hf. rewrite Hs in H.
    assert (Hk : concat (map dict_keys new)
                 = concat (map (fun r => distinct (fields_of r)) records)).
    { clear H Hs. induction Hf as [|r sch rs schs Hr _ IH]; [reflexivity|].
      cbn [map concat]. rewrite IH. f_equal.
      destruct r as [ | | | | | |kvs]; try (injection Hr as <-; reflexivity).
      rewrite process_object_fold in Hr. exact (proj1 (fold_fields _ _ _ _ _ _ Hr)). }
    assert (Hd : forall (l : list json) (seen : list str),
               extend seen (concat (map (fun r => distinct (fields_of r)) l))
               = extend seen (concat (map fields_of l))).
    { induction l as [|r l IH]; intros seen; [reflexivity|].
      cbn [map concat]. rewrite !extend_app, IH. f_equal.
      unfold distinct. rewrite extend_extend. reflexivity. }
    destruct new as [|sch new]; injection H as <-; cbn [properties].
    - inversion Hf as [Hr|]. reflexivity.
    - unfold _merge_properties. rewrite fold_merge_keys, Hk. apply Hd. }
  split; [exact Hkeys|].
  intros Hproper k Hk. rewrite Hkeys. apply distinct_In.
  apply (jsonl_required recursion_limit _ _ _ _ H Hproper) in Hk as (_ & Hne & Hall & _).
  fold records in Hne, Hall.
  destruct records as [|r rs]; [contradiction|].
  cbn [map concat]. apply in_or_app. left. apply Hall. left. reflexivity.
Qed.
End Lines.

Lemma jsonl_sample_prefix_witness :
  Jsonl.generate_jsonl_schema 1000 (Some (Spec.scenario_3 ++ [Jsonl.Text (Raise ValueError)])) 3 true
  = Jsonl.generate_jsonl_schema 1000 (Some Spec.scenario_3) 3 true.
Proof.
  apply (jsonl_sample_prefix 1000 Spec.scenario_3 [Jsonl.Text (Raise ValueError)] 3%Z true).
  cbn. lia.
Defined.

Lemma jsonl_raises_off_witness :
  exists lines,
    Some [Jsonl.Text (Raise ValueError)] = Some lines
    /\ In (Jsonl.Text (Raise ValueError)) lines /\ ValueError <> JSONDecodeError.
Proof.
  destruct (jsonl_raises_off 1000 (Some [Jsonl.Text (Raise ValueError)]) 100%Z ValueError)
    as [[H _]|H]; [reflexivity | discriminate H | exact H].
Defined.

Lemma jsonl_properties_keys_witness :
  exists s,
    Jsonl.generate_jsonl_schema 1000 (Some Spec.scenario_3) 100 true = Ok s
    /\ Schema.dict_keys (Schema.properties s) = [u "value"]
    /\ forall k, In k (Schema.required s) -> In k (Schema.dict_keys (Schema.properties s)).
Proof.
  destruct (Jsonl.generate_jsonl_schema 1000 (Some Spec.scenario_3) 100 true)
    as [s|e] eqn:E; [|vm_compute in E; discriminate E].
  destruct (jsonl_properties_keys 1000 Spec.scenario_3 100%Z true s E) as [Hk Hr].
  exists s. split; [reflexivity|]. split; [exact Hk|]. apply Hr.
  repeat constructor; simpl; intuition discriminate.
Defined.

(** ** Booleans *)

Section Booleans.
Import Schema Spec DataInfer.

Ltac split_blocks H :=
  repeat lazymatch type of H with
         | context [if ?b then _ else _] => destruct b
         | context [match ?x with _ => _ end] => destruct x
         end;
  try discriminate H.

Ltac listed := repeat first [left; reflexivity | right].

Lemma check_formats_within_later (fmts : list str) :
  within (tl rule_outcomes) (check_formats fmts).
Proof.
  induction fmts as [|fmt fmts IH]; intros value t H; cbn [check_formats] in H.
  - discriminate H.
  - destruct (Strptime.strptime value fmt) as [[]|e].
    + split_blocks H; injection H as <-; unfold rule_outcomes; cbn [tl]; listed.
    + destruct (is_ValueError e); [exact (IH _ _ H) | discriminate H].
Qed.

(** The blocks after the first do not return the data type [boolean]. *)
Lemma later_rules_within (recursion_limit : nat) :
  Forall (within (tl rule_outcomes)) (tl (rules recursion_limit)).
Proof.
  unfold rules. cbn [tl].
  repeat lazymatch goal with |- Forall _ _ => constructor end.
  13: exact (check_formats_within_later date_time_formats).
  all: intros value t H;
    unfold check_uuid, check_email, check_url, check_ipv4, check_ipv6,
      check_mac, check_credit_card, check_phone, check_json, check_array,
      check_percentage, check_currency, check_timestamp, check_integer, check_float,
      check_decimal, check_postal, check_isbn, check_base64, check_hex_color,
      returns, falls_through in H;
    unfold mbind, result_bind in H;
    once (split_blocks H); injection H as <-; unfold rule_outcomes; cbn [tl]; listed.
Qed.

(** The data type [boolean] is returned exactly for the ten words of the
    first block, in any letter case and with any surrounding whitespace. *)
Theorem infer_types_boolean (recursion_limit : nat) (raw : str) :
  (exists business_type,
     infer_types recursion_limit (Some raw) = Ok (business_type, u "boolean"))
  <-> str_in (lower (strip raw)) boolean_words = true.
Proof.
  unfold infer_types.
  destruct (str_eqb (strip raw) []) eqn:E.
  - rewrite orb_true_r. apply str_eqb_eq in E. rewrite E.
    split; [intros [bt H]; discriminate H | discriminate].
  - assert ((length raw =? 0)%nat = false) as ->.
    { destruct raw; [discriminate E | reflexivity]. }
    cbn [orb].
    change (first_match (rules recursion_limit) (strip raw))
      with (check_boolean (strip raw) ≫= fun t : option types =>
            match t with
            | Some _ => Ok t
            | None => first_match (tl (rules recursion_limit)) (strip raw)
            end).
    unfold check_boolean.
    change [u "true"; u "false"; u "1"; u "0"; u "yes"; u "no"; u "y"; u "n"; u "t"; u "f"]
      with boolean_words.
    destruct (str_in (lower (strip raw)) boolean_words).
    + split; [reflexivity | intros _; eexists; reflexivity].
    + split; [|discriminate]. intros [bt H]. exfalso.
      unfold falls_through, mbind, result_bind in H. cbn beta iota in H.
      destruct (first_match (tl (rules recursion_limit)) (strip raw)) as [[t'|]|e] eqn:F;
        try discriminate H.
      injection H as ->.
      apply (first_match_within _ _ (later_rules_within recursion_limit)) in F.
      unfold rule_outcomes in F. cbn [tl In] in F.
      repeat (destruct F as [F|F]; [discriminate F|]). exact F.
Qed.
End Booleans.

(** ** The Parquet type mapping *)

Section ParquetTypes.
Import Schema Spec Parquet.

Lemma dict_get_values {V} (k : str) (d : dict V) (v : V) :
  dict_get k d = Some v -> In v (map snd d).
Proof. intros H. apply dict_get_In in H. change v with (snd (k, v)). apply in_map. exact H. Qed.

(** The mapping returns one of eight JSON Schema types, whatever the
    Parquet type is called. *)
Theorem parquet_type_known (parquet_type : str) :
  In (_parquet_type_to_json_schema_type parquet_type) parquet_json_types.
Proof.
  unfold _parquet_type_to_json_schema_type, parquet_json_types.
  destruct (_ || _); [repeat first [left; reflexivity | right]|].
  destruct (dict_get _ type_mapping) as [t|] eqn:E;
    [|repeat first [left; reflexivity | right]].
  apply dict_get_values in E. unfold type_mapping in E. cbn [map snd In] in E.
  repeat (destruct E as [<-|E]; [repeat first [left; reflexivity | right]|]).
  destruct E.
Qed.

Lemma starts_with_app (prefix base rest : str) (sep : N) :
  has_char sep prefix = false ->
  starts_with prefix (base ++ sep :: rest) = starts_with prefix base.
Proof.
  revert base. induction prefix as [|c prefix IH]; intros base H; [destruct base; reflexivity|].
  unfold has_char in H. cbn [existsb] in H. apply orb_false_iff in H as [Hc Hp].
  destruct base as [|x base]; cbn [app starts_with].
  - rewrite Hc. reflexivity.
  - rewrite IH by exact Hp. reflexivity.
Qed.

Lemma str_eqb_starts_with (s prefix : str) :
  str_eqb s prefix = true -> starts_with prefix s = true.
Proof.
  intros H. apply str_eqb_eq in H. subst s.
  induction prefix as [|c prefix IH]; [reflexivity|].
  cbn [starts_with]. rewrite N.eqb_refl. exact IH.
Qed.

Lemma split_first (sep : N) (s : str) : split sep s = before sep s :: tl (split sep s).
Proof.
  unfold before. destruct s as [|c s]; [reflexivity|]. cbn [split].
  destruct (c =? sep); [reflexivity|]. destruct (split sep s); reflexivity.
Qed.

Lemma before_app (sep : N) (base rest : str) :
  has_char sep base = false ->
  before sep (base ++ rest) = base ++ before sep rest.
Proof.
  induction base as [|c base IH]; intros H; [reflexivity|].
  unfold has_char in H. cbn [existsb] in H. apply orb_false_iff in H as [Hc Hb].
  specialize (IH Hb). unfold before at 1. cbn [app split]. rewrite N.eqb_sym, Hc.
  rewrite split_first, IH. reflexivity.
Qed.

Lemma before_sep (sep : N) (rest : str) : before sep (sep :: rest) = [].
Proof. unfold before. cbn [split]. rewrite N.eqb_refl. reflexivity. Qed.

Lemma before_none (sep : N) (s : str) : has_char sep s = false -> before sep s = s.
Proof.
  intros H. pose proof (before_app sep s [] H) as E.
  change (before sep []) with ([] : str) in E. rewrite !app_nil_r in E. exact E.
Qed.

(** What follows the first bracket or parenthesis of a Parquet type is
    not looked at: a type with parameters maps like its base type. *)
Theorem parquet_type_parameters (base rest : str) (sep : N) :
  sep = ch "[" \/ sep = ch "(" ->
  has_char (ch "[") base = false -> has_char (ch "(") base = false ->
  _parquet_type_to_json_schema_type (base ++ sep :: rest)
  = _parquet_type_to_json_schema_type base.
Proof.
  intros Hsep Hb Hp. unfold _parquet_type_to_json_schema_type.
  assert (Hn : starts_with (u "null") (base ++ sep :: rest) = starts_with (u "null") base)
    by (apply starts_with_app; destruct Hsep as [-> | ->]; reflexivity).
  assert (Hor : forall s, starts_with (u "null") s || str_eqb s (u "null")
                          = starts_with (u "null") s).
  { intros s. destruct (str_eqb s (u "null")) eqn:E; [|apply orb_false_r].
    rewrite (str_eqb_starts_with _ _ E). reflexivity. }
  rewrite !Hor, Hn. destruct (starts_with (u "null") base); [reflexivity|].
  assert (Hbase : before (ch "(") (before (ch "[") (base ++ sep :: rest)) = base).
  { destruct Hsep as [-> | ->].
    - rewrite (before_app (ch "[") base _ Hb), (before_sep (ch "[")), app_nil_r.
      apply before_none. exact Hp.
    - rewrite (before_app (ch "[") base _ Hb).
      rewrite (before_app (ch "(") base _ Hp).
      assert (Hs : before (ch "(") (before (ch "[") (ch "(" :: rest)) = []).
      { unfold before at 2. cbn [split]. change (ch "(" =? ch "[") with false. cbn iota.
        destruct (split (ch "[") rest); cbn [hd]; apply before_sep. }
      rewrite Hs. apply app_nil_r. }
  rewrite Hbase, (before_none (ch "[") base Hb), (before_none (ch "(") base Hp).
  reflexivity.
Qed.
End ParquetTypes.

Lemma parquet_type_parameters_witness :
  Parquet._parquet_type_to_json_schema_type (u "timestamp" ++ ch "[" :: u "ns, tz=UTC]")
  = Parquet._parquet_type_to_json_schema_type (u "timestamp").
Proof.
  apply (parquet_type_parameters (u "timestamp") (u "ns, tz=UTC]") (ch "["));
    [left; reflexivity | reflexivity | reflexivity].
Defined.

(** ** The download from S3 *)

Section Download.
Import Schema Spec S3.

Variable client_error : Type.

Lemma split_once_app (sep : N) (bucket key : str) :
  has_char sep bucket = false ->
  split_once sep (bucket ++ sep :: key) = [bucket; key].
Proof.
  induction bucket as [|c bucket IH]; intros H; cbn [app split_once].
  - rewrite N.eqb_refl. reflexivity.
  - unfold has_char in H. cbn [existsb] in H. apply orb_false_iff in H as [Hc Hb].
    rewrite N.eqb_sym, Hc, IH by exact Hb. reflexivity.
Qed.

Lemma split_once_inv (sep : N) (s bucket key : str) :
  split_once sep s = [bucket; key] ->
  s = bucket ++ sep :: key /\ has_char sep bucket = false.
Proof.
  revert bucket. induction s as [|c s IH]; intros bucket H; [discriminate H|].
  cbn [split_once] in H. destruct (c =? sep) eqn:E.
  - injection H as <- <-. apply N.eqb_eq in E. subst c. split; reflexivity.
  - destruct (split_once sep s) as [|p [|q [|]]] eqn:Es; try discriminate H.
    injection H as <- <-. destruct (IH p eq_refl) as [-> Hp].
    split; [reflexivity|]. unfold has_char. cbn [existsb]. fold (has_char sep p).
    rewrite N.eqb_sym, E, Hp. reflexivity.
Qed.

Lemma starts_with_inv (prefix s : str) :
  Parquet.starts_with prefix s = true -> s = prefix ++ skipn (length prefix) s.
Proof.
  revert s. induction prefix as [|c prefix IH]; intros s H; [reflexivity|].
  destruct s as [|x s]; [discriminate H|]. cbn [Parquet.starts_with] in H.
  apply andb_true_iff in H as [Hx Hs]. apply N.eqb_eq in Hx. subst x.
  cbn [length skipn app]. f_equal. apply IH. exact Hs.
Qed.

(** With [boto3] at hand, [download_from_s3] calls the client exactly on
    the URIs [s3://bucket/key], where the bucket is what stands before
    the first slash (the bucket or the key may be empty), and returns the
    local path when the client does; every other URI raises [ValueError]
    whatever the client would do. *)
Theorem download_from_s3_uri (download_file : str -> str -> str -> option client_error)
  (s3_uri local_path : str) :
  (forall bucket key,
     s3_uri = u "s3://" ++ bucket ++ ch "/" :: key -> has_char (ch "/") bucket = false ->
     download_from_s3 client_error (Some download_file) s3_uri local_path
     = match download_file bucket key local_path with
       | Some e => RaisesClientError client_error e
       | None => Returns client_error local_path
       end)
  /\ ((forall bucket key, s3_uri <> u "s3://" ++ bucket ++ ch "/" :: key) ->
      download_from_s3 client_error (Some download_file) s3_uri local_path
      = RaisesValueError client_error).
Proof.
  unfold download_from_s3. split.
  - intros bucket key -> Hb.
    replace (Parquet.starts_with (u "s3://") (u "s3://" ++ bucket ++ ch "/" :: key))
      with true by reflexivity.
    replace (skipn 5 (u "s3://" ++ bucket ++ ch "/" :: key))
      with (bucket ++ ch "/" :: key) by reflexivity.
    cbn [negb]. rewrite split_once_app by exact Hb. reflexivity.
  - intros Hno. destruct (Parquet.starts_with (u "s3://") s3_uri) eqn:Es; [|reflexivity].
    cbn [negb]. apply starts_with_inv in Es. change (length (u "s3://")) with 5%nat in Es.
    destruct (split_once (ch "/") (skipn 5 s3_uri)) as [|bucket [|key [|]]] eqn:E;
      try reflexivity.
    exfalso. apply split_once_inv in E as [E _]. apply (Hno bucket key).
    rewrite Es at 1. rewrite E. reflexivity.
Qed.

(** Without [boto3] the call raises [ImportError] before it looks at
    the URI. *)
Lemma download_without_boto3 (s3_uri local_path : str) :
  download_from_s3 client_error None s3_uri local_path = RaisesImportError client_error.
Proof. reflexivity. Qed.
End Download.

Lemma download_from_s3_uri_witness :
  S3.download_from_s3 Empty_set (Some Spec.obliging)
    (u "s3://" ++ u "bucket" ++ ch "/" :: u "dir/file.csv") (u "/tmp/file.csv")
  = S3.Returns Empty_set (u "/tmp/file.csv").
Proof.
  apply (proj1 (download_from_s3_uri Empty_set Spec.obliging
                  (u "s3://" ++ u "bucket" ++ ch "/" :: u "dir/file.csv")
                  (u "/tmp/file.csv")) (u "bucket") (u "dir/file.csv"));
    reflexivity.
Defined.

(** ** Patterns and their languages *)

Section Languages.
Import Schema Spec Re.

Lemma nullable_sound (r : re) : nullable r = true -> lang r [].
Proof.
  induction r as [ | |p|r1 IH1 r2 IH2|r1 IH1 r2 IH2|r1 IH1]; cbn [nullable lang];
    try discriminate; try reflexivity.
  - intros [H1 H2]%andb_true_iff. exists [], []. auto.
  - intros [H|H]%orb_true_iff; auto.
  - intros _. constructor.
Qed.

Lemma cat_sound (r1 r2 : re) (s : str) : lang (cat r1 r2) s -> lang (Cat r1 r2) s.
Proof.
  assert (Hl : lang r2 s -> lang (Cat Eps r2) s) by (intros H; exists [], s; cbn; auto).
  assert (Hr : lang r1 s -> lang (Cat r1 Eps) s)
    by (intros H; exists s, []; rewrite app_nil_r; cbn; auto).
  destruct r1, r2; cbn [cat]; try exact (fun H => H); try exact Hl; try exact Hr;
    try (intros []).
Qed.

Lemma alt_sound (r1 r2 : re) (s : str) : lang (alt r1 r2) s -> lang (Alt r1 r2) s.
Proof.
  destruct r1, r2; cbn [alt]; try exact (fun H => H);
    try (intros H; right; exact H); try (intros H; left; exact H).
Qed.

Lemma deriv_sound (c : N) (r : re) : forall s, lang (deriv c r) s -> lang r (c :: s).
Proof.
  induction r as [ | |p|r1 IH1 r2 IH2|r1 IH1 r2 IH2|r1 IH1]; intros s; cbn [deriv].
  - intros [].
  - intros [].
  - destruct (p c) eqn:E; [|intros []]. intros ->. exists c. auto.
  - intros H. apply alt_sound in H as [H|H].
    + apply cat_sound in H as (s1 & s2 & -> & H1 & H2).
      exists (c :: s1), s2. auto.
    + destruct (nullable r1) eqn:E; [|destruct H].
      exists [], (c :: s). split; [reflexivity|]. split; [apply nullable_sound, E | auto].
  - intros H. apply alt_sound in H as [H|H]; [left | right]; auto.
  - intros H. apply cat_sound in H as (s1 & s2 & -> & H1 & H2).
    change (c :: s1 ++ s2) with ((c :: s1) ++ s2). constructor; auto.
Qed.

(** A text that a pattern matches is in the language of the pattern. *)
Lemma matches_sound (s : str) : forall r, matches r s = true -> lang r s.
Proof.
  induction s as [|c s IH]; intros r; cbn [matches].
  - apply nullable_sound.
  - intros H. apply deriv_sound, IH, H.
Qed.

Ltac break :=
  repeat match goal with
         | H : exists _, _ |- _ => destruct H
         | H : _ /\ _ |- _ => destruct H
         | H : _ \/ _ |- _ => destruct H
         | H : False |- _ => destruct H
         end; subst.

Lemma lang_octet (p : str) : lang (between 1 3 d) p -> octet_text p.
Proof.
  unfold between, d. cbn [rep upto opt Nat.sub lang]. intros H. break;
    (split; [cbn; lia | repeat constructor; assumption]).
Qed.

(** A text that matches the IPv4 pattern is four groups of one to three
    decimal digits, with dots between them, and maybe a newline at the
    end. *)
Lemma ipv4_shape (value : str) :
  re_match ipv4_pattern value = true ->
  exists p1 p2 p3 p4 tail,
    value = p1 ++ ch "." :: p2 ++ ch "." :: p3 ++ ch "." :: p4 ++ tail
    /\ octet_text p1 /\ octet_text p2 /\ octet_text p3 /\ octet_text p4
    /\ (tail = [] \/ tail = [10]).
Proof.
  unfold re_match. intros H. apply matches_sound in H.
  destruct H as (v & tail & -> & Hv & Ht).
  unfold ipv4_pattern in Hv. cbn [rep] in Hv.
  destruct Hv as (v3 & p4 & -> & H3 & H4).
  destruct H3 as (g1 & r1 & -> & Hg1 & H3).
  destruct H3 as (g2 & r2 & -> & Hg2 & H3).
  destruct H3 as (g3 & r3 & -> & Hg3 & ->).
  destruct Hg1 as (p1 & dot1 & -> & Hp1 & (c1 & -> & Hc1)).
  destruct Hg2 as (p2 & dot2 & -> & Hp2 & (c2 & -> & Hc2)).
  destruct Hg3 as (p3 & dot3 & -> & Hp3 & (c3 & -> & Hc3)).
  apply N.eqb_eq in Hc1, Hc2, Hc3. subst c1 c2 c3.
  exists p1, p2, p3, p4, tail. split.
  - rewrite app_nil_r. repeat (rewrite <- ?app_assoc; cbn [app]). reflexivity.
  - repeat split; try (apply lang_octet; assumption).
    unfold dollar, opt, lit in Ht. cbn [lang] in Ht.
    destruct Ht as [(c & -> & Hc) | ->]; [|left; reflexivity].
    apply N.eqb_eq in Hc. subst c. right. reflexivity.
Qed.
End Languages.

(** ** What the classifier raises *)

Section Raising.
Import Schema Spec Num Json DataInfer.

Ltac raised H :=
  unfold mbind, result_bind in H;
  repeat first
    [ progress cbn beta iota in H
    | lazymatch type of H with
      | match (if ?b then _ else _) with _ => _ end = Raise _ => destruct b eqn:?
      | match (match ?x with _ => _ end) with _ => _ end = Raise _ => destruct x eqn:?
      | match ?x with _ => _ end = Raise _ => destruct x eqn:?
      | (if ?b then _ else _) = Raise _ => destruct b eqn:?
      end ];
  try discriminate H.

Lemma py_int_raises (s : str) (e : exn) : py_int s = Raise e -> e = ValueError.
Proof. unfold py_int. intros H. raised H; injection H as <-; reflexivity. Qed.

Lemma py_float_raises (s : str) (e : exn) : py_float s = Raise e -> e = ValueError.
Proof. unfold py_float. intros H. raised H; injection H as <-; reflexivity. Qed.

Lemma py_decimal_raises (s : str) (e : exn) : py_decimal s = Raise e -> e = InvalidOperation.
Proof. unfold py_decimal. intros H. raised H; injection H as <-; reflexivity. Qed.

Lemma int_or_raises (dflt : Z) (o : option str) (e : exn) :
  Strptime.int_or dflt o = Raise e -> e = ValueError.
Proof. destruct o; [apply py_int_raises | discriminate]. Qed.

Ltac value_error H :=
  injection H as <-;
  first [ reflexivity
        | eapply py_int_raises; eassumption
        | eapply int_or_raises; eassumption ].

Lemma utc_offset_raises (z : str) (e : exn) :
  Strptime.utc_offset z = Raise e -> e = ValueError.
Proof. unfold Strptime.utc_offset. intros H. raised H; value_error H. Qed.

(** [strptime] raises [ValueError] only. *)
Lemma strptime_raises (value fmt : str) (e : exn) :
  Strptime.strptime value fmt = Raise e -> e = ValueError.
Proof.
  unfold Strptime.strptime. intros H.
  raised H; first [ value_error H | injection H as <-; eapply utc_offset_raises; eassumption ].
Qed.

Lemma int_error_caught (digits : nat) : is_ValueError (int_error digits) = true.
Proof. unfold int_error. destruct (_ <? _)%nat; reflexivity. Qed.

Ltac json_error H :=
  injection H as <-;
  first [ left; reflexivity | left; apply int_error_caught | right; reflexivity ].

Lemma step_raises (limit : nat) (st : state) (c : N) (e : exn) :
  step limit st c = Raise e -> is_ValueError e = true \/ e = RecursionError.
Proof.
  unfold step, step_value, step_string, step_number, step_after, after_value.
  intros H. raised H; json_error H.
Qed.

Lemma run_raises (limit : nat) (s : str) :
  forall (st : state) (e : exn),
    run limit st s = Raise e -> is_ValueError e = true \/ e = RecursionError.
Proof.
  induction s as [|c s IH]; intros st e H; cbn [run] in H; [discriminate H|].
  unfold mbind, result_bind in H.
  destruct (step limit st c) as [st'|e'] eqn:E.
  - exact (IH _ _ H).
  - injection H as <-. exact (step_raises _ _ _ _ E).
Qed.

Lemma finish_raises (st : state) (e : exn) :
  finish st = Raise e -> is_ValueError e = true.
Proof.
  unfold finish. intros H.
  raised H; injection H as <-; first [reflexivity | apply int_error_caught].
Qed.

(** [json.loads] raises [JSONDecodeError], [ValueError] or
    [RecursionError]. *)
Lemma loads_raises (limit : nat) (s : str) (e : exn) :
  loads limit s = Raise e -> is_ValueError e = true \/ e = RecursionError.
Proof.
  unfold loads, mbind, result_bind. intros H.
  destruct (run limit (MValue false, []) s) as [st|e'] eqn:E.
  - destruct (finish st) as [[]|e'] eqn:F; [discriminate H|].
    injection H as <-. left. exact (finish_raises _ _ F).
  - injection H as <-. exact (run_raises _ _ _ _ E).
Qed.

(** *** The IPv4 block: [int] on what the pattern lets through *)

Lemma in_block (start n c : N) : start <= c < start + n -> In c (block start n).
Proof.
  intros H. unfold block. apply in_map_iff. exists (N.to_nat (c - start)). split; [rewrite N2Nat.id; lia|].
  apply in_seq. lia.
Qed.

(** A decimal digit below 127 is an ASCII digit; another one is no space
    and has a value below 10. *)
Lemma decimal_digit (c : N) :
  isdecimal c = true ->
  (c <? 128) = true /\ is_09 c = true
  \/ (c <? 127) = false /\ isspace c = false
     /\ exists v, decimal_value c = Some v /\ is_09 (ch "0" + v) = true.
Proof.
  unfold isdecimal, decimal_value.
  destruct (find _ decimal_blocks) as [b|] eqn:F; [intros _|discriminate].
  apply find_some in F as [Hin Hb]. apply andb_true_iff in Hb as [Hlo Hhi].
  apply N.leb_le in Hlo. apply N.ltb_lt in Hhi.
  assert (Hall : forallb (fun b => forallb (fun c =>
              if c <? 127 then is_09 c else negb (isspace c)) (block (fst b) (snd b)))
            decimal_blocks = true) by (vm_compute; reflexivity).
  rewrite forallb_forall in Hall. specialize (Hall b Hin).
  rewrite forallb_forall in Hall. specialize (Hall c (in_block _ _ _ (conj Hlo Hhi))).
  destruct (c <? 127) eqn:E.
  - left. split; [apply N.ltb_lt; apply N.ltb_lt in E; lia | exact Hall].
  - right. split; [reflexivity|]. split; [apply negb_true_iff, Hall|].
    eexists. split; [reflexivity|].
    pose proof (N.mod_upper_bound (c - fst b) 10 ltac:(lia)) as Hv.
    generalize dependent ((c - fst b) mod 10). intros v Hv.
    unfold is_09, in_range. change (ch "0") with 48. change (ch "9") with 57.
    apply andb_true_iff. split; [apply N.leb_le | apply N.leb_le]; lia.
Qed.

Lemma digit_no_space (c : N) : is_09 c = true -> c_isspace c = false.
Proof.
  unfold is_09, in_range, c_isspace. change (ch "0") with 48. change (ch "9") with 57.
  intros [H1 H2]%andb_true_iff. apply N.leb_le in H1, H2.
  apply orb_false_iff. split; [apply andb_false_iff; right; apply N.leb_gt; lia|].
  apply N.eqb_neq. lia.
Qed.

Lemma digit_ascii (c : N) : is_09 c = true -> (c <? 127) = true.
Proof.
  unfold is_09, in_range. change (ch "0") with 48. change (ch "9") with 57.
  intros [H1 H2]%andb_true_iff. apply N.leb_le in H1, H2. apply N.ltb_lt. lia.
Qed.

Lemma digit_no_sign (c : N) :
  is_09 c = true -> (c =? ch "-") = false /\ (c =? ch "+") = false /\ (c =? ch "_") = false.
Proof.
  unfold is_09, in_range. change (ch "0") with 48. change (ch "9") with 57.
  change (ch "-") with 45. change (ch "+") with 43. change (ch "_") with 95.
  intros [H1 H2]%andb_true_iff. apply N.leb_le in H1, H2.
  repeat split; apply N.eqb_neq; lia.
Qed.

Lemma transform_ascii (s : str) :
  Forall (fun c => (c <? 127) = true) s -> transform s = s.
Proof.
  induction 1 as [|c s Hc _ IH]; [reflexivity|]. cbn [transform]. rewrite Hc, IH. reflexivity.
Qed.

(** [int] reads the decimal digits of any script as ASCII digits. *)
Lemma transform_digits (p tail : str) :
  Forall (fun c => isdecimal c = true) p ->
  Forall (fun c => (c <? 127) = true) tail ->
  exists q, transform (p ++ tail) = q ++ tail
            /\ length q = length p /\ Forall (fun c => is_09 c = true) q.
Proof.
  intros Hp Ht. induction Hp as [|c p Hc _ (q & IH & Hl & Hq)].
  - exists []. split; [apply transform_ascii, Ht|]. split; [reflexivity | constructor].
  - cbn [app transform]. rewrite IH.
    destruct (decimal_digit c Hc) as [[Hlt Hd]|(Hlt & Hs & v & Hv & Hd)].
    + exists (c :: q). rewrite (digit_ascii c Hd).
      split; [reflexivity|]. split; [cbn [length]; congruence | constructor; assumption].
    + exists ((ch "0" + v) :: q). rewrite Hlt, Hs, Hv.
      split; [reflexivity|]. split; [cbn [length]; congruence | constructor; assumption].
Qed.

Lemma to_ascii_digits (p tail : str) :
  Forall (fun c => isdecimal c = true) p ->
  Forall (fun c => (c <? 127) = true) tail ->
  exists q, to_ascii (p ++ tail) = q ++ tail
            /\ length q = length p /\ Forall (fun c => is_09 c = true) q.
Proof.
  intros Hp Ht. unfold to_ascii.
  destruct (forallb (fun c => c <? 128) (p ++ tail)) eqn:E; [|apply transform_digits; assumption].
  exists p. split; [reflexivity|]. split; [reflexivity|].
  rewrite forallb_app in E. apply andb_true_iff in E as [E _].
  rewrite forallb_forall in E. rewrite List.Forall_forall in Hp |- *.
  intros c Hin. destruct (decimal_digit c (Hp c Hin)) as [[_ Hd]|(Hlt & _ & v & Hv & _)];
    [exact Hd|].
  exfalso. specialize (E c Hin). apply N.ltb_lt in E. apply N.ltb_ge in Hlt.
  assert (c = 127) as -> by lia. vm_compute in Hv. discriminate Hv.
Qed.

Lemma c_lstrip_digits (q : str) :
  Forall (fun c => is_09 c = true) q -> c_lstrip q = q.
Proof.
  destruct 1 as [|c q Hc _]; [reflexivity|]. cbn [c_lstrip].
  rewrite (digit_no_space c Hc). reflexivity.
Qed.

Lemma grouped_digits_all (c : N) (q : str) :
  Forall (fun c => is_09 c = true) (c :: q) -> grouped_digits (c :: q) = Some (c :: q).
Proof.
  revert c. induction q as [|c' q IH]; intros c H; inversion H as [|? ? Hc Hq]; subst.
  - cbn [grouped_digits]. rewrite Hc. reflexivity.
  - change (grouped_digits (c :: c' :: q))
      with (if is_09 c then
              if c' =? ch "_" then option_map (cons c) (grouped_digits q)
              else option_map (cons c) (grouped_digits (c' :: q))
            else None).
    inversion Hq as [|? ? Hc' _]; subst.
    destruct (digit_no_sign c' Hc') as (_ & _ & ->).
    rewrite Hc, (IH c' Hq). reflexivity.
Qed.

(** [int] returns on one to three decimal digits, also when a newline
    follows them. *)
Lemma py_int_octet (p tail : str) :
  octet_text p -> tail = [] \/ tail = [10] -> exists n, py_int (p ++ tail) = Ok n.
Proof.
  intros [Hlen Hp] Ht.
  assert (Hascii : Forall (fun c => (c <? 127) = true) tail)
    by (destruct Ht as [->| ->]; repeat constructor).
  destruct (to_ascii_digits p tail Hp Hascii) as (q & E & Hl & Hq).
  unfold py_int. rewrite E.
  assert (c_strip (q ++ tail) = q) as ->.
  { unfold c_strip. destruct q as [|c q]; [cbn in Hl; lia|].
    assert (c_lstrip ((c :: q) ++ tail) = (c :: q) ++ tail) as ->.
    { cbn [app c_lstrip]. inversion Hq; subst.
      rewrite digit_no_space by assumption. reflexivity. }
    rewrite rev_app_distr.
    assert (c_lstrip (rev tail ++ rev (c :: q)) = rev (c :: q)) as ->.
    { destruct Ht as [->| ->]; cbn [rev app c_lstrip].
      - apply (c_lstrip_digits (rev q ++ [c])).
        apply (proj2 (List.Forall_forall _ _)). intros x Hx.
        apply (proj1 (List.Forall_forall _ _) Hq). apply in_rev. exact Hx.
      - change (c_isspace 10) with true. cbn iota.
        apply (c_lstrip_digits (rev q ++ [c])).
        apply (proj2 (List.Forall_forall _ _)). intros x Hx.
        apply (proj1 (List.Forall_forall _ _) Hq). apply in_rev. exact Hx. }
    apply rev_involutive. }
  destruct q as [|c q]; [cbn in Hl; lia|].
  assert (take_sign (c :: q) = (false, c :: q)) as ->.
  { unfold take_sign. inversion Hq as [|? ? Hc _]; subst.
    destruct (digit_no_sign c Hc) as (-> & -> & _). reflexivity. }
  rewrite (grouped_digits_all c q Hq).
  assert ((int_max_str_digits <? length (c :: q))%nat = false) as ->.
  { apply Nat.ltb_ge. unfold int_max_str_digits. lia. }
  eexists. reflexivity.
Qed.

Lemma octet_no_dot (p tail : str) :
  octet_text p -> tail = [] \/ tail = [10] -> has_char (ch ".") (p ++ tail) = false.
Proof.
  intros [_ Hp] Ht. rewrite has_char_app. apply orb_false_iff. split.
  - induction Hp as [|c p Hc _ IH]; [reflexivity|].
    unfold has_char. cbn [existsb]. apply orb_false_iff. split; [|exact IH].
    apply N.eqb_neq. intros <-. vm_compute in Hc. discriminate Hc.
  - destruct Ht as [->| ->]; reflexivity.
Qed.

Lemma split_app (sep : N) (p rest : str) :
  has_char sep p = false -> split sep (p ++ sep :: rest) = p :: split sep rest.
Proof.
  induction p as [|c p IH]; intros H.
  - cbn [app split]. rewrite N.eqb_refl. reflexivity.
  - unfold has_char in H. cbn [existsb] in H. apply orb_false_iff in H as [Hc Hp].
    cbn [app split]. rewrite N.eqb_sym, Hc, (IH Hp). reflexivity.
Qed.

Lemma split_none (sep : N) (p : str) : has_char sep p = false -> split sep p = [p].
Proof.
  induction p as [|c p IH]; intros H; [reflexivity|].
  unfold has_char in H. cbn [existsb] in H. apply orb_false_iff in H as [Hc Hp].
  cbn [split]. rewrite N.eqb_sym, Hc, (IH Hp). reflexivity.
Qed.

(** The IPv4 block never raises: what the pattern lets through, [int]
    converts. *)
Lemma check_ipv4_returns (value : str) (e : exn) : check_ipv4 value <> Raise e.
Proof.
  unfold check_ipv4. destruct (Re.re_match Re.ipv4_pattern value) eqn:M; [|discriminate].
  apply ipv4_shape in M as (p1 & p2 & p3 & p4 & tail & -> & H1 & H2 & H3 & H4 & Ht).
  pose proof (octet_no_dot p1 [] H1 (or_introl eq_refl)) as D1.
  pose proof (octet_no_dot p2 [] H2 (or_introl eq_refl)) as D2.
  pose proof (octet_no_dot p3 [] H3 (or_introl eq_refl)) as D3.
  rewrite app_nil_r in D1, D2, D3.
  rewrite (split_app _ p1 _ D1), (split_app _ p2 _ D2), (split_app _ p3 _ D3).
  rewrite (split_none _ _ (octet_no_dot p4 tail H4 Ht)).
  destruct (py_int_octet p1 [] H1 (or_introl eq_refl)) as [n1 E1].
  destruct (py_int_octet p2 [] H2 (or_introl eq_refl)) as [n2 E2].
  destruct (py_int_octet p3 [] H3 (or_introl eq_refl)) as [n3 E3].
  destruct (py_int_octet p4 tail H4 Ht) as [n4 E4].
  rewrite app_nil_r in E1, E2, E3.
  cbn [all_octets]. unfold mbind, result_bind. rewrite E1, E2, E3, E4.
  repeat lazymatch goal with
         | |- context [if ?b then _ else _] => destruct b
         end; discriminate.
Qed.

(** *** The blocks *)

Lemma check_formats_returns (fmts : list str) (value : str) (e : exn) :
  check_formats fmts value <> Raise e.
Proof.
  induction fmts as [|fmt fmts IH]; cbn [check_formats]; [discriminate|].
  destruct (Strptime.strptime value fmt) as [[]|e'] eqn:E.
  - destruct (_ || _); discriminate.
  - apply strptime_raises in E. subst e'. exact IH.
Qed.

Ltac caught H :=
  injection H as <-;
  repeat match goal with
         | E : py_int _ = Raise _ |- _ => apply py_int_raises in E; subst
         | E : py_float _ = Raise _ |- _ => apply py_float_raises in E; subst
         | E : py_decimal _ = Raise _ |- _ => apply py_decimal_raises in E; subst
         end;
  discriminate.

(** Of the blocks of [infer_types], only the JSON block raises, and only
    the [RecursionError] of [json.loads] on the text. *)
Lemma rules_raise (recursion_limit : nat) :
  Forall (raises_from_json recursion_limit) (rules recursion_limit).
Proof.
  unfold rules.
  repeat lazymatch goal with |- Forall _ _ => constructor end.
  5: intros value e H; destruct (check_ipv4_returns _ _ H).
  13: intros value e H; destruct (check_formats_returns _ _ _ H).
  9: { intros value e H. unfold check_json in H. fold (bracketed value) in H.
       destruct (bracketed value); [|discriminate H].
       destruct (loads recursion_limit value) as [k|e'] eqn:E; [discriminate H|].
       destruct (is_ValueError e') eqn:V; [discriminate H|]. injection H as <-.
       destruct (loads_raises _ _ _ E) as [V'| ->]; [congruence|]. repeat split. }
  all: intros value e H; exfalso;
    unfold check_boolean, check_uuid, check_email, check_url, check_ipv6,
      check_mac, check_credit_card, check_phone, check_array,
      check_percentage, check_currency, check_timestamp, check_integer, check_float,
      check_decimal, check_postal, check_isbn, check_base64, check_hex_color,
      returns, falls_through in H;
    raised H; caught H.
Qed.

Lemma first_match_raises (recursion_limit : nat) (rs : list rule) :
  Forall (raises_from_json recursion_limit) rs ->
  raises_from_json recursion_limit (first_match rs).
Proof.
  induction 1 as [|r rs Hr _ IH]; intros value e; cbn [first_match]; [discriminate|].
  unfold mbind, result_bind. destruct (r value) as [[t|]|e'] eqn:E.
  - discriminate.
  - apply IH.
  - intros [= <-]. exact (Hr _ _ E).
Qed.

(** The classifier raises what its blocks raise on the stripped text. *)
Lemma infer_types_first_match (recursion_limit : nat) (value : option str) (e : exn) :
  infer_types recursion_limit value = Raise e ->
  exists raw, value = Some raw
              /\ first_match (rules recursion_limit) (strip raw) = Raise e.
Proof.
  unfold infer_types. destruct value as [raw|]; [|discriminate].
  destruct (_ || _); [discriminate|].
  unfold mbind, result_bind.
  destruct (first_match (rules recursion_limit) (strip raw)) as [[t|]|e'] eqn:E;
    [discriminate..|].
  intros [= <-]. exists raw. split; [reflexivity | exact E].
Qed.

Lemma infer_types_recursion (recursion_limit : nat) (value : option str) (e : exn) :
  infer_types recursion_limit value = Raise e -> e = RecursionError.
Proof.
  intros H. apply infer_types_first_match in H as (raw & _ & H).
  apply (first_match_raises _ _ (rules_raise recursion_limit)) in H. apply H.
Qed.

(** The classifier lets no failed conversion out: it never raises
    [ValueError], [JSONDecodeError] or [InvalidOperation].  What [int],
    [float], [Decimal], [strptime] and [json.loads] raise of these is
    caught by the block it is raised in, and the unguarded [int] of the
    IPv4 block cannot fail on what the pattern lets through. *)
Theorem infer_types_catches (recursion_limit : nat) (value : option str) :
  infer_types recursion_limit value <> Raise ValueError
  /\ infer_types recursion_limit value <> Raise JSONDecodeError
  /\ infer_types recursion_limit value <> Raise InvalidOperation.
Proof.
  repeat split; intros H; apply infer_types_first_match in H as (raw & _ & H);
    apply (first_match_raises _ _ (rules_raise recursion_limit)) in H as [H _];
    discriminate H.
Qed.
End Raising.


(** ** What the generators raise *)

Section GeneratorsRaising.
Import Schema Spec Json DataInfer Csv Jsonl.

Variable recursion_limit : nat.

(** When the records of the file are read without error, the tabular
    generator raises nothing but [RecursionError]: no failed conversion
    of a cell reaches the caller.  Without a file it raises
    [FileNotFoundError]. *)
Theorem csv_raises_recursion (file : option reader) (sample_rows : Z) (e : exn) :
  generate_csv_schema recursion_limit file sample_rows = Raise e ->
  (file = None /\ e = FileNotFoundError)
  \/ (file <> None /\ e = RecursionError).
Proof.
  unfold generate_csv_schema. destruct file as [f|]; [|intros [= <-]; left; auto].
  intros H. right. split; [discriminate|].
  destruct (scan_rows recursion_limit _ (rows f) sample_rows 0 _) as [sets|e'] eqn:E.
  - unfold mbind, result_bind in H. destruct (build _ _ _ _). discriminate H.
  - injection H as <-. apply scan_rows_raises in E as (row & h & _ & _ & Hc).
    exact (infer_types_recursion _ _ _ Hc).
Qed.

Lemma scan_items_raises (b : bool) (l : list json) (acc : tags * tags) (e : exn) :
  scan_items recursion_limit b l acc = Raise e -> e = RecursionError.
Proof.
  revert acc. induction l as [|item l IH]; intros acc H; [discriminate H|].
  cbn [scan_items] in H. destruct b; [|exact (IH _ H)].
  unfold mbind, result_bind in H.
  destruct (infer_types recursion_limit _) as [[bt dt]|e'] eqn:E.
  - exact (IH _ H).
  - injection H as <-. exact (infer_types_recursion _ _ _ E).
Qed.

Ltac innermost t :=
  lazymatch t with
  | match ?x with _ => _ end => innermost x
  | _ => t
  end.

Ltac cases H :=
  unfold mbind, result_bind in H;
  repeat first
    [ progress cbn beta iota in H
    | lazymatch type of H with
      | match ?x with _ => _ end = Raise _ =>
          let y := innermost x in destruct y eqn:?
      end ];
  try discriminate H.

(** Processing an object raises only what the classifier raises. *)
Lemma process_object_raises (v : json) :
  (forall path b e,
     process_object recursion_limit v path b = Raise e -> e = RecursionError)
  /\ (forall first l path b e,
        v = JList (first :: l) ->
        process_object recursion_limit first path b = Raise e -> e = RecursionError).
Proof.
  induction v as [ | | | | |l IHl|d IHd] using json_ind';
    try (split; [intros path ubt e H; discriminate H | discriminate]).
  - split; [intros path ubt e H; discriminate H|].
    intros first l' path ubt e [= ->]. apply Forall_inv in IHl as [H _]. apply H.
  - split; [|discriminate]. intros path b e. rewrite process_object_fold.
    generalize ([] : dict prop). induction IHd as [|[k v] d [Hv Hfirst] _ IH]; intros acc.
    + discriminate.
    + cbn [fold_left]. unfold next_field at 2. cbn [fst snd] in *.
      destruct (field_schema recursion_limit path b k v) as [p|e'] eqn:F.
      * unfold mbind, result_bind. apply IH.
      * unfold mbind, result_bind. rewrite next_field_raise. intros [= <-].
        unfold field_schema in F. cbn [process_object] in F.
        cases F; injection F as <-;
          first [ eapply infer_types_recursion; eassumption
                | eapply scan_items_raises; eassumption
                | eapply Hv; eassumption
                | eapply Hfirst; [reflexivity | eassumption] ].
Qed.

Lemma read_lines_raise (lines : list line) (sample_rows : Z) (b : bool)
  (st : reading) (e : exn) :
  read_lines recursion_limit lines sample_rows b st = Raise e ->
  (In (Text (Raise e)) lines /\ e <> JSONDecodeError)
  \/ (b = true /\ e = RecursionError).
Proof.
  destruct b; [|intros H; left; exact (read_lines_raises _ _ _ _ _ H)].
  revert st. induction lines as [|l lines IH]; intros st H; [discriminate H|].
  cbn [read_lines] in H. destruct (sample_rows <=? row_count st)%Z; [discriminate H|].
  assert (Hrest : forall st', read_lines recursion_limit lines sample_rows true st' = Raise e ->
                  (In (Text (Raise e)) (l :: lines) /\ e <> JSONDecodeError)
                  \/ (true = true /\ e = RecursionError)).
  { intros st' H'. destruct (IH _ H') as [[H1 H2]|H1]; [left | right; exact H1].
    split; [right; exact H1 | exact H2]. }
  destruct l as [|[obj|e']].
  - exact (Hrest _ H).
  - destruct obj; try exact (Hrest _ H).
    unfold _process_nested_object, mbind, result_bind in H.
    destruct (process_object recursion_limit (JDict d) [] true) as [sch|e'] eqn:E.
    + exact (Hrest _ H).
    + injection H as <-. right. split; [reflexivity|].
      exact (proj1 (process_object_raises (JDict d)) _ _ _ E).
  - destruct e'; try (injection H as <-; left; split; [left; reflexivity | discriminate]).
    exact (Hrest _ H).
Qed.

(** Whatever the flag, and when the lines of the file are read as text
    without error (the file is given by its lines), the JSONL generator
    raises [FileNotFoundError] when there is no file, what [json.loads]
    raised on a line when that is not [JSONDecodeError], and, with
    business types on, [RecursionError]; nothing else.  (The call stack
    is taken to be deep enough for the generator's own recursion on the
    decoded objects.) *)
Theorem jsonl_raises (file : option (list line)) (sample_rows : Z)
  (use_business_types : bool) (e : exn) :
  generate_jsonl_schema recursion_limit file sample_rows use_business_types = Raise e ->
  (file = None /\ e = FileNotFoundError)
  \/ (exists lines, file = Some lines /\ In (Text (Raise e)) lines /\ e <> JSONDecodeError)
  \/ (use_business_types = true /\ e = RecursionError).
Proof.
  unfold generate_jsonl_schema. destruct file as [lines|]; [|intros [= <-]; left; auto].
  intros H. right.
  destruct (read_lines recursion_limit lines sample_rows use_business_types start)
    as [st|e'] eqn:E.
  - unfold mbind, result_bind in H. destruct (object_schemas st); discriminate H.
  - injection H as <-. destruct (read_lines_raise _ _ _ _ _ E) as [H|H]; [left | right; exact H].
    exists lines. split; [reflexivity | exact H].
Qed.

Lemma csv_raises_kind (file : option reader) (sample_rows : Z) (e : exn) :
  generate_csv_schema recursion_limit file sample_rows = Raise e ->
  e = FileNotFoundError \/ e = RecursionError.
Proof.
  unfold generate_csv_schema. destruct file as [f|]; [|intros [= <-]; left; reflexivity].
  intros H. right.
  destruct (scan_rows recursion_limit _ (rows f) sample_rows 0 _) as [sets|e'] eqn:E.
  - unfold mbind, result_bind in H. destruct (build _ _ _ _). discriminate H.
  - injection H as <-. apply scan_rows_raises in E as (row & h & _ & _ & Hc).
    exact (infer_types_recursion _ _ _ Hc).
Qed.

Lemma jsonl_raises_kind (file : option (list line)) (sample_rows : Z) (b : bool) (e : exn) :
  generate_jsonl_schema recursion_limit file sample_rows b = Raise e ->
  e = FileNotFoundError \/ e = RecursionError
  \/ (exists lines, file = Some lines /\ In (Text (Raise e)) lines /\ e <> JSONDecodeError).
Proof.
  unfold generate_jsonl_schema. destruct file as [lines|]; [|intros [= <-]; left; reflexivity].
  intros H. right.
  destruct (read_lines recursion_limit lines sample_rows b start) as [st|e'] eqn:E.
  - unfold mbind, result_bind in H. destruct (object_schemas st); discriminate H.
  - injection H as <-. destruct (read_lines_raise _ _ _ _ _ E) as [H|[_ H]]; [right | left; exact H].
    exists lines. split; [reflexivity | exact H].
Qed.

Lemma resolve_file_type_raises (f : SchemaGenerator.file) (file_type : option str) (e : exn) :
  SchemaGenerator.resolve_file_type recursion_limit f file_type = Raise e ->
  e = ValueError \/ e = FileNotFoundError \/ e = RecursionError.
Proof.
  unfold SchemaGenerator.resolve_file_type, SchemaGenerator.detect_file_type,
    SchemaGenerator.detect_by_content.
  intros H. cases H; injection H as <-;
    first [ left; reflexivity | right; left; reflexivity | right; right; reflexivity
          | exfalso;
            match goal with
            | E : loads _ _ = Raise _ |- _ =>
                apply loads_raises in E as [V|V]; discriminate V
            end ].
Qed.

(** When the generator that is chosen reads the file without error (no
    error of [open], of decoding the text, or of [csv.reader]: the file is
    given by its records and lines), [generate_schema] raises
    [ValueError], [FileNotFoundError] or [RecursionError], or else what
    the Parquet generator raises or what [json.loads] raised on a line of
    the file (other than [JSONDecodeError]).  (The call stack is taken to
    be deep enough for the generators' own recursion on the decoded
    objects.) *)
Theorem generate_schema_raises
  (generate_parquet_schema : SchemaGenerator.file -> Z -> bool -> result schema)
  (f : SchemaGenerator.file) (sample_rows : Z) (use_business_types : bool)
  (file_type : option str) (e : exn) :
  SchemaGenerator.generate_schema recursion_limit generate_parquet_schema f sample_rows
                                  use_business_types file_type = Raise e ->
  e = ValueError \/ e = FileNotFoundError \/ e = RecursionError
  \/ generate_parquet_schema f sample_rows use_business_types = Raise e
  \/ (In (Text (Raise e)) (SchemaGenerator.lines f) /\ e <> JSONDecodeError).
Proof.
  unfold SchemaGenerator.generate_schema, mbind, result_bind.
  destruct (SchemaGenerator.resolve_file_type recursion_limit f file_type) as [t|e'] eqn:R.
  - destruct (str_eqb t (u "csv")); [|destruct (str_eqb t (u "jsonl"));
                                       [|destruct (str_eqb t (u "parquet"))]].
    + intros H. apply csv_raises_kind in H as [->| ->]; auto.
    + intros H. apply jsonl_raises_kind in H as [->|[->|(ls & Hls & Hin)]]; auto.
      right. right. right. right. unfold SchemaGenerator.opened in Hls.
      destruct (SchemaGenerator.present f); [|discriminate Hls].
      injection Hls as <-. exact Hin.
    + auto.
    + intros [= <-]. auto.
  - intros [= <-]. apply resolve_file_type_raises in R as [->|[->| ->]]; auto.
Qed.
End GeneratorsRaising.

Lemma csv_raises_recursion_witness :
  exists e, Csv.generate_csv_schema 100 (Some [[u "a"]; [Spec.nested 200]]) 10 = Raise e
            /\ ((Some [[u "a"]; [Spec.nested 200]] = None /\ e = FileNotFoundError)
                \/ (Some [[u "a"]; [Spec.nested 200]] <> None /\ e = RecursionError)).
Proof.
  destruct (Csv.generate_csv_schema 100 (Some [[u "a"]; [Spec.nested 200]]) 10)
    as [s|e] eqn:E; [vm_compute in E; discriminate E|].
  exists e. split; [reflexivity|]. exact (csv_raises_recursion _ _ _ _ E).
Defined.

Lemma jsonl_raises_witness :
  exists e,
    Jsonl.generate_jsonl_schema 100
      (Some [Jsonl.Text (Ok (Jsonl.JDict [(u "a", Jsonl.JStr (Spec.nested 200))]))]) 10 true
    = Raise e
    /\ ((Some [Jsonl.Text (Ok (Jsonl.JDict [(u "a", Jsonl.JStr (Spec.nested 200))]))] = None
         /\ e = FileNotFoundError)
        \/ (exists lines,
              Some [Jsonl.Text (Ok (Jsonl.JDict [(u "a", Jsonl.JStr (Spec.nested 200))]))]
              = Some lines
              /\ In (Jsonl.Text (Raise e)) lines /\ e <> JSONDecodeError)
        \/ (true = true /\ e = RecursionError)).
Proof.
  destruct (Jsonl.generate_jsonl_schema 100
              (Some [Jsonl.Text (Ok (Jsonl.JDict [(u "a", Jsonl.JStr (Spec.nested 200))]))])
              10 true) as [s|e] eqn:E;
    [vm_compute in E; discriminate E|].
  exists e. split; [reflexivity|]. exact (jsonl_raises _ _ _ _ _ E).
Defined.

Lemma generate_schema_raises_witness :
  exists e,
    SchemaGenerator.generate_schema 100 (fun _ _ _ => Raise ImportError)
      {| SchemaGenerator.present := true; SchemaGenerator.suffix := u ".csv";
         SchemaGenerator.stem := u "data"; SchemaGenerator.readable := true;
         SchemaGenerator.first_bytes := u "a"; SchemaGenerator.last_bytes := None;
         SchemaGenerator.first_line := u "a"; SchemaGenerator.second_line := Spec.nested 200;
         SchemaGenerator.records := [[u "a"]; [Spec.nested 200]];
         SchemaGenerator.lines := [] |} 10 true None = Raise e
    /\ (e = ValueError \/ e = FileNotFoundError \/ e = RecursionError
        \/ Raise ImportError = (Raise e : result Schema.schema)
        \/ (In (Jsonl.Text (Raise e)) [] /\ e <> JSONDecodeError)).
Proof.
  destruct (SchemaGenerator.generate_schema 100 (fun _ _ _ => Raise ImportError)
      {| SchemaGenerator.present := true; SchemaGenerator.suffix := u ".csv";
         SchemaGenerator.stem := u "data"; SchemaGenerator.readable := true;
         SchemaGenerator.first_bytes := u "a"; SchemaGenerator.last_bytes := None;
         SchemaGenerator.first_line := u "a"; SchemaGenerator.second_line := Spec.nested 200;
         SchemaGenerator.records := [[u "a"]; [Spec.nested 200]];
         SchemaGenerator.lines := [] |} 10 true None) as [s|e] eqn:E;
    [vm_compute in E; discriminate E|].
  exists e. split; [reflexivity|]. exact (generate_schema_raises _ _ _ _ _ _ _ E).
Defined.

(** ** Schemas without business types *)

Section Plain.
Import Schema Spec Jsonl.

Lemma plain_eq (t : option pyval) (d : option str) (b : option pyval)
  (ps : option (dict prop)) (i : option prop) :
  plain (Property t d b ps i)
  = match b with None => true | Some _ => false end
    && match ps with Some d => all_plain d | None => true end
    && match i with Some q => plain q | None => true end.
Proof.
  cbn [plain]. f_equal. f_equal. destruct ps as [l|]; [|reflexivity].
  induction l as [|[k q] l IH]; [reflexivity|].
  unfold all_plain in *. cbn [forallb snd]. rewrite <- IH. reflexivity.
Qed.

Lemma prop_ind' (P : prop -> Prop) :
  (forall t d b ps i,
     match ps with Some l => Forall (fun kv => P (snd kv)) l | None => True end ->
     match i with Some q => P q | None => True end ->
     P (Property t d b ps i)) ->
  forall p, P p.
Proof.
  intros H. fix IH 1. intros [t d b ps i]. apply H.
  - destruct ps as [l|]; [|exact I].
    induction l as [|[k q] l IHl]; constructor; [apply IH | exact IHl].
  - destruct i as [q|]; [apply IH | exact I].
Qed.

Lemma all_plain_get (d : dict prop) (k : str) (p : prop) :
  all_plain d = true -> dict_get k d = Some p -> plain p = true.
Proof.
  induction d as [|[k' q] d IH]; [discriminate|].
  unfold all_plain. cbn [forallb snd dict_get]. intros [Hq Hd]%andb_true_iff.
  destruct (str_eqb k k'); [intros [= <-]; exact Hq | apply IH, Hd].
Qed.

Lemma all_plain_set (d : dict prop) (k : str) (p : prop) :
  all_plain d = true -> plain p = true -> all_plain (dict_set k p d) = true.
Proof.
  intros Hd Hp. induction d as [|[k' q] d IH].
  - unfold all_plain. cbn [dict_set forallb snd]. rewrite Hp. reflexivity.
  - unfold all_plain in Hd. cbn [forallb snd] in Hd. apply andb_true_iff in Hd as [Hq Hd].
    cbn [dict_set]. destruct (str_eqb k k'); unfold all_plain; cbn [forallb snd].
    + rewrite Hp. exact Hd.
    + rewrite Hq. exact (IH Hd).
Qed.

Lemma plain_set_type (v : pyval) (p : prop) : plain (set_type v p) = plain p.
Proof. destruct p as [t d b ps i]. unfold set_type. rewrite !plain_eq. reflexivity. Qed.

Lemma plain_set_properties (ps : dict prop) (p : prop) :
  plain p = true -> all_plain ps = true -> plain (set_properties ps p) = true.
Proof.
  destruct p as [t d b ps' i]. unfold set_properties. rewrite !plain_eq.
  intros [[Hb _]%andb_true_iff Hi]%andb_true_iff Hps. rewrite Hb, Hps, Hi. reflexivity.
Qed.

Lemma plain_set_items (q p : prop) :
  plain p = true -> plain q = true -> plain (set_items q p) = true.
Proof.
  destruct p as [t d b ps i]. unfold set_items. rewrite !plain_eq.
  intros [H _]%andb_true_iff Hq. rewrite H, Hq. reflexivity.
Qed.

Lemma plain_properties (p : prop) :
  plain p = true -> all_plain (or_empty (p_properties p)) = true.
Proof.
  destruct p as [t d b ps i]. rewrite plain_eq. cbn [p_properties].
  intros [[_ H]%andb_true_iff _]%andb_true_iff. destruct ps; [exact H | reflexivity].
Qed.

Lemma plain_items (p : prop) :
  plain p = true -> plain (match p_items p with Some i => i | None => empty_prop end) = true.
Proof.
  destruct p as [t d b ps i]. rewrite plain_eq. cbn [p_items].
  intros [_ H]%andb_true_iff. destruct i; [exact H | reflexivity].
Qed.

Lemma plain_union_types (p : prop) (v : pyval) : plain (union_types p v) = plain p.
Proof.
  unfold union_types.
  repeat lazymatch goal with
         | |- context [if ?b then _ else _] => destruct b
         | |- context [match ?x with _ => _ end] => destruct x
         end; rewrite ?plain_set_type; reflexivity.
Qed.

Lemma plain_union_item_types (p : prop) (v : pyval) : plain (union_item_types p v) = plain p.
Proof. unfold union_item_types. destruct (_ && _); [apply plain_union_types | reflexivity]. Qed.

(** The loop inside [merge_value] is [merge_into]. *)
Lemma merge_from_into (b : bool) (prop_dict merged : dict prop) :
  (fix go (merged : dict prop) (prop_dict : list (str * prop)) {struct prop_dict}
     : dict prop :=
     match prop_dict with
     | [] => merged
     | (key, v) :: rest =>
         go match dict_get key merged with
            | Some e0 => dict_set key (merge_value b e0 v) merged
            | None => dict_set key v merged
            end rest
     end) merged prop_dict
  = merge_into b merged prop_dict.
Proof.
  revert merged. induction prop_dict as [|[k v] rest IH]; intros merged; [reflexivity|].
  rewrite merge_into_cons, <- IH. destruct (dict_get k merged); reflexivity.
Qed.

Lemma merge_into_plain (prop_dict merged : dict prop) :
  Forall (fun kv => forall e, plain e = true -> plain (snd kv) = true ->
                              plain (merge_value false e (snd kv)) = true) prop_dict ->
  all_plain merged = true -> all_plain prop_dict = true ->
  all_plain (merge_into false merged prop_dict) = true.
Proof.
  intros H. revert merged. induction H as [|[k v] rest Hv _ IH]; intros merged Hm Hd;
    [exact Hm|].
  unfold all_plain in Hd. cbn [forallb snd] in Hd. apply andb_true_iff in Hd as [Hp Hd].
  rewrite merge_into_cons. apply IH; [|exact Hd].
  destruct (dict_get k merged) as [e|] eqn:E.
  - apply all_plain_set; [exact Hm|]. apply Hv; [exact (all_plain_get _ _ _ Hm E) | exact Hp].
  - apply all_plain_set; assumption.
Qed.

(** With business types off, merging two properties that have no business
    type gives one that has none. *)
Lemma merge_value_plain (value : prop) :
  forall existing, plain existing = true -> plain value = true ->
                   plain (merge_value false existing value) = true.
Proof.
  enough (H : (forall existing, plain existing = true -> plain value = true ->
                                plain (merge_value false existing value) = true)
              /\ match p_properties value with
                 | Some l =>
                     Forall (fun kv => forall e, plain e = true -> plain (snd kv) = true ->
                                                 plain (merge_value false e (snd kv)) = true) l
                 | None => True
                 end) by apply H.
  induction value as [t d b ps i Hps Hi] using prop_ind'.
  assert (Hl : match ps with
               | Some l =>
                   Forall (fun kv => forall e, plain e = true -> plain (snd kv) = true ->
                                               plain (merge_value false e (snd kv)) = true) l
               | None => True
               end).
  { destruct ps as [l|]; [|exact I]. eapply List.Forall_impl; [|exact Hps].
    intros kv H. apply H. }
  split; [|exact Hl].
  intros e He Hv. rewrite plain_eq in Hv.
  apply andb_true_iff in Hv as [[Hb Hd]%andb_true_iff Hq].
  cbn [merge_value].
  destruct (_ && _).
  - apply plain_set_properties; [exact He|].
    destruct ps as [l|]; [|apply plain_properties, He].
    rewrite merge_from_into. apply merge_into_plain; [exact Hl | apply plain_properties, He | exact Hd].
  - destruct (_ && _); [|rewrite plain_union_types; exact He].
    destruct i as [[vit vid vib vips vii]|]; [|apply plain_set_items; [exact He | apply plain_items, He]].
    apply plain_set_items; [exact He|].
    assert (Hu : plain (union_item_types
                          match p_items e with Some i => i | None => empty_prop end
                          (get vit)) = true)
      by (rewrite plain_union_item_types; apply plain_items, He).
    destruct (_ && _); [|exact Hu].
    apply plain_set_properties; [exact Hu|].
    destruct vips as [l|]; [|apply plain_properties, Hu].
    rewrite plain_eq in Hq. apply andb_true_iff in Hq as [[_ Hq]%andb_true_iff _].
    rewrite merge_from_into. apply merge_into_plain; [exact (proj2 Hi) | apply plain_properties, Hu | exact Hq].
Qed.

Lemma merge_properties_plain (properties_list : list (dict prop)) :
  Forall (fun d => all_plain d = true) properties_list ->
  all_plain (_merge_properties false properties_list) = true.
Proof.
  unfold _merge_properties. assert (H0 : all_plain [] = true) by reflexivity.
  revert H0. generalize ([] : dict prop).
  induction properties_list as [|d l IH]; intros merged Hm H; [exact Hm|].
  apply Forall_cons in H as [Hd Hl]. cbn [fold_left]. apply IH; [|exact Hl].
  apply merge_into_plain; [|exact Hm | exact Hd].
  apply List.Forall_forall. intros kv _. apply merge_value_plain.
Qed.

Variable recursion_limit : nat.

Ltac innermost t :=
  lazymatch t with
  | match ?x with _ => _ end => innermost x
  | _ => t
  end.

Ltac returned H :=
  unfold mbind, result_bind in H;
  repeat first
    [ progress cbn beta iota zeta in H
    | lazymatch type of H with
      | match ?x with _ => _ end = Ok _ =>
          let y := innermost x in destruct y eqn:?
      end ];
  try discriminate H.

(** With business types off, the property of a field has no business
    type, at any depth. *)
Lemma process_object_plain (v : json) :
  (forall path ps,
     process_object recursion_limit v path false = Ok ps -> all_plain ps = true)
  /\ (forall first l path ps,
        v = JList (first :: l) ->
        process_object recursion_limit first path false = Ok ps -> all_plain ps = true).
Proof.
  induction v as [ | | | | |l IHl|d IHd] using json_ind';
    try (split; [intros path ps [= <-]; reflexivity | discriminate]).
  - split; [intros path ps [= <-]; reflexivity|].
    intros first l' path ps [= ->]. apply Forall_inv in IHl as [H _]. apply H.
  - split; [|discriminate]. intros path ps. rewrite process_object_fold.
    assert (H0 : all_plain [] = true) by reflexivity. revert H0.
    generalize ([] : dict prop).
    induction IHd as [|[k v] d [Hv Hfirst] _ IH]; intros acc Hacc.
    + intros [= <-]. exact Hacc.
    + cbn [fold_left]. unfold next_field at 2. cbn [fst snd] in *.
      destruct (field_schema recursion_limit path false k v) as [p|e] eqn:F.
      * unfold mbind, result_bind. apply IH. apply all_plain_set; [exact Hacc|].
        unfold field_schema in F. cbn [process_object dict_set] in F.
        destruct v as [ |x|n|r|t|l|d']; returned F; injection F as <-;
          rewrite ?plain_eq; cbn [andb]; rewrite ?andb_true_r;
          first [ reflexivity
                | eapply Hv; eassumption
                | eapply Hfirst; [reflexivity | eassumption] ].
      * unfold mbind, result_bind. rewrite next_field_raise. discriminate.
Qed.

(** With [use_business_types=False] no property of the schema of a
    line-delimited file has a ["business_type"], at any depth: neither the
    fields of an object, nor the fields of nested objects, nor the items
    of arrays and their fields. *)
Theorem jsonl_plain_off (file : option (list line)) (sample_rows : Z) (s : schema) :
  generate_jsonl_schema recursion_limit file sample_rows false = Ok s ->
  all_plain (properties s) = true.
Proof.
  unfold generate_jsonl_schema. destruct file as [lines|]; [|discriminate].
  destruct (read_lines recursion_limit lines sample_rows false start) as [st|e] eqn:E;
    [|discriminate].
  unfold mbind, result_bind.
  apply read_lines_schemas in E as (new & Hs & Hf). cbn [object_schemas start app] in Hs.
  destruct (object_schemas st) as [|sch schs] eqn:Eo; intros [= <-]; [reflexivity|].
  cbn [properties]. apply merge_properties_plain. rewrite Hs.
  clear Hs Eo. induction Hf as [|record sch' records schs' Hp _ IH]; constructor; [|exact IH].
  exact (proj1 (process_object_plain record) _ _ Hp).
Qed.
End Plain.

Lemma jsonl_plain_off_witness :
  exists s,
    Jsonl.generate_jsonl_schema 1000
      (Some [Jsonl.Text (Ok (Jsonl.JDict
               [(u "contact", Jsonl.JDict [(u "email", Jsonl.JStr (u "a@b.co"))]);
                (u "tags", Jsonl.JList [Jsonl.JStr (u "a@b.co")])]));
             Jsonl.Text (Ok (Jsonl.JDict
               [(u "contact", Jsonl.JDict [(u "url", Jsonl.JStr (u "http://b.co"))])]))])
      100 false = Ok s
    /\ Spec.all_plain (Schema.properties s) = true.
Proof.
  destruct (Jsonl.generate_jsonl_schema 1000
      (Some [Jsonl.Text (Ok (Jsonl.JDict
               [(u "contact", Jsonl.JDict [(u "email", Jsonl.JStr (u "a@b.co"))]);
                (u "tags", Jsonl.JList [Jsonl.JStr (u "a@b.co")])]));
             Jsonl.Text (Ok (Jsonl.JDict
               [(u "contact", Jsonl.JDict [(u "url", Jsonl.JStr (u "http://b.co"))])]))])
      100 false) as [s|e] eqn:E; [|vm_compute in E; discriminate E].
  exists s. split; [reflexivity|]. exact (jsonl_plain_off _ _ _ _ E).
Defined.
